(** * nff-go-nat: the configuration layer of the NAT engine (package nat, config.go)

    A shallow embedding of the configuration data model, of the subnet
    descriptors and their parsers, of the load-time validation performed by
    [ReadConfig] and of the installation of static port-forwarding entries,
    followed by the properties these functions satisfy.

    Conventions.
    - Go's fixed-width unsigned integers (uint8, uint16, uint32) are [Z] values;
      the functions below only compare them, AND them and use them as
      indices, none of which leaves the range of the type.
    - [time.Duration] is an int64 number of nanoseconds with its wrap-around
      written out ([int64]).
    - A byte slice is [option (list Z)], where [None] is the nil slice.
    - Fixed-size arrays ([16]uint8, [6]uint8) are vectors.
    - Pointers into the global configuration ([pp], [port], [port.opposite],
      [fp]) are paths into the store [World]; every read and write through
      them goes to that one store.
    - A call either returns normally, returns a Go [error], or panics. *)

From stdpp Require Import base option list vector strings gmap.
From Stdlib Require Import ZArith Lia.

Local Open Scope Z_scope.

(** ** Values of the address types (nff-go types package) *)

Abbreviation IPv4Address := Z (only parsing).
Abbreviation IPv6Address := (vec Z 16) (only parsing).
Abbreviation MACAddress := (vec Z 6) (only parsing).

(** [[]byte]; [None] is the nil slice. *)
Abbreviation slice := (option (list Z)) (only parsing).

Definition len (s : slice) : nat :=
  match s with
  | None => 0%nat
  | Some l => length l
  end.

Definition zeroIPv6Addr : IPv6Address := vreplicate 16 0.
Definition zeroMACAddress : MACAddress := vreplicate 6 0.

(** Protocol numbers of the types package (the IANA assignments). *)
Definition ICMPNumber : Z := 1.
Definition TCPNumber : Z := 6.
Definition UDPNumber : Z := 17.
Definition ICMPv6Number : Z := 58.

(** ** Errors, panics and outcomes *)

(** One constructor per [errors.New] / [fmt.Errorf] site of config.go, carrying
    the values the message is formatted from. *)
Inductive error : Type :=
  | ErrExternal (msg : string)                       (* returned by a library call *)
  | ErrBadProtocolName (s : string)                  (* config.go:92 *)
  | ErrNotIPv4 (nbytes : nat)                        (* config.go:258 *)
  | ErrParseAddress (s : string)                     (* config.go:298, 334 *)
  | ErrBadIPv6 (s : string)                          (* config.go:317, 327 *)
  | ErrVlanPrivateZero (privIndex pubIndex : Z)      (* config.go:406 *)
  | ErrVlanPublicZero (privIndex pubIndex : Z)       (* config.go:412 *)
  | ErrVlanKNI                                       (* config.go:420 *)
  | ErrDHCPHostName (portIndex : Z)                  (* config.go:427 *)
  | ErrProtocolFamily                                (* config.go:457 *)
  | ErrKNINameMissing (portIndex : Z)                (* config.go:469 *)
  | ErrKNIPortMismatch (port dstPort : Z)            (* config.go:474 *)
  | ErrPrivateForwarding                             (* config.go:481 *)
  | ErrOutsideSubnet6 (dst : IPv6Address) (subnetAddr subnetMask : IPv6Address)
                                                     (* config.go:486 *)
  | ErrOutsideSubnet4 (dst : IPv4Address) (subnetAddr subnetMask : IPv4Address).
                                                     (* config.go:493 *)

Inductive panic : Type :=
  | IndexOutOfRange (i n : nat)     (* index i on a slice of length n *)
  | NilDereference.

Inductive outcome (A : Type) : Type :=
  | Done (a : A)
  | Fail (e : error)
  | Panic (p : panic).
Arguments Done {A} a.
Arguments Fail {A} e.
Arguments Panic {A} p.

Definition outcome_bind {A B} (f : A → outcome B) (m : outcome A) : outcome B :=
  match m with
  | Done a => f a
  | Fail e => Fail e
  | Panic p => Panic p
  end.

#[global] Instance outcome_ret : MRet outcome := λ A a, Done a.
#[global] Instance outcome_mbind : MBind outcome := λ A B f m, outcome_bind f m.

Definition returnsError {A} (r : outcome A) : Prop := ∃ e, r = Fail e.

(** [s[i]] on a slice, with Go's bounds check. *)
Definition index (s : slice) (i : nat) : outcome Z :=
  match default [] s !! i with
  | Some b => Done b
  | None => Panic (IndexOutOfRange i (len s))
  end.

(** ** The parts of Go's net package the parsers use *)

Module net.

Definition IPv4len : nat := 4.
Definition IPv6len : nat := 16.

Definition v4InV6Prefix : list Z := [0; 0; 0; 0; 0; 0; 0; 0; 0; 0; 255; 255].

(** [IP.To4]: a 4-byte address as it is, the last four bytes of an
    IPv4-mapped 16-byte address, nil otherwise. *)
Definition To4 (ip : slice) : slice :=
  match ip with
  | None => None
  | Some l =>
      if bool_decide (length l = IPv4len) then Some l
      else if bool_decide (length l = IPv6len) && bool_decide (take 12 l = v4InV6Prefix)
      then Some (drop 12 l)
      else None
  end.

(** [IP.To16]: a 4-byte address in IPv4-mapped form, a 16-byte address as it
    is, nil otherwise. *)
Definition To16 (ip : slice) : slice :=
  match ip with
  | None => None
  | Some l =>
      if bool_decide (length l = IPv4len) then Some (v4InV6Prefix ++ l)
      else if bool_decide (length l = IPv6len) then Some l
      else None
  end.

Record IPNet : Type := { IP : slice; Mask : slice }.

End net.

(** Library functions config.go calls whose code is outside the repository:
    [json.Unmarshal] into a string, [net.ParseCIDR] (the returned error is only
    tested against nil, so failure is [None]), [net.ParseIP] (nil on failure)
    and [types.BytesToIPv4]. Everything below holds for any implementation. *)
Class GoLib : Type := {
  json_Unmarshal : string → outcome string;
  net_ParseCIDR : string → option (slice * net.IPNet);
  net_ParseIP : string → slice;
  BytesToIPv4 : Z → Z → Z → Z → IPv4Address;
}.

(** [copy(dst[:], src)] into a 16-byte array: the first [min 16 (len src)]
    bytes are overwritten, the others stay. *)
Definition copy16 (dst : IPv6Address) (src : slice) : IPv6Address :=
  fun_to_vec (λ i : fin 16, default (dst !!! i) (default [] src !! fin_to_nat i)).

(** ** convertIPv4 (config.go:256-262) *)

Definition convertIPv4 `{GoLib} (in_ : slice) : outcome IPv4Address :=
  if bool_decide (in_ = None) || bool_decide (4 < len in_)%nat
  then Fail (ErrNotIPv4 (len in_))
  else
    b3 ← index in_ 3;
    b2 ← index in_ 2;
    b1 ← index in_ 1;
    b0 ← index in_ 0;
    Done (BytesToIPv4 b3 b2 b1 b0).

(** ** Subnet descriptors (config.go:99-171, 264-335)

    The DHCP client state [ds] of both records has a type declared outside
    config.go and is touched by none of the functions below; it is left out. *)

Module ipv4Subnet.

Record t : Type := mk {
  Addr : IPv4Address;
  Mask : IPv4Address;
  addressAcquired : bool;
  kniAddressSet : bool;
}.

Definition checkAddrWithingSubnet (subnet : t) (addr : IPv4Address) : bool :=
  Z.land addr (Mask subnet) =? Z.land (Addr subnet) (Mask subnet).

(** The receiver [out] is updated in place; the first component is the
    receiver after the call. An assignment [out.Addr, err = convertIPv4(..)]
    stores the zero address when the call returns an error. *)
Definition UnmarshalJSON `{GoLib} (out : t) (b : string) : t * outcome unit :=
  match json_Unmarshal b with
  | Fail e => (out, Fail e)
  | Panic p => (out, Panic p)
  | Done s =>
      if String.eqb s "dhcp" then
        (mk 0 0 false (kniAddressSet out), Done tt)
      else
        match net_ParseCIDR s with
        | Some (ip, ipnet) =>
            match convertIPv4 (net.To4 ip) with
            | Panic p => (out, Panic p)
            | Fail e => (mk 0 (Mask out) (addressAcquired out) (kniAddressSet out), Fail e)
            | Done a =>
                match convertIPv4 (net.Mask ipnet) with
                | Panic p => (mk a (Mask out) (addressAcquired out) (kniAddressSet out), Panic p)
                | Fail e => (mk a 0 (addressAcquired out) (kniAddressSet out), Fail e)
                | Done m => (mk a m true (kniAddressSet out), Done tt)
                end
            end
        | None =>
            match net_ParseIP s with
            | Some ip =>
                match convertIPv4 (net.To4 (Some ip)) with
                | Panic p => (out, Panic p)
                | Fail e => (mk 0 (Mask out) (addressAcquired out) (kniAddressSet out), Fail e)
                | Done a => (mk a 0xffffffff true (kniAddressSet out), Done tt)
                end
            | None => (out, Fail (ErrParseAddress s))
            end
        end
  end.

End ipv4Subnet.

Module ipv6Subnet.

Record t : Type := mk {
  Addr : IPv6Address;
  multicastAddr : IPv6Address;
  Mask : IPv6Address;
  llAddr : IPv6Address;
  llMulticastAddr : IPv6Address;
  addressAcquired : bool;
  kniAddressSet : bool;
}.

Definition andMask (subnet : t) (addr : IPv6Address) : IPv6Address :=
  vzip_with Z.land addr (Mask subnet).

Definition checkAddrWithingSubnet (subnet : t) (addr : IPv6Address) : bool :=
  bool_decide (andMask subnet addr = andMask subnet (Addr subnet)).

Definition allOnes : IPv6Address := vreplicate 16 0xff.

Definition UnmarshalJSON `{GoLib} (out : t) (b : string) : t * outcome unit :=
  match json_Unmarshal b with
  | Fail e => (out, Fail e)
  | Panic p => (out, Panic p)
  | Done s =>
      if String.eqb s "dhcp" then
        (mk zeroIPv6Addr (multicastAddr out) zeroIPv6Addr (llAddr out)
            (llMulticastAddr out) false (kniAddressSet out), Done tt)
      else
        match net_ParseCIDR s with
        | Some (ip, ipnet) =>
            if bool_decide (net.To16 ip = None) then (out, Fail (ErrBadIPv6 s))
            else
              (mk (copy16 (Addr out) (net.To16 ip)) (multicastAddr out)
                  (copy16 (Mask out) (net.Mask ipnet)) (llAddr out)
                  (llMulticastAddr out) true (kniAddressSet out), Done tt)
        | None =>
            match net_ParseIP s with
            | Some ip =>
                if bool_decide (net.To16 (Some ip) = None) then (out, Fail (ErrBadIPv6 s))
                else
                  (mk (copy16 (Addr out) (net.To16 (Some ip))) (multicastAddr out)
                      allOnes (llAddr out)
                      (llMulticastAddr out) true (kniAddressSet out), Done tt)
            | None => (out, Fail (ErrParseAddress s))
            end
        end
  end.

End ipv6Subnet.

(** ** Timeouts (config.go:38-45) *)

Module time.
(** [time.Duration]: int64 nanoseconds. *)
Definition Nanosecond : Z := 1.
Definition Microsecond : Z := 1000 * Nanosecond.
Definition Millisecond : Z := 1000 * Microsecond.
Definition Second : Z := 1000 * Millisecond.
Definition Minute : Z := 60 * Second.
End time.

Definition int64 (z : Z) : Z := (z + 2 ^ 63) mod 2 ^ 64 - 2 ^ 63.

Definition connectionTimeout : Z := int64 (1 * time.Minute).
Definition portReuseTimeout : Z := int64 (1 * time.Second).
Definition portReuseSetLastusedTime : Z := int64 (portReuseTimeout - connectionTimeout).

(** ** Forwarding rules and interfaces (config.go:47-82, 173-222) *)

Module hostPort.
Record t : Type := mk {
  Addr4 : IPv4Address;
  Addr6 : IPv6Address;
  Port : Z;
  ipv6 : bool;
}.
End hostPort.

Module protocolId.
Record t : Type := mk { id : Z; ipv6 : bool }.
End protocolId.

Module forwardedPort.
Record t : Type := mk {
  Port : Z;
  Destination : hostPort.t;
  Protocol : protocolId.t;
}.
End forwardedPort.

Definition protocolIdLookup (s : string) : option protocolId.t :=
  if String.eqb s "TCP" then Some (protocolId.mk TCPNumber false)
  else if String.eqb s "UDP" then Some (protocolId.mk UDPNumber false)
  else if String.eqb s "TCP6" then Some (protocolId.mk TCPNumber true)
  else if String.eqb s "UDP6" then Some (protocolId.mk UDPNumber true)
  else None.

Definition protocolId_UnmarshalJSON `{GoLib} (out : protocolId.t) (b : string)
  : protocolId.t * outcome unit :=
  match json_Unmarshal b with
  | Fail e => (out, Fail e)
  | Panic p => (out, Panic p)
  | Done s =>
      match protocolIdLookup s with
      | None => (out, Fail (ErrBadProtocolName s))
      | Some result => (result, Done tt)
      end
  end.

(** Keys and values of the translation tables. [Tuple] and [Tuple6] are
    declared outside config.go; their fields are those of the composite
    literals at config.go:551-558 and 572-579. A [sync.Map] holds both kinds
    behind [interface{}]. *)
Module Tuple.
Record t : Type := mk { addr : IPv4Address; port : Z }.
End Tuple.

Module Tuple6.
Record t : Type := mk { addr : IPv6Address; port : Z }.
End Tuple6.

Inductive endpoint : Type :=
  | V4 (e : Tuple.t)
  | V6 (e : Tuple6.t).

#[global] Instance Tuple_eq_dec : EqDecision Tuple.t.
Proof. solve_decision. Defined.
#[global] Instance Tuple6_eq_dec : EqDecision Tuple6.t.
Proof. solve_decision. Defined.
#[global] Instance endpoint_eq_dec : EqDecision endpoint.
Proof. solve_decision. Defined.

#[global] Instance endpoint_countable : Countable endpoint :=
  inj_countable'
    (λ e, match e with
          | V4 t => inl (Tuple.addr t, Tuple.port t)
          | V6 t => inr (Tuple6.addr t, Tuple6.port t)
          end)
    (λ x, match x with
          | inl (a, p) => V4 (Tuple.mk a p)
          | inr (a, p) => V6 (Tuple6.mk a p)
          end)
    (λ e, match e with
          | V4 (Tuple.mk _ _) => eq_refl
          | V6 (Tuple6.mk _ _) => eq_refl
          end).

Abbreviation syncMap := (gmap endpoint endpoint) (only parsing).

Record portMapEntry : Type := {
  lastused : Z;
  finCount : Z;
  terminationDirection : Z;
  static : bool;
}.

Definition zeroPortMapEntry : portMapEntry :=
  {| lastused := 0; finCount := 0; terminationDirection := 0; static := false |}.

(** [interfaceType] is an int with two named values. *)
Definition iPUBLIC : Z := 0.
Definition iPRIVATE : Z := 1.

(** Which interface of a pair a pointer refers to, and a pointer to an
    interface: the index of its pair in [Natconfig.PortPairs] and its place in
    the pair. *)
Inductive member : Type := inPrivatePort | inPublicPort.

Record portRef : Type := { pairIndex : nat; side : member }.

#[global] Instance member_eq_dec : EqDecision member.
Proof. solve_decision. Defined.
#[global] Instance portRef_eq_dec : EqDecision portRef.
Proof. solve_decision. Defined.

(** [ipPort]. The field [Type] is spelled [Type_]. The ARP table and the
    dump files, which config.go only declares, are left out. *)
Record ipPort : Type := mkPort {
  Index : Z;
  Subnet : ipv4Subnet.t;
  Subnet6 : ipv6Subnet.t;
  Vlan : Z;
  KNIName : string;
  ForwardPorts : list forwardedPort.t;
  DstMACAddress : MACAddress;
  staticArpMode : bool;
  SrcMACAddress : MACAddress;
  Type_ : Z;
  opposite : option portRef;              (* nil until ReadConfig sets it *)
  portmap : list (list portMapEntry);
  portmap6 : list (list portMapEntry);
  translationTable : list syncMap;
}.

Record portPair : Type := mkPair {
  PrivatePort : ipPort;
  PublicPort : ipPort;
  lastport : Z;
}.

Record Config : Type := mkConfig {
  HostName : string;
  PortPairs : list portPair;
  setKniIP : bool;
  bringUpKniInterfaces : bool;
}.

(** Field updates. *)
Definition with_Type (v : Z) (p : ipPort) : ipPort :=
  mkPort (Index p) (Subnet p) (Subnet6 p) (Vlan p) (KNIName p) (ForwardPorts p)
         (DstMACAddress p) (staticArpMode p) (SrcMACAddress p) v (opposite p)
         (portmap p) (portmap6 p) (translationTable p).

Definition with_opposite (v : option portRef) (p : ipPort) : ipPort :=
  mkPort (Index p) (Subnet p) (Subnet6 p) (Vlan p) (KNIName p) (ForwardPorts p)
         (DstMACAddress p) (staticArpMode p) (SrcMACAddress p) (Type_ p) v
         (portmap p) (portmap6 p) (translationTable p).

Definition with_staticArpMode (v : bool) (p : ipPort) : ipPort :=
  mkPort (Index p) (Subnet p) (Subnet6 p) (Vlan p) (KNIName p) (ForwardPorts p)
         (DstMACAddress p) v (SrcMACAddress p) (Type_ p) (opposite p)
         (portmap p) (portmap6 p) (translationTable p).

Definition with_ForwardPorts (v : list forwardedPort.t) (p : ipPort) : ipPort :=
  mkPort (Index p) (Subnet p) (Subnet6 p) (Vlan p) (KNIName p) v
         (DstMACAddress p) (staticArpMode p) (SrcMACAddress p) (Type_ p) (opposite p)
         (portmap p) (portmap6 p) (translationTable p).

Definition with_portmap (v : list (list portMapEntry)) (p : ipPort) : ipPort :=
  mkPort (Index p) (Subnet p) (Subnet6 p) (Vlan p) (KNIName p) (ForwardPorts p)
         (DstMACAddress p) (staticArpMode p) (SrcMACAddress p) (Type_ p) (opposite p)
         v (portmap6 p) (translationTable p).

Definition with_portmap6 (v : list (list portMapEntry)) (p : ipPort) : ipPort :=
  mkPort (Index p) (Subnet p) (Subnet6 p) (Vlan p) (KNIName p) (ForwardPorts p)
         (DstMACAddress p) (staticArpMode p) (SrcMACAddress p) (Type_ p) (opposite p)
         (portmap p) v (translationTable p).

Definition with_translationTable (v : list syncMap) (p : ipPort) : ipPort :=
  mkPort (Index p) (Subnet p) (Subnet6 p) (Vlan p) (KNIName p) (ForwardPorts p)
         (DstMACAddress p) (staticArpMode p) (SrcMACAddress p) (Type_ p) (opposite p)
         (portmap p) (portmap6 p) v.

Definition with_DestinationPort (v : Z) (f : forwardedPort.t) : forwardedPort.t :=
  let d := forwardedPort.Destination f in
  forwardedPort.mk (forwardedPort.Port f)
    (hostPort.mk (hostPort.Addr4 d) (hostPort.Addr6 d) v (hostPort.ipv6 d))
    (forwardedPort.Protocol f).

Definition select (m : member) (pp : portPair) : ipPort :=
  match m with
  | inPrivatePort => PrivatePort pp
  | inPublicPort => PublicPort pp
  end.

Definition update (m : member) (p : ipPort) (pp : portPair) : portPair :=
  match m with
  | inPrivatePort => mkPair p (PublicPort pp) (lastport pp)
  | inPublicPort => mkPair (PrivatePort pp) p (lastport pp)
  end.

(** ** The store and the monad of package-level code

    [Natconfig], [NeedKNI] and [NeedDHCP] are the package variables config.go
    writes; [clock] is the instant [time.Now] reads. The store holds one
    reading: the properties below say nothing about how the readings of
    different calls relate. *)
Record World : Type := mkWorld {
  Natconfig : Config;
  NeedKNI : bool;
  NeedDHCP : bool;
  clock : Z;
}.

(** What the rest of the program supplies: opening and decoding the
    configuration file ([os.Open], [json.Decoder.Decode]) and the constant
    [portEnd] of package nat, declared outside config.go. *)
Class Environment : Type := {
  os_Open : string → outcome string;
  json_Decode : string → outcome Config;
  portEnd : nat;
}.

Definition M (A : Type) : Type := World → World * outcome A.

#[global] Instance M_ret : MRet M := λ A a w, (w, Done a).
#[global] Instance M_bind : MBind M := λ A B f m w,
  match m w with
  | (w', Done a) => f a w'
  | (w', Fail e) => (w', Fail e)
  | (w', Panic p) => (w', Panic p)
  end.

Definition fail {A} (e : error) : M A := λ w, (w, Fail e).
Definition crash {A} (p : panic) : M A := λ w, (w, Panic p).
Definition lift {A} (r : outcome A) : M A := λ w, (w, r).
Definition gets {A} (f : World → A) : M A := λ w, (w, Done (f w)).
Definition modify (f : World → World) : M unit := λ w, (f w, Done tt).
Definition when (b : bool) (m : M unit) : M unit := if b then m else mret tt.

Definition with_Natconfig (c : Config) (w : World) : World :=
  mkWorld c (NeedKNI w) (NeedDHCP w) (clock w).
Definition with_NeedKNI (b : bool) (w : World) : World :=
  mkWorld (Natconfig w) b (NeedDHCP w) (clock w).
Definition with_NeedDHCP (b : bool) (w : World) : World :=
  mkWorld (Natconfig w) (NeedKNI w) b (clock w).
Definition with_PortPairs (l : list portPair) (c : Config) : Config :=
  mkConfig (HostName c) l (setKniIP c) (bringUpKniInterfaces c).

(** Reads and writes through pointers. *)
Definition getPort (r : portRef) (w : World) : option ipPort :=
  select (side r) <$> PortPairs (Natconfig w) !! pairIndex r.

Definition setPort (r : portRef) (p : ipPort) (w : World) : World :=
  with_Natconfig
    (with_PortPairs (alter (update (side r) p) (pairIndex r) (PortPairs (Natconfig w)))
                    (Natconfig w)) w.

Definition loadPort (r : portRef) : M ipPort := λ w,
  match getPort r w with
  | Some p => (w, Done p)
  | None => (w, Panic (IndexOutOfRange (pairIndex r) (length (PortPairs (Natconfig w)))))
  end.

Definition storePort (r : portRef) (p : ipPort) : M unit :=
  _ ← loadPort r; modify (setPort r p).

Definition modifyPort (r : portRef) (f : ipPort → ipPort) : M unit :=
  p ← loadPort r; modify (setPort r (f p)).

Definition deref (o : option portRef) : M portRef :=
  match o with
  | Some r => mret r
  | None => crash NilDereference
  end.

(** A pointer [&port.ForwardPorts[fpi]]. *)
Record fpRef : Type := { ofPort : portRef; ruleIndex : nat }.

Definition loadFP (r : fpRef) : M forwardedPort.t :=
  p ← loadPort (ofPort r);
  match ForwardPorts p !! ruleIndex r with
  | Some f => mret f
  | None => crash (IndexOutOfRange (ruleIndex r) (length (ForwardPorts p)))
  end.

Definition storeFP (r : fpRef) (f : forwardedPort.t) : M unit :=
  _ ← loadFP r;
  modifyPort (ofPort r) (λ p, with_ForwardPorts (<[ruleIndex r := f]> (ForwardPorts p)) p).

(** [for i := range s { body }] over the indices [start, start + count). *)
Fixpoint forRangeFrom (start count : nat) (body : nat → M unit) : M unit :=
  match count with
  | O => mret tt
  | S c => body start;; forRangeFrom (S start) c body
  end.

Definition forRange (n : nat) (body : nat → M unit) : M unit := forRangeFrom 0 n body.

(** A counted loop that carries a local variable from one iteration to the next. *)
Fixpoint forCount {X} (n : nat) (body : X → M X) (x : X) : M X :=
  match n with
  | O => mret x
  | S n' => x' ← body x; forCount n' body x'
  end.

(** ** checkPortForwarding (config.go:455-505) *)

Definition isAddrZero (f : forwardedPort.t) : bool :=
  let d := forwardedPort.Destination f in
  if hostPort.ipv6 d
  then bool_decide (hostPort.Addr6 d = zeroIPv6Addr)
  else hostPort.Addr4 d =? 0.

Definition checkPortForwarding (port : portRef) (fp : fpRef) : M unit :=
  f ← loadFP fp;
  let d := forwardedPort.Destination f in
  if negb (eqb (hostPort.ipv6 d) (protocolId.ipv6 (forwardedPort.Protocol f)))
  then fail ErrProtocolFamily
  else
    p ← loadPort port;
    if isAddrZero f then
      if String.eqb (KNIName p) "" then fail (ErrKNINameMissing (Index p))
      else if negb (hostPort.Port d =? forwardedPort.Port f)
      then fail (ErrKNIPortMismatch (forwardedPort.Port f) (hostPort.Port d))
      else modify (with_NeedKNI true)
    else
      if Type_ p =? iPRIVATE then fail ErrPrivateForwarding
      else
        opp ← deref (opposite p);
        o ← loadPort opp;
        (if hostPort.ipv6 d then
           if negb (ipv6Subnet.checkAddrWithingSubnet (Subnet6 o) (hostPort.Addr6 d))
           then fail (ErrOutsideSubnet6 (hostPort.Addr6 d)
                        (ipv6Subnet.Addr (Subnet6 o)) (ipv6Subnet.Mask (Subnet6 o)))
           else mret tt
         else
           if negb (ipv4Subnet.checkAddrWithingSubnet (Subnet o) (hostPort.Addr4 d))
           then fail (ErrOutsideSubnet4 (hostPort.Addr4 d)
                        (ipv4Subnet.Addr (Subnet o)) (ipv4Subnet.Mask (Subnet o)))
           else mret tt);;
        when (hostPort.Port d =? 0) (storeFP fp (with_DestinationPort (forwardedPort.Port f) f)).

(** ** ReadConfig (config.go:378-453)

    The console message of line 445 is not modelled. *)

(** Lines 425-448: one iteration of the loop over the two interfaces of a
    pair. [port] is the loop's local pointer; the iteration ends by pointing
    it at the public interface. *)
Definition ReadConfig_port (i : nat) (port : portRef) : M portRef :=
  p ← loadPort port;
  when (negb (ipv4Subnet.addressAcquired (Subnet p)))
       (hostName ← gets (λ w, HostName (Natconfig w));
        if String.eqb hostName "" then fail (ErrDHCPHostName (Index p))
        else modify (with_NeedDHCP true));;
  when (negb (String.eqb (KNIName p) "")) (modify (with_NeedKNI true));;
  forRange (length (ForwardPorts p))
           (λ fpi, checkPortForwarding port {| ofPort := port; ruleIndex := fpi |});;
  p' ← loadPort port;
  when (negb (bool_decide (DstMACAddress p' = zeroMACAddress)))
       (modifyPort port (with_staticArpMode true));;
  mret {| pairIndex := i; side := inPublicPort |}.

(** Lines 398-449: the body of the loop over the pairs. *)
Definition ReadConfig_pair (i : nat) : M unit :=
  let private := {| pairIndex := i; side := inPrivatePort |} in
  let public := {| pairIndex := i; side := inPublicPort |} in
  modifyPort private (with_Type iPRIVATE);;
  modifyPort public (with_Type iPUBLIC);;
  modifyPort public (with_opposite (Some private));;
  modifyPort private (with_opposite (Some public));;
  priv ← loadPort private;
  pub ← loadPort public;
  (if (Vlan priv =? 0) && negb (Vlan pub =? 0)
   then fail (ErrVlanPrivateZero (Index priv) (Index pub))
   else if negb (Vlan priv =? 0) && (Vlan pub =? 0)
   then fail (ErrVlanPublicZero (Index priv) (Index pub))
   else mret tt);;
  (if (negb (Vlan priv =? 0) && negb (String.eqb (KNIName priv) ""))
      || (negb (Vlan priv =? 0) && negb (String.eqb (KNIName priv) ""))
   then fail ErrVlanKNI
   else mret tt);;
  _ ← forCount 2 (ReadConfig_port i) private;
  mret tt.

Definition ReadConfig `{Environment} (fileName : string)
    (setKniIP_ bringUpKniInterfaces_ : bool) : M unit :=
  file ← lift (os_Open fileName);
  decoded ← lift (json_Decode file);
  modify (with_Natconfig decoded);;
  when setKniIP_
       (modify (λ w, with_Natconfig
                       (mkConfig (HostName (Natconfig w)) (PortPairs (Natconfig w))
                                 true (bringUpKniInterfaces (Natconfig w))) w));;
  when bringUpKniInterfaces_
       (modify (λ w, with_Natconfig
                       (mkConfig (HostName (Natconfig w)) (PortPairs (Natconfig w))
                                 (setKniIP (Natconfig w)) true) w));;
  n ← gets (λ w, length (PortPairs (Natconfig w)));
  forRange n ReadConfig_pair.

(** ** Table allocation and static forwarding entries (config.go:524-601) *)

Definition allocatePublicPortPortMap `{Environment} (port : portRef) : M unit :=
  let slots := replicate portEnd zeroPortMapEntry in
  modifyPort port (with_portmap
    (<[Z.to_nat UDPNumber := slots]>
       (<[Z.to_nat TCPNumber := slots]>
          (<[Z.to_nat ICMPNumber := slots]> (replicate 256 [])))));;
  modifyPort port (with_portmap6
    (<[Z.to_nat ICMPv6Number := slots]>
       (<[Z.to_nat UDPNumber := slots]>
          (<[Z.to_nat TCPNumber := slots]> (replicate 256 []))))).

Definition allocateLookupMap (port : portRef) : M unit :=
  modifyPort port (with_translationTable (replicate 256 ∅)).

Definition getPortmap (p : ipPort) (ipv6 : bool) (protocol : Z)
  : outcome (list portMapEntry) :=
  let table := if ipv6 then portmap6 p else portmap p in
  match table !! Z.to_nat protocol with
  | Some slots => Done slots
  | None => Panic (IndexOutOfRange (Z.to_nat protocol) (length table))
  end.

(** [port.translationTable[protocol].Store(key, value)]. *)
Definition tableStore (port : portRef) (protocol : Z) (key value : endpoint) : M unit :=
  p ← loadPort port;
  match translationTable p !! Z.to_nat protocol with
  | Some t =>
      modify (setPort port
                (with_translationTable
                   (<[Z.to_nat protocol := <[key := value]> t]> (translationTable p)) p))
  | None => crash (IndexOutOfRange (Z.to_nat protocol) (length (translationTable p)))
  end.

(** [port.getPortmap(ipv6, protocol)[slot] = entry]. *)
Definition portmapStore (port : portRef) (ipv6 : bool) (protocol : Z) (slot : Z)
    (entry : portMapEntry) : M unit :=
  p ← loadPort port;
  slots ← lift (getPortmap p ipv6 protocol);
  match slots !! Z.to_nat slot with
  | Some _ =>
      let slots' := <[Z.to_nat slot := entry]> slots in
      modify (setPort port
                (if ipv6
                 then with_portmap6 (<[Z.to_nat protocol := slots']> (portmap6 p)) p
                 else with_portmap (<[Z.to_nat protocol := slots']> (portmap p)) p))
  | None => crash (IndexOutOfRange (Z.to_nat slot) (length slots))
  end.

Definition staticEntry (now : Z) : portMapEntry :=
  {| lastused := now; finCount := 0; terminationDirection := 0; static := true |}.

Definition enableStaticPortForward (port : portRef) (fp : fpRef) : M unit :=
  f ← loadFP fp;
  p ← loadPort port;
  let d := forwardedPort.Destination f in
  let proto := forwardedPort.Protocol f in
  if protocolId.ipv6 proto then
    let keyEntry := V6 (Tuple6.mk (ipv6Subnet.Addr (Subnet6 p)) (forwardedPort.Port f)) in
    let valEntry := V6 (Tuple6.mk (hostPort.Addr6 d) (hostPort.Port d)) in
    tableStore port (protocolId.id proto) keyEntry valEntry;;
    when (negb (bool_decide (hostPort.Addr6 d = zeroIPv6Addr)))
         (opp ← deref (opposite p);
          tableStore opp (protocolId.id proto) valEntry keyEntry);;
    when (Type_ p =? iPUBLIC)
         (now ← gets clock;
          portmapStore port (protocolId.ipv6 proto) (protocolId.id proto)
                       (forwardedPort.Port f) (staticEntry now))
  else
    let keyEntry := V4 (Tuple.mk (ipv4Subnet.Addr (Subnet p)) (forwardedPort.Port f)) in
    let valEntry := V4 (Tuple.mk (hostPort.Addr4 d) (hostPort.Port d)) in
    tableStore port (protocolId.id proto) keyEntry valEntry;;
    when (negb (hostPort.Addr4 d =? 0))
         (opp ← deref (opposite p);
          tableStore opp (protocolId.id proto) valEntry keyEntry);;
    when (Type_ p =? iPUBLIC)
         (now ← gets clock;
          portmapStore port (protocolId.ipv6 proto) (protocolId.id proto)
                       (forwardedPort.Port f) (staticEntry now)).

Definition initPortPortForwardingEntries (port : portRef) : M unit :=
  p ← loadPort port;
  forRange (length (ForwardPorts p))
           (λ i, enableStaticPortForward port {| ofPort := port; ruleIndex := i |}).

(** Lines 612-617 of [InitFlows]: the tables of pair [i] are allocated and
    the static entries of both interfaces installed. The MAC and link-local
    address set-up before it and the wiring of the packet flows after it
    belong to the flow library. *)
Definition InitFlows_tables `{Environment} (i : nat) : M unit :=
  let private := {| pairIndex := i; side := inPrivatePort |} in
  let public := {| pairIndex := i; side := inPublicPort |} in
  allocateLookupMap private;;
  allocateLookupMap public;;
  allocatePublicPortPortMap public;;
  initPortPortForwardingEntries private;;
  initPortPortForwardingEntries public.

(** ** The load as a function on values

    The same checks as [checkPortForwarding] and [ReadConfig], in the same
    order, on the values the pointers refer to: [p] is the interface a rule
    belongs to, [o] the opposite interface of its pair. The properties section
    proves that the stateful functions above compute exactly these. *)

Definition result (r : option error) : outcome unit :=
  match r with
  | Some e => Fail e
  | None => Done tt
  end.

Definition other (m : member) : member :=
  match m with
  | inPrivatePort => inPublicPort
  | inPublicPort => inPrivatePort
  end.

(** The error a rule is rejected with, if any. *)
Definition ruleVerdict (p o : ipPort) (f : forwardedPort.t) : option error :=
  let d := forwardedPort.Destination f in
  if negb (eqb (hostPort.ipv6 d) (protocolId.ipv6 (forwardedPort.Protocol f)))
  then Some ErrProtocolFamily
  else if isAddrZero f then
    if String.eqb (KNIName p) "" then Some (ErrKNINameMissing (Index p))
    else if negb (hostPort.Port d =? forwardedPort.Port f)
    then Some (ErrKNIPortMismatch (forwardedPort.Port f) (hostPort.Port d))
    else None
  else if Type_ p =? iPRIVATE then Some ErrPrivateForwarding
  else if hostPort.ipv6 d then
    if negb (ipv6Subnet.checkAddrWithingSubnet (Subnet6 o) (hostPort.Addr6 d))
    then Some (ErrOutsideSubnet6 (hostPort.Addr6 d)
                 (ipv6Subnet.Addr (Subnet6 o)) (ipv6Subnet.Mask (Subnet6 o)))
    else None
  else
    if negb (ipv4Subnet.checkAddrWithingSubnet (Subnet o) (hostPort.Addr4 d))
    then Some (ErrOutsideSubnet4 (hostPort.Addr4 d)
                 (ipv4Subnet.Addr (Subnet o)) (ipv4Subnet.Mask (Subnet o)))
    else None.

(** An accepted rule as validation leaves it. *)
Definition ruleAccepted (f : forwardedPort.t) : forwardedPort.t :=
  if isAddrZero f then f
  else if hostPort.Port (forwardedPort.Destination f) =? 0
  then with_DestinationPort (forwardedPort.Port f) f
  else f.

Definition ruleNeedKNI (f : forwardedPort.t) (kni : bool) : bool :=
  if isAddrZero f then true else kni.

(** The loop over the rules: the rules as the loop leaves them, [NeedKNI], and
    the error of the first rejected rule. *)
Fixpoint checkRules (p o : ipPort) (fs : list forwardedPort.t) (kni : bool)
  : list forwardedPort.t * bool * option error :=
  match fs with
  | [] => ([], kni, None)
  | f :: rest =>
      match ruleVerdict p o f with
      | Some e => (f :: rest, kni, Some e)
      | None =>
          let '(rest', kni', r) := checkRules p o rest (ruleNeedKNI f kni) in
          (ruleAccepted f :: rest', kni', r)
      end
  end.

(** One iteration of the loop over the two interfaces. *)
Definition checkPort (hostName : string) (p o : ipPort) (kni dhcp : bool)
  : ipPort * bool * bool * option error :=
  if negb (ipv4Subnet.addressAcquired (Subnet p)) && String.eqb hostName ""
  then (p, kni, dhcp, Some (ErrDHCPHostName (Index p)))
  else
    let dhcp1 := if negb (ipv4Subnet.addressAcquired (Subnet p)) then true else dhcp in
    let kni1 := if negb (String.eqb (KNIName p) "") then true else kni in
    let '(fs', kni2, r) := checkRules p o (ForwardPorts p) kni1 in
    let p1 := with_ForwardPorts fs' p in
    match r with
    | Some e => (p1, kni2, dhcp1, Some e)
    | None =>
        (if negb (bool_decide (DstMACAddress p = zeroMACAddress))
         then with_staticArpMode true p1 else p1, kni2, dhcp1, None)
    end.

(** The two checks on the VLAN tags of a pair. *)
Definition vlanVerdict (priv pub : ipPort) : option error :=
  if (Vlan priv =? 0) && negb (Vlan pub =? 0)
  then Some (ErrVlanPrivateZero (Index priv) (Index pub))
  else if negb (Vlan priv =? 0) && (Vlan pub =? 0)
  then Some (ErrVlanPublicZero (Index priv) (Index pub))
  else None.

Definition vlanKNIVerdict (priv pub : ipPort) : option error :=
  if (negb (Vlan priv =? 0) && negb (String.eqb (KNIName priv) ""))
     || (negb (Vlan priv =? 0) && negb (String.eqb (KNIName priv) ""))
  then Some ErrVlanKNI
  else None.

(** The interfaces of pair [i] once their types and back-references are set. *)
Definition linkPair (i : nat) (pp : portPair) : portPair :=
  mkPair
    (with_opposite (Some {| pairIndex := i; side := inPublicPort |})
                   (with_Type iPRIVATE (PrivatePort pp)))
    (with_opposite (Some {| pairIndex := i; side := inPrivatePort |})
                   (with_Type iPUBLIC (PublicPort pp)))
    (lastport pp).

(** The body of the loop over the pairs. *)
Definition checkPair (hostName : string) (i : nat) (pp : portPair) (kni dhcp : bool)
  : portPair * bool * bool * option error :=
  let pp1 := linkPair i pp in
  match vlanVerdict (PrivatePort pp1) (PublicPort pp1) with
  | Some e => (pp1, kni, dhcp, Some e)
  | None =>
      match vlanKNIVerdict (PrivatePort pp1) (PublicPort pp1) with
      | Some e => (pp1, kni, dhcp, Some e)
      | None =>
          let '(priv', kni1, dhcp1, r1) :=
            checkPort hostName (PrivatePort pp1) (PublicPort pp1) kni dhcp in
          match r1 with
          | Some e => (mkPair priv' (PublicPort pp1) (lastport pp1), kni1, dhcp1, Some e)
          | None =>
              let '(pub', kni2, dhcp2, r2) :=
                checkPort hostName (PublicPort pp1) priv' kni1 dhcp1 in
              (mkPair priv' pub' (lastport pp1), kni2, dhcp2, r2)
          end
      end
  end.

(** The loop over the pairs, from index [i] on. *)
Fixpoint checkPairs (hostName : string) (i : nat) (pps : list portPair) (kni dhcp : bool)
  : list portPair * bool * bool * option error :=
  match pps with
  | [] => ([], kni, dhcp, None)
  | pp :: rest =>
      let '(pp', kni1, dhcp1, r) := checkPair hostName i pp kni dhcp in
      match r with
      | Some e => (pp' :: rest, kni1, dhcp1, Some e)
      | None =>
          let '(rest', kni2, dhcp2, r') := checkPairs hostName (S i) rest kni1 dhcp1 in
          (pp' :: rest', kni2, dhcp2, r')
      end
  end.

(** [ReadConfig]'s view of the decoded configuration: the two flags are set
    on request. *)
Definition loaded (decoded : Config) (setKniIP_ bringUpKniInterfaces_ : bool) : Config :=
  mkConfig (HostName decoded) (PortPairs decoded)
           (if setKniIP_ then true else setKniIP decoded)
           (if bringUpKniInterfaces_ then true else bringUpKniInterfaces decoded).

(** The verdicts of all checks of a load, in the order the load performs
    them: for every pair the two VLAN checks, then for the private and for the
    public interface the DHCP check followed by the rules. *)
Definition dhcpVerdict (hostName : string) (p : ipPort) : option error :=
  if negb (ipv4Subnet.addressAcquired (Subnet p)) && String.eqb hostName ""
  then Some (ErrDHCPHostName (Index p))
  else None.

Definition portChecks (hostName : string) (p o : ipPort) : list (option error) :=
  dhcpVerdict hostName p :: map (ruleVerdict p o) (ForwardPorts p).

Definition pairChecks (hostName : string) (i : nat) (pp : portPair) : list (option error) :=
  let pp1 := linkPair i pp in
  [vlanVerdict (PrivatePort pp1) (PublicPort pp1);
   vlanKNIVerdict (PrivatePort pp1) (PublicPort pp1)]
  ++ portChecks hostName (PrivatePort pp1) (PublicPort pp1)
  ++ portChecks hostName (PublicPort pp1) (PrivatePort pp1).

Fixpoint loadChecksFrom (hostName : string) (i : nat) (pps : list portPair)
  : list (option error) :=
  match pps with
  | [] => []
  | pp :: rest => pairChecks hostName i pp ++ loadChecksFrom hostName (S i) rest
  end.

Definition loadChecks (hostName : string) (pps : list portPair) : list (option error) :=
  loadChecksFrom hostName 0 pps.

Fixpoint firstError (vs : list (option error)) : option error :=
  match vs with
  | [] => None
  | Some e :: _ => Some e
  | None :: rest => firstError rest
  end.

(** Exactly one of the two interfaces of a pair carries a VLAN tag. *)
Definition vlanAsymmetric (pp : portPair) : Prop :=
  (Vlan (PrivatePort pp) = 0 ∧ Vlan (PublicPort pp) ≠ 0)
  ∨ (Vlan (PrivatePort pp) ≠ 0 ∧ Vlan (PublicPort pp) = 0).

Definition isVlanError (e : error) : bool :=
  match e with
  | ErrVlanPrivateZero _ _ | ErrVlanPublicZero _ _ => true
  | _ => false
  end.

(** The type [ReadConfig] gives the interface at a place of a pair. *)
Definition sideType (s : member) : Z :=
  match s with
  | inPrivatePort => iPRIVATE
  | inPublicPort => iPUBLIC
  end.

(** Containment of the destination of [f] in the subnet of [o] that matches
    the family of the destination. *)
Definition destinationWithin (o : ipPort) (f : forwardedPort.t) : bool :=
  let d := forwardedPort.Destination f in
  if hostPort.ipv6 d
  then ipv6Subnet.checkAddrWithingSubnet (Subnet6 o) (hostPort.Addr6 d)
  else ipv4Subnet.checkAddrWithingSubnet (Subnet o) (hostPort.Addr4 d).

(** The four ways a rule on an interface of type [type] and bridge-device
    name [kniName], with opposite interface [o], is at fault. *)
Definition rejected (type : Z) (kniName : string) (o : ipPort) (f : forwardedPort.t) : Prop :=
  hostPort.ipv6 (forwardedPort.Destination f) ≠ protocolId.ipv6 (forwardedPort.Protocol f)
  ∨ (type = iPRIVATE ∧ isAddrZero f = false)
  ∨ (isAddrZero f = false ∧ destinationWithin o f = false)
  ∨ (isAddrZero f = true ∧ kniName = ""%string).

(** The checks a load performs before it reaches the interface at place [s]
    of the pair [pp] at index [i]. *)
Definition checksBefore (hostName : string) (pps : list portPair) (i : nat)
    (pp : portPair) (s : member) : list (option error) :=
  let pp1 := linkPair i pp in
  loadChecks hostName (take i pps)
  ++ [vlanVerdict (PrivatePort pp1) (PublicPort pp1);
      vlanKNIVerdict (PrivatePort pp1) (PublicPort pp1)]
  ++ match s with
     | inPrivatePort => []
     | inPublicPort => portChecks hostName (PrivatePort pp1) (PublicPort pp1)
     end.

(** The error of the VLAN agreement check on a pair whose tags disagree. *)
Definition vlanError (pp : portPair) : error :=
  if Vlan (PrivatePort pp) =? 0
  then ErrVlanPrivateZero (Index (PrivatePort pp)) (Index (PublicPort pp))
  else ErrVlanPublicZero (Index (PrivatePort pp)) (Index (PublicPort pp)).

(** The translation-table entries of a rule [f] of interface [p]: the key and
    the value of the forward mapping, and whether the destination address of
    the rule's protocol family is non-zero. *)
Definition forwardKey (p : ipPort) (f : forwardedPort.t) : endpoint :=
  if protocolId.ipv6 (forwardedPort.Protocol f)
  then V6 (Tuple6.mk (ipv6Subnet.Addr (Subnet6 p)) (forwardedPort.Port f))
  else V4 (Tuple.mk (ipv4Subnet.Addr (Subnet p)) (forwardedPort.Port f)).

Definition forwardValue (f : forwardedPort.t) : endpoint :=
  let d := forwardedPort.Destination f in
  if protocolId.ipv6 (forwardedPort.Protocol f)
  then V6 (Tuple6.mk (hostPort.Addr6 d) (hostPort.Port d))
  else V4 (Tuple.mk (hostPort.Addr4 d) (hostPort.Port d)).

Definition destinationNonZero (f : forwardedPort.t) : bool :=
  let d := forwardedPort.Destination f in
  if protocolId.ipv6 (forwardedPort.Protocol f)
  then negb (bool_decide (hostPort.Addr6 d = zeroIPv6Addr))
  else negb (hostPort.Addr4 d =? 0).

(** A store whose pair at index [length pre] is [pp]. *)
Definition focus (cfg : Config) (clk : Z) (pre post : list portPair)
    (pp : portPair) (kni dhcp : bool) : World :=
  mkWorld (with_PortPairs (pre ++ pp :: post) cfg) kni dhcp clk.

(** ** Sample inputs *)

Definition dquote : Ascii.ascii := Ascii.ascii_of_nat 34.

(** The JSON text of a string without characters to escape. *)
Definition jsonString (s : string) : string := String dquote (s +:+ String dquote EmptyString).

Definition unquote (b : string) : outcome string :=
  match b with
  | String c rest =>
      if bool_decide (c = dquote) && bool_decide (2 ≤ String.length b)%nat
         && bool_decide (String.get (String.length rest - 1) rest = Some dquote)
      then Done (String.substring 0 (String.length rest - 1) rest)
      else Fail (ErrExternal "invalid character looking for beginning of value")
  | EmptyString => Fail (ErrExternal "unexpected end of JSON input")
  end.

Definition mapped (a b c d : Z) : list Z := net.v4InV6Prefix ++ [a; b; c; d].

Definition fd00_1 : list Z := [0xfd; 0; 0; 0; 0; 0; 0; 0; 0; 0; 0; 0; 0; 0; 0; 1].
Definition fd00_net : list Z := [0xfd; 0; 0; 0; 0; 0; 0; 0; 0; 0; 0; 0; 0; 0; 0; 0].
Definition mask64 : list Z := replicate 8 0xff ++ replicate 8 0.

(** The library on a handful of inputs: what [net.ParseCIDR] and [net.ParseIP]
    return for them, and [types.BytesToIPv4] with its first argument in the
    low byte. *)
Definition sampleLib : GoLib := {|
  json_Unmarshal := unquote;
  net_ParseCIDR := λ s,
    if String.eqb s "192.168.1.0/24" then
      Some (Some (mapped 192 168 1 0),
            {| net.IP := Some [192; 168; 1; 0]; net.Mask := Some [255; 255; 255; 0] |})
    else if String.eqb s "10.0.0.1/8" then
      Some (Some (mapped 10 0 0 1),
            {| net.IP := Some [10; 0; 0; 0]; net.Mask := Some [255; 0; 0; 0] |})
    else if String.eqb s "fd00::1/64" then
      Some (Some fd00_1, {| net.IP := Some fd00_net; net.Mask := Some mask64 |})
    else None;
  net_ParseIP := λ s,
    if String.eqb s "192.168.1.7" then Some (mapped 192 168 1 7)
    else if String.eqb s "fd00::1" then Some fd00_1
    else None;
  BytesToIPv4 := λ a b c d,
    Z.lor (Z.lor (Z.lor (Z.shiftl d 24) (Z.shiftl c 16)) (Z.shiftl b 8)) a;
|}.

Definition zeroSubnet4 : ipv4Subnet.t := ipv4Subnet.mk 0 0 false false.
Definition zeroSubnet6 : ipv6Subnet.t :=
  ipv6Subnet.mk zeroIPv6Addr zeroIPv6Addr zeroIPv6Addr zeroIPv6Addr zeroIPv6Addr false false.

(** Interfaces, rules and configuration files to run the load on. *)
Definition subnet_192_168_1 : ipv4Subnet.t := ipv4Subnet.mk 0xC0A80100 0xFFFFFF00 true false.
Definition subnet_10_0_0 : ipv4Subnet.t := ipv4Subnet.mk 0x0A000001 0xFF000000 true false.
Definition subnet_dhcp : ipv4Subnet.t := ipv4Subnet.mk 0 0 false false.

Definition tcp : protocolId.t := protocolId.mk TCPNumber false.
Definition tcp6 : protocolId.t := protocolId.mk TCPNumber true.

Definition rule4 (port addr dstPort : Z) (proto : protocolId.t) : forwardedPort.t :=
  forwardedPort.mk port (hostPort.mk addr (vreplicate 16 0) dstPort false) proto.

Definition decodedPort (index vlan : Z) (kniName : string) (subnet : ipv4Subnet.t)
    (rules : list forwardedPort.t) : ipPort :=
  mkPort index subnet
    (ipv6Subnet.mk (vreplicate 16 0) (vreplicate 16 0) (vreplicate 16 0) (vreplicate 16 0)
                   (vreplicate 16 0) false false)
    vlan kniName rules (vreplicate 6 0) false (vreplicate 6 0) 0 None [] [] [].

Definition onePair (hostName : string) (priv pub : ipPort) : Config :=
  mkConfig hostName [mkPair priv pub 0] false false.

(** An environment whose configuration file decodes to [cfg]. *)
Definition configFile (cfg : Config) : Environment :=
  {| os_Open := λ _, Done ""%string; json_Decode := λ _, Done cfg; portEnd := Z.to_nat 9000 |}.

Definition initialWorld : World := mkWorld (mkConfig "" [] false false) false false 0.

(** A public interface forwarding port 8080 to 192.168.1.7 in the private
    subnet, and the store after the load and the allocation of the tables. *)
Definition forwardingConfig : Config :=
  onePair "" (decodedPort 0 0 "" subnet_192_168_1 [])
             (decodedPort 1 0 "" subnet_10_0_0 [rule4 8080 0xC0A80107 0 tcp]).

Definition allocated (cfg : Config) : World :=
  let private := {| pairIndex := 0; side := inPrivatePort |} in
  let public := {| pairIndex := 0; side := inPublicPort |} in
  ((ReadConfig (H := configFile cfg) "nat.json" false false;;
    allocateLookupMap private;;
    allocateLookupMap public;;
    allocatePublicPortPortMap (H := configFile cfg) public) initialWorld).1.

(** The same with a rule decoded from JSON text that names no protocol: its
    [Protocol] is the zero value. *)
Definition noProtocolConfig : Config :=
  onePair "" (decodedPort 0 0 "" subnet_192_168_1 [])
             (decodedPort 1 0 "" subnet_10_0_0
                [rule4 8080 0xC0A80107 8080 (protocolId.mk 0 false)]).

(** A public interface whose rule points outside the private subnet
    (192.168.2.1 is not in 192.168.1.0/24). *)
Definition outsideRule : forwardedPort.t := rule4 8080 0xC0A80201 80 tcp.
Definition outsidePair : portPair :=
  mkPair (decodedPort 0 0 "" subnet_192_168_1 [])
         (decodedPort 1 0 "" subnet_10_0_0 [outsideRule]) 0.
Definition outsideConfig : Config := mkConfig "" [outsidePair] false false.

(** The rule of the specification's scenario, to the unspecified address. *)
Definition kniRule : forwardedPort.t := rule4 8080 0 8080 tcp.
Definition kniConfig (kniName : string) : Config :=
  onePair "" (decodedPort 0 0 "" subnet_192_168_1 [])
             (decodedPort 1 0 kniName subnet_10_0_0 [kniRule]).

(** A rule with a concrete destination and no destination port. *)
Definition defaultedRule : forwardedPort.t := rule4 8080 0xC0A80107 0 tcp.
Definition defaultedPair : portPair :=
  mkPair (decodedPort 0 0 "" subnet_192_168_1 [])
         (decodedPort 1 0 "" subnet_10_0_0 [defaultedRule]) 0.

(** Pairs with VLAN tags: private untagged and public tagged 7, and both
    tagged 7 with a bridge device on the public or on the private interface. *)
Definition asymmetricPair : portPair :=
  mkPair (decodedPort 0 0 "" subnet_192_168_1 []) (decodedPort 1 7 "" subnet_10_0_0 []) 0.
Definition asymmetricConfig : Config := mkConfig "" [asymmetricPair] false false.
Definition reversedConfig : Config :=
  onePair "" (decodedPort 0 7 "" subnet_192_168_1 []) (decodedPort 1 0 "" subnet_10_0_0 []).

Definition publicVlanKNI : Config :=
  onePair "" (decodedPort 0 7 "" subnet_192_168_1 [])
             (decodedPort 1 7 "kni0" subnet_10_0_0 []).
Definition privateVlanKNI : Config :=
  onePair "" (decodedPort 0 7 "kni0" subnet_192_168_1 [])
             (decodedPort 1 7 "" subnet_10_0_0 []).

(** A pair whose private interface waits for DHCP. *)
Definition dhcpPair : portPair :=
  mkPair (decodedPort 3 0 "" subnet_dhcp []) (decodedPort 4 0 "" subnet_10_0_0 []) 0.
Definition dhcpConfig (hostName : string) : Config := mkConfig hostName [dhcpPair] false false.

Definition firstPair (w : World) : portPair :=
  default (mkPair (decodedPort 0 0 "" subnet_dhcp []) (decodedPort 0 0 "" subnet_dhcp []) 0)
          (PortPairs (Natconfig w) !! 0%nat).

(** * Further functions of config.go *)

(** ** Text forms of the subnets and the destination parser
    (config.go:115-129, 146-159, 339-375) *)

(** Further library functions these call: [net.SplitHostPort] and
    [strconv.ParseInt] in base 10 with bit size 32 for the parser, and for
    the text forms [strconv.Itoa] and the [String] methods of the two address
    types. *)
Class GoText : Type := {
  net_SplitHostPort : string → outcome (string * string);
  strconv_ParseInt : string → outcome Z;
}.

Class GoPrint : Type := {
  strconv_Itoa : Z → string;
  IPv4Address_String : IPv4Address → string;
  IPv6Address_String : IPv6Address → string;
}.

(** The loop of [ipv4Subnet.String], entered with [n] iterations left before
    its guard [i <= 32] fails: the value of [i] when the loop is left. *)
Fixpoint ipv4Subnet_String_loop (n : nat) (i : Z) (mask : Z) (subnetMask : IPv4Address) : Z :=
  match n with
  | O => i
  | S n' =>
      if Z.land subnetMask mask =? 0 then i
      else ipv4Subnet_String_loop n' (i + 1) (Z.shiftr mask 1) subnetMask
  end.

Definition ipv4Subnet_String `{GoPrint} (subnet : ipv4Subnet.t) : string :=
  if ipv4Subnet.addressAcquired subnet then
    let i := ipv4Subnet_String_loop 33 0 (Z.shiftl 1 31) (ipv4Subnet.Mask subnet) in
    IPv4Address_String (ipv4Subnet.Addr subnet) +:+ "/" +:+ strconv_Itoa i
  else "DHCP address not acquired".

(** The loop of [ipv6Subnet.String], entered with [n] iterations left before
    its guard [i <= 128] fails. [subnet.Mask[i>>3]] is an indexing with
    bounds check. *)
Fixpoint ipv6Subnet_String_loop (n : nat) (i : Z) (subnetMask : IPv6Address) : outcome Z :=
  match n with
  | O => Done i
  | S n' =>
      let mask := Z.shiftl 1 (7 - Z.land i 7) in
      if i =? 128 then Done i
      else
        b ← index (Some (vec_to_list subnetMask)) (Z.to_nat (Z.shiftr i 3));
        if Z.land b mask =? 0 then Done i
        else ipv6Subnet_String_loop n' (i + 1) subnetMask
  end.

Definition ipv6Subnet_String `{GoPrint} (subnet : ipv6Subnet.t) : outcome string :=
  if ipv6Subnet.addressAcquired subnet then
    i ← ipv6Subnet_String_loop 129 0 (ipv6Subnet.Mask subnet);
    Done (IPv6Address_String (ipv6Subnet.Addr subnet) +:+ "/" +:+ strconv_Itoa i)
  else Done "DHCP address not acquired"%string.

(** [uint16(port)] of an int64. *)
Definition uint16 (z : Z) : Z := z mod 2 ^ 16.

Definition with_hostPort_Port (v : Z) (h : hostPort.t) : hostPort.t :=
  hostPort.mk (hostPort.Addr4 h) (hostPort.Addr6 h) v (hostPort.ipv6 h).

(** Lines 364-374 of [hostPort.UnmarshalJSON]: the port part. *)
Definition hostPort_parsePort `{GoText} (out : hostPort.t) (portStr : string)
  : hostPort.t * outcome unit :=
  if negb (String.eqb portStr "") then
    match strconv_ParseInt portStr with
    | Fail e => (out, Fail e)
    | Panic p => (out, Panic p)
    | Done port => (with_hostPort_Port (uint16 port) out, Done tt)
    end
  else (with_hostPort_Port 0 out, Done tt).

(** [hostPort.UnmarshalJSON]. The receiver is updated in place; the first
    component is the receiver after the call. The error of line 352 is
    carried as its message. *)
Definition hostPort_UnmarshalJSON `{GoLib} `{GoText} (out : hostPort.t) (b : string)
  : hostPort.t * outcome unit :=
  match json_Unmarshal b with
  | Fail e => (out, Fail e)
  | Panic p => (out, Panic p)
  | Done s =>
      match net_SplitHostPort s with
      | Fail e => (out, Fail e)
      | Panic p => (out, Panic p)
      | Done (hostStr, portStr) =>
          match net_ParseIP hostStr with
          | None => (out, Fail (ErrExternal ("Bad IP address specified: " +:+ hostStr)))
          | Some ipArray =>
              match convertIPv4 (net.To4 (Some ipArray)) with
              | Panic p => (out, Panic p)
              | Done a =>
                  hostPort_parsePort
                    (hostPort.mk a (hostPort.Addr6 out) (hostPort.Port out) (hostPort.ipv6 out))
                    portStr
              | Fail err =>
                  let out1 := hostPort.mk 0 (hostPort.Addr6 out) (hostPort.Port out)
                                          (hostPort.ipv6 out) in
                  match net.To16 (Some ipArray) with
                  | None => (out1, Fail err)
                  | Some ipv6addr =>
                      hostPort_parsePort
                        (hostPort.mk 0 (copy16 (hostPort.Addr6 out) (Some ipv6addr))
                                     (hostPort.Port out) true)
                        portStr
                  end
              end
          end
      end
  end.

(** ** Lookup of an interface by its index (config.go:707-718)

    The two pointers returned are the path of the interface and the index of
    its pair; [None] is the pair of nil pointers. *)
Fixpoint getPortAndPairByID_from (i : nat) (pps : list portPair) (portId : Z)
  : option (portRef * nat) :=
  match pps with
  | [] => None
  | pp :: rest =>
      if Index (PublicPort pp) =? portId
      then Some ({| pairIndex := i; side := inPublicPort |}, i)
      else if Index (PrivatePort pp) =? portId
      then Some ({| pairIndex := i; side := inPrivatePort |}, i)
      else getPortAndPairByID_from (S i) rest portId
  end.

Definition getPortAndPairByID (c : Config) (portId : Z) : option (portRef * nat) :=
  getPortAndPairByID_from 0 (PortPairs c) portId.

(** Bit [j] of a 16-byte mask, counted from the most significant bit of its
    first byte. *)
Definition maskBit6 (m : IPv6Address) (j : Z) : bool :=
  Z.testbit (default 0 (vec_to_list m !! Z.to_nat (Z.shiftr j 3))) (7 - Z.land j 7).

(** The 32-bit mask of an [n]-bit prefix. *)
Definition prefixMask4 (n : Z) : IPv4Address := Z.shiftl (Z.ones n) (32 - n).

(** The text library on a handful of inputs: [net.SplitHostPort] and
    [strconv.ParseInt] on the destinations and ports used below. *)
Definition sampleText : GoText := {|
  net_SplitHostPort := λ s,
    if String.eqb s "192.168.1.7:8080" then Done ("192.168.1.7", "8080")%string
    else if String.eqb s "192.168.1.7:65616" then Done ("192.168.1.7", "65616")%string
    else if String.eqb s "192.168.1.7:" then Done ("192.168.1.7", "")%string
    else if String.eqb s "[fd00::1]:80" then Done ("fd00::1", "80")%string
    else if String.eqb s "[fd00::1]:http" then Done ("fd00::1", "http")%string
    else Fail (ErrExternal "missing port in address");
  strconv_ParseInt := λ s,
    if String.eqb s "8080" then Done 8080
    else if String.eqb s "65616" then Done 65616
    else if String.eqb s "80" then Done 80
    else Fail (ErrExternal "invalid syntax");
|}.

Definition zeroHostPort : hostPort.t := hostPort.mk 0 zeroIPv6Addr 0 false.

(** The interface indices of a configuration, in the order the lookup tests
    them. *)
Definition portIndices (pps : list portPair) : list Z :=
  pps ≫= λ pp, [Index (PublicPort pp); Index (PrivatePort pp)].

(** The position in [portIndices] of the interface at place [s] of pair [j]. *)
Definition place (j : nat) (s : member) : nat :=
  match s with
  | inPublicPort => (2 * j)%nat
  | inPrivatePort => (2 * j + 1)%nat
  end.

(** ** The configuration a successful load leaves

    An interface after its iteration of the loop of [ReadConfig]: the
    defaulted rules, and static ARP mode set when a destination MAC address
    is configured. *)
Definition acceptedPort (p : ipPort) : ipPort :=
  let p1 := with_ForwardPorts (map ruleAccepted (ForwardPorts p)) p in
  if negb (bool_decide (DstMACAddress p = zeroMACAddress))
  then with_staticArpMode true p1 else p1.

Definition acceptedPair (i : nat) (pp : portPair) : portPair :=
  let pp1 := linkPair i pp in
  mkPair (acceptedPort (PrivatePort pp1)) (acceptedPort (PublicPort pp1)) (lastport pp).

Definition hasKNIName (p : ipPort) : bool := negb (String.eqb (KNIName p) "").

Definition awaitsDHCP (p : ipPort) : bool := negb (ipv4Subnet.addressAcquired (Subnet p)).

(** The fields of a rule and of an interface that validation never writes:
    everything but a rule's destination port and an interface's type,
    back-reference and static ARP mode. *)
Definition sameRule (f f' : forwardedPort.t) : Prop :=
  f' = with_DestinationPort (hostPort.Port (forwardedPort.Destination f')) f.

Definition samePort (p p' : ipPort) : Prop :=
  Index p' = Index p ∧ Subnet p' = Subnet p ∧ Subnet6 p' = Subnet6 p
  ∧ Vlan p' = Vlan p ∧ KNIName p' = KNIName p
  ∧ DstMACAddress p' = DstMACAddress p ∧ SrcMACAddress p' = SrcMACAddress p
  ∧ portmap p' = portmap p ∧ portmap6 p' = portmap6 p
  ∧ translationTable p' = translationTable p
  ∧ Forall2 sameRule (ForwardPorts p) (ForwardPorts p').

Definition samePair (pp pp' : portPair) : Prop :=
  samePort (PrivatePort pp) (PrivatePort pp') ∧ samePort (PublicPort pp) (PublicPort pp')
  ∧ lastport pp' = lastport pp.

(** A rule to the unspecified address whose destination port differs from
    its forwarded port. *)
Definition portMismatch (f : forwardedPort.t) : Prop :=
  isAddrZero f = true
  ∧ hostPort.Port (forwardedPort.Destination f) ≠ forwardedPort.Port f.

(** ** The installation of static entries as a function on values

    The same writes as [enableStaticPortForward],
    [initPortPortForwardingEntries] and [InitFlows_tables], in the
    same order, on the pair the pointers refer to. The properties section
    proves that the stateful functions compute exactly these in a store
    whose pair is linked and whose tables are allocated. *)

(** [p.translationTable[protocol].Store(key, value)]. *)
Definition storeEntry (protocol : Z) (key value : endpoint) (p : ipPort) : ipPort :=
  with_translationTable
    (alter (<[key := value]>) (Z.to_nat protocol) (translationTable p)) p.

(** The slot array [p.getPortmap(ipv6, protocol)] of a rule; nil when the
    protocol has none. *)
Definition slotRow (p : ipPort) (f : forwardedPort.t) : list portMapEntry :=
  default [] ((if protocolId.ipv6 (forwardedPort.Protocol f) then portmap6 p else portmap p)
              !! Z.to_nat (protocolId.id (forwardedPort.Protocol f))).

Definition hasSlot (p : ipPort) (f : forwardedPort.t) : bool :=
  bool_decide (Z.to_nat (forwardedPort.Port f) < length (slotRow p f))%nat.

(** [p.getPortmap(ipv6, protocol)[port] = portMapEntry{now, 0, 0, true}]. *)
Definition markStatic (now : Z) (f : forwardedPort.t) (p : ipPort) : ipPort :=
  let protocol := Z.to_nat (protocolId.id (forwardedPort.Protocol f)) in
  let mark := alter (<[Z.to_nat (forwardedPort.Port f) := staticEntry now]>) protocol in
  if protocolId.ipv6 (forwardedPort.Protocol f)
  then with_portmap6 (mark (portmap6 p)) p
  else with_portmap (mark (portmap p)) p.

(** The pair after the two [Store] calls for rule [f] of the interface at
    place [s]. *)
Definition storeRule (s : member) (f : forwardedPort.t) (pp : portPair) : portPair :=
  let p := select s pp in
  let protocol := protocolId.id (forwardedPort.Protocol f) in
  let pp1 := update s (storeEntry protocol (forwardKey p f) (forwardValue f) p) pp in
  if destinationNonZero f
  then update (other s)
         (storeEntry protocol (forwardValue f) (forwardKey p f) (select (other s) pp1)) pp1
  else pp1.

(** The pair after [enableStaticPortForward] has returned. *)
Definition installRule (now : Z) (s : member) (f : forwardedPort.t) (pp : portPair) : portPair :=
  let pp2 := storeRule s f pp in
  if Type_ (select s pp) =? iPUBLIC
  then update s (markStatic now f (select s pp2)) pp2
  else pp2.

(** The rule makes [enableStaticPortForward] index a slot array out of
    range. *)
Definition lacksSlot (s : member) (f : forwardedPort.t) (pp : portPair) : bool :=
  (Type_ (select s pp) =? iPUBLIC) && negb (hasSlot (select s pp) f).

(** The loop of [initPortPortForwardingEntries] over the rules [fs] of the
    interface at place [s]: the pair it leaves and the panic that ends it, if
    any. *)
Fixpoint installRules (now : Z) (s : member) (fs : list forwardedPort.t) (pp : portPair)
  : portPair * option panic :=
  match fs with
  | [] => (pp, None)
  | f :: rest =>
      if lacksSlot s f pp
      then (storeRule s f pp,
            Some (IndexOutOfRange (Z.to_nat (forwardedPort.Port f))
                                  (length (slotRow (select s pp) f))))
      else installRules now s rest (installRule now s f pp)
  end.

(** The pair after lines 612-614: fresh tables on both interfaces, fresh
    port maps on the public one. *)
Definition allocatePair `{Environment} (pp : portPair) : portPair :=
  let slots := replicate portEnd zeroPortMapEntry in
  mkPair
    (with_translationTable (replicate 256 ∅) (PrivatePort pp))
    (with_portmap6
       (<[Z.to_nat ICMPv6Number := slots]>
          (<[Z.to_nat UDPNumber := slots]>
             (<[Z.to_nat TCPNumber := slots]> (replicate 256 []))))
       (with_portmap
          (<[Z.to_nat UDPNumber := slots]>
             (<[Z.to_nat TCPNumber := slots]>
                (<[Z.to_nat ICMPNumber := slots]> (replicate 256 []))))
          (with_translationTable (replicate 256 ∅) (PublicPort pp))))
    (lastport pp).

(** [InitFlows_tables] on a pair: the allocations of lines 612-614, then the
    installation of the rules of the private and of the public interface
    (lines 616-617). *)
Definition initPair `{Environment} (now : Z) (pp : portPair) : portPair * option panic :=
  let pp0 := allocatePair pp in
  let '(pp1, r1) := installRules now inPrivatePort (ForwardPorts (PrivatePort pp0)) pp0 in
  match r1 with
  | Some p => (pp1, Some p)
  | None => installRules now inPublicPort (ForwardPorts (PublicPort pp1)) pp1
  end.

Definition crashed (r : option panic) : outcome unit :=
  match r with
  | Some p => Panic p
  | None => Done tt
  end.

(** A pair as [ReadConfig] links it: each interface typed by its place and
    pointing at the other one. *)
Definition linked (i : nat) (pp : portPair) : Prop :=
  ∀ s, opposite (select s pp) = Some {| pairIndex := i; side := other s |}
       ∧ Type_ (select s pp) = sideType s.

(** The protocol numbers of the rules of a pair are those of a uint8. *)
Definition protocolsInRange (pp : portPair) : Prop :=
  ∀ s f, f ∈ ForwardPorts (select s pp) →
         0 ≤ protocolId.id (forwardedPort.Protocol f) < 256.

(** The port map allocated for the protocol of a rule has the rule's port:
    the protocol is TCP or UDP, or the ICMP of the rule's family, and the port
    is below [portEnd]. *)
Definition slotAllocated `{Environment} (f : forwardedPort.t) : bool :=
  let protocol := protocolId.id (forwardedPort.Protocol f) in
  bool_decide (Z.to_nat (forwardedPort.Port f) < portEnd)%nat
  && ((protocol =? TCPNumber) || (protocol =? UDPNumber)
      || (if protocolId.ipv6 (forwardedPort.Protocol f)
          then protocol =? ICMPv6Number else protocol =? ICMPNumber)).

(** The entry for [key] in the table of interface [p] for [protocol]. *)
Definition tableLookup (p : ipPort) (protocol : Z) (key : endpoint) : option endpoint :=
  translationTable p !! Z.to_nat protocol ≫= λ t, t !! key.

(** Two rules of an interface compete for the same table entry and slot. *)
Definition sameSlot (f f' : forwardedPort.t) : Prop :=
  protocolId.id (forwardedPort.Protocol f') = protocolId.id (forwardedPort.Protocol f)
  ∧ protocolId.ipv6 (forwardedPort.Protocol f') = protocolId.ipv6 (forwardedPort.Protocol f)
  ∧ forwardedPort.Port f' = forwardedPort.Port f.

(** The tables [enableStaticPortForward] indexes by protocol number have
    their 256 entries. *)
Definition tablesReady (pp : portPair) : Prop :=
  (∀ s, length (translationTable (select s pp)) = 256%nat)
  ∧ length (portmap (PublicPort pp)) = 256%nat
  ∧ length (portmap6 (PublicPort pp)) = 256%nat.

(** What the installation of static entries leaves of a pair: the rules, the
    links, the subnets and the sizes of all tables and slot arrays. *)
Definition sameShape (pp pp' : portPair) : Prop :=
  ∀ s, ForwardPorts (select s pp') = ForwardPorts (select s pp)
       ∧ opposite (select s pp') = opposite (select s pp)
       ∧ Type_ (select s pp') = Type_ (select s pp)
       ∧ Subnet (select s pp') = Subnet (select s pp)
       ∧ Subnet6 (select s pp') = Subnet6 (select s pp)
       ∧ length (translationTable (select s pp')) = length (translationTable (select s pp))
       ∧ length (portmap (select s pp')) = length (portmap (select s pp))
       ∧ length (portmap6 (select s pp')) = length (portmap6 (select s pp))
       ∧ ∀ f, length (slotRow (select s pp') f) = length (slotRow (select s pp) f).

#[global] Instance sameSlot_dec (f f' : forwardedPort.t) : Decision (sameSlot f f').
Proof. unfold sameSlot. apply _. Defined.

(** The ports of the rules of the public interface are not negative. *)
Definition portsInRange (pp : portPair) : Prop :=
  ∀ f, f ∈ ForwardPorts (PublicPort pp) → 0 ≤ forwardedPort.Port f.

(** ** The table set-up of all pairs and the hardware check
    (config.go:604-617, 690-705)

    The loop of [InitFlows] over the pairs with the steps of its body that
    [InitFlows_tables] covers. The other statements of the body write
    fields that these steps do not read (the source MAC addresses, the
    link-local and multicast addresses, [lastport]) or call the flow library
    to wire the packet flows, and are left out. *)
Definition InitFlows_state `{Environment} : M unit :=
  n ← gets (λ w, length (PortPairs (Natconfig w)));
  forRange n InitFlows_tables.




(** Every rule of a configuration has a protocol number of a uint8. *)
Definition configInRange (c : Config) : Prop :=
  ∀ i pp, PortPairs c !! i = Some pp → protocolsInRange pp.

(** The loop of [InitFlows] over the pairs, on values: it stops at the
    first pair whose set-up panics. *)
Fixpoint initPairs `{Environment} (now : Z) (pps : list portPair)
  : list portPair * option panic :=
  match pps with
  | [] => ([], None)
  | pp :: rest =>
      let '(pp', r) := initPair now pp in
      match r with
      | Some p => (pp' :: rest, Some p)
      | None => let '(rest', r') := initPairs now rest in (pp' :: rest', r')
      end
  end.

(** Two rules of a public interface for the same protocol and port, to
    192.168.1.7:80 and to 192.168.1.9:81, and a store whose only pair is
    linked as the load links it, at time 5. *)
Definition competingPair : portPair :=
  mkPair (decodedPort 0 0 "" subnet_192_168_1 [])
         (decodedPort 1 0 "" subnet_10_0_0
            [rule4 8080 0xC0A80107 80 tcp; rule4 8080 0xC0A80109 81 tcp]) 0.

Definition linkedWorld (pp : portPair) : World :=
  mkWorld (mkConfig "" [linkPair 0 pp] false false) false false 5.

(** A rule for the first port that the port maps do not have. *)
Definition highPortConfig : Config :=
  onePair "" (decodedPort 0 0 "" subnet_192_168_1 [])
             (decodedPort 1 0 "" subnet_10_0_0 [rule4 9000 0xC0A80107 80 tcp]).

(** The configuration the load of [defaultedPair] leaves, and an environment
    with two files: one decodes to the pair as written, the other to the
    configuration after the load. *)
Definition acceptedConfig : Config := mkConfig "" [acceptedPair 0 defaultedPair] false false.

Definition twoFiles : Environment :=
  {| os_Open := λ name, Done name;
     json_Decode := λ file,
       if String.eqb file "accepted.json" then Done acceptedConfig
       else Done (mkConfig "" [defaultedPair] false false);
     portEnd := Z.to_nat 9000 |}.

(** An IPv4 address in the 16-byte form of the library, as an IPv6 address
    value, and an IPv6 subnet value whose mask is all ones. *)
Definition mapped6 (a b c d : Z) : IPv6Address := copy16 zeroIPv6Addr (Some (mapped a b c d)).

Definition onesSubnet6 : ipv6Subnet.t :=
  ipv6Subnet.mk zeroIPv6Addr zeroIPv6Addr ipv6Subnet.allOnes zeroIPv6Addr zeroIPv6Addr
                false false.

(** * Properties *)

(** ** Subnet containment *)

Lemma land_broadcast (a m : Z) :
  0 ≤ m < 2 ^ 32 → Z.land (Z.lor a (Z.lxor m 0xffffffff)) m = Z.land a m.
Proof.
  intros Hm. apply Z.bits_inj'. intros n Hn.
  rewrite !Z.land_spec, Z.lor_spec, Z.lxor_spec.
  destruct (Z.testbit m n) eqn:Hb; [| by rewrite !andb_false_r].
  rewrite !andb_true_r.
  assert (n < 32) as Hlt.
  { destruct (decide (n < 32)) as [|Hge]; [done|].
    rewrite Z.bits_above_log2 in Hb; [done | lia |].
    apply Z.log2_lt_pow2; [| apply Z.lt_le_trans with (2 ^ 32); [lia|]].
    - destruct (decide (m = 0)) as [->|]; [by rewrite Z.bits_0 in Hb | lia].
    - apply Z.pow_le_mono_r; lia. }
  replace 0xffffffff with (Z.ones 32) by reflexivity.
  rewrite Z.ones_spec_low by lia. simpl. by rewrite orb_false_r.
Qed.

Lemma land_network (a m : Z) : Z.land (Z.land a m) m = Z.land a m.
Proof. by rewrite <- Z.land_assoc, Z.land_diag. Qed.

(** C1: containment in a subnet is the comparison of the masked address with
    the masked base, for IPv4 on the 32-bit values and for IPv6 byte by byte;
    in particular the network address and the all-ones (broadcast) address of
    a subnet are always contained. *)
Theorem checkAddrWithingSubnet_masked :
  (∀ (s : ipv4Subnet.t) (a : IPv4Address),
     ipv4Subnet.checkAddrWithingSubnet s a = true ↔
     Z.land a (ipv4Subnet.Mask s) = Z.land (ipv4Subnet.Addr s) (ipv4Subnet.Mask s))
  ∧ (∀ (s : ipv6Subnet.t) (a : IPv6Address),
     ipv6Subnet.checkAddrWithingSubnet s a = true ↔
     ∀ i : fin 16,
       Z.land (a !!! i) (ipv6Subnet.Mask s !!! i)
       = Z.land (ipv6Subnet.Addr s !!! i) (ipv6Subnet.Mask s !!! i))
  ∧ (∀ s : ipv4Subnet.t,
     ipv4Subnet.checkAddrWithingSubnet s
       (Z.land (ipv4Subnet.Addr s) (ipv4Subnet.Mask s)) = true
     ∧ (0 ≤ ipv4Subnet.Mask s < 2 ^ 32 →
        ipv4Subnet.checkAddrWithingSubnet s
          (Z.lor (ipv4Subnet.Addr s) (Z.lxor (ipv4Subnet.Mask s) 0xffffffff)) = true))
  ∧ (∀ s : ipv6Subnet.t,
     ipv6Subnet.checkAddrWithingSubnet s (ipv6Subnet.andMask s (ipv6Subnet.Addr s)) = true
     ∧ ((∀ i : fin 16, 0 ≤ ipv6Subnet.Mask s !!! i < 2 ^ 8) →
        ipv6Subnet.checkAddrWithingSubnet s
          (vzip_with (λ a m, Z.lor a (Z.lxor m 0xff))
                     (ipv6Subnet.Addr s) (ipv6Subnet.Mask s)) = true)).
Proof.
  assert (∀ (s : ipv6Subnet.t) (a : IPv6Address),
     ipv6Subnet.checkAddrWithingSubnet s a = true ↔
     ∀ i : fin 16,
       Z.land (a !!! i) (ipv6Subnet.Mask s !!! i)
       = Z.land (ipv6Subnet.Addr s !!! i) (ipv6Subnet.Mask s !!! i)) as H6.
  { intros s a. unfold ipv6Subnet.checkAddrWithingSubnet, ipv6Subnet.andMask.
    rewrite bool_decide_eq_true. split.
    - intros Heq i. apply (f_equal (λ v, v !!! i)) in Heq.
      by rewrite !vlookup_zip_with in Heq.
    - intros Hall. apply vec_eq. intros i. by rewrite !vlookup_zip_with. }
  split; [| split; [exact H6 | split]].
  - intros s a. unfold ipv4Subnet.checkAddrWithingSubnet. apply Z.eqb_eq.
  - intros s. unfold ipv4Subnet.checkAddrWithingSubnet. split.
    + apply Z.eqb_eq, land_network.
    + intros Hm. by apply Z.eqb_eq, land_broadcast.
  - intros s. split.
    + apply H6. intros i. unfold ipv6Subnet.andMask.
      rewrite vlookup_zip_with. apply land_network.
    + intros Hm. apply H6. intros i. rewrite vlookup_zip_with.
      apply Z.bits_inj'. intros n Hn.
      rewrite !Z.land_spec, Z.lor_spec, Z.lxor_spec.
      destruct (Z.testbit (ipv6Subnet.Mask s !!! i) n) eqn:Hb; [| by rewrite !andb_false_r].
      rewrite !andb_true_r.
      assert (n < 8) as Hlt.
      { destruct (decide (n < 8)) as [|Hge]; [done|].
        specialize (Hm i).
        rewrite Z.bits_above_log2 in Hb; [done | lia |].
        apply Z.log2_lt_pow2; [| apply Z.lt_le_trans with (2 ^ 8); [lia|]].
        - destruct (decide (ipv6Subnet.Mask s !!! i = 0)) as [Hz|]; [| lia].
          by rewrite Hz, Z.bits_0 in Hb.
        - apply Z.pow_le_mono_r; lia. }
      replace 0xff with (Z.ones 8) by reflexivity.
      rewrite Z.ones_spec_low by lia. simpl. by rewrite orb_false_r.
Qed.

(** The scenario of the specification: 192.168.1.0/24 contains 192.168.1.200
    and does not contain 192.168.2.1. *)
Example subnet_192_168_1_0 :
  let s := ipv4Subnet.mk 0xC0A80100 0xFFFFFF00 true false in
  ipv4Subnet.checkAddrWithingSubnet s 0xC0A801C8 = true
  ∧ ipv4Subnet.checkAddrWithingSubnet s 0xC0A80201 = false.
Proof. by vm_compute. Qed.

(** ** Timeouts *)

(** C8: with the default timeouts the backdating offset is
    [portReuseTimeout - connectionTimeout], minus 59 seconds. Adding it to a
    last-used time moves that time earlier by the idle timeout less the
    close-reuse timeout; so, for a slot whose last-used time is the moment of
    full close, the idle timeout has elapsed since the backdated time exactly
    when the close-reuse timeout has elapsed since the close (whether the
    comparison is strict or not). *)
Theorem portReuseSetLastusedTime_offset :
  connectionTimeout = 60 * time.Second
  ∧ portReuseTimeout = 1 * time.Second
  ∧ portReuseSetLastusedTime = portReuseTimeout - connectionTimeout
  ∧ portReuseSetLastusedTime = - (59 * time.Second)
  ∧ (∀ lastused : Z,
       lastused + portReuseSetLastusedTime
       = lastused - (connectionTimeout - portReuseTimeout))
  ∧ (∀ closed now : Z,
       (connectionTimeout ≤ now - (closed + portReuseSetLastusedTime)
        ↔ portReuseTimeout ≤ now - closed)
       ∧ (connectionTimeout < now - (closed + portReuseSetLastusedTime)
          ↔ portReuseTimeout < now - closed)).
Proof.
  assert (connectionTimeout = 60000000000) as Hc by reflexivity.
  assert (portReuseTimeout = 1000000000) as Hr by reflexivity.
  assert (portReuseSetLastusedTime = -59000000000) as Ho by reflexivity.
  rewrite Hc, Hr, Ho.
  repeat split; try reflexivity; lia.
Qed.

(** ** convertIPv4 *)

Section Conversion.
Context `{GoLib}.

Lemma convertIPv4_nil : convertIPv4 None = Fail (ErrNotIPv4 0).
Proof. reflexivity. Qed.

Lemma convertIPv4_four (a b c d : Z) :
  convertIPv4 (Some [a; b; c; d]) = Done (BytesToIPv4 d c b a).
Proof. reflexivity. Qed.

Lemma convertIPv4_long (l : list Z) :
  (4 < length l)%nat → convertIPv4 (Some l) = Fail (ErrNotIPv4 (length l)).
Proof.
  intros Hl. unfold convertIPv4. simpl.
  by rewrite bool_decide_eq_true_2.
Qed.

Lemma convertIPv4_short (l : list Z) :
  (length l < 4)%nat → convertIPv4 (Some l) = Panic (IndexOutOfRange 3 (length l)).
Proof.
  intros Hl. unfold convertIPv4. simpl.
  rewrite bool_decide_eq_false_2 by lia.
  unfold index. simpl. by rewrite (lookup_ge_None_2 l 3) by lia.
Qed.

(** The function returns an error exactly on nil and on more than four bytes. *)
Lemma convertIPv4_error_iff (in_ : slice) :
  returnsError (convertIPv4 in_) ↔ in_ = None ∨ (4 < len in_)%nat.
Proof.
  split.
  - intros [e He]. destruct in_ as [l|]; [| by left]. right. simpl.
    destruct (decide (4 < length l)%nat) as [|Hle]; [done|].
    destruct (decide (length l = 4%nat)) as [H4|Hne].
    + destruct l as [|a [|b [|c [|d [|]]]]]; simplify_eq/=.
    + rewrite convertIPv4_short in He by lia. done.
  - intros [->|Hlen]; [by eexists|].
    destruct in_ as [l|]; simpl in Hlen; [| lia].
    eexists. by apply convertIPv4_long.
Qed.

(** C10: on a non-nil slice of three bytes the guard of line 257 lets the
    call through and the index expression [in[3]] panics. *)
Theorem convertIPv4_three_bytes_panics :
  convertIPv4 (Some [192; 168; 1]) = Panic (IndexOutOfRange 3 3).
Proof. reflexivity. Qed.

End Conversion.

(** ** Subnet parsing *)

Lemma To4_length (ip : slice) (l : list Z) : net.To4 ip = Some l → length l = 4%nat.
Proof.
  destruct ip as [l0|]; simpl; [| done].
  case_bool_decide as H4; [by intros [= <-]|].
  destruct (bool_decide (length l0 = net.IPv6len)) eqn:H16; simpl; [| done].
  apply bool_decide_eq_true in H16.
  destruct (bool_decide (take 12 l0 = net.v4InV6Prefix)); [| done]. intros [= <-].
  rewrite length_drop, H16. done.
Qed.

Lemma copy16_full (dst src : IPv6Address) : copy16 dst (Some (vec_to_list src)) = src.
Proof.
  apply vec_eq. intros i. unfold copy16. rewrite lookup_fun_to_vec. simpl.
  by rewrite (proj1 (vlookup_lookup src i (src !!! i)) eq_refl).
Qed.

Lemma String_eqb_false (s1 s2 : string) : s1 ≠ s2 → String.eqb s1 s2 = false.
Proof. by intros; apply String.eqb_neq. Qed.

Section Parsing.
Context `{GoLib}.

(** What the two subnet parsers make of the decoded string [s]. The token
    ["dhcp"] clears address and mask and leaves the subnet unacquired. A
    CIDR string, or failing that a plain address, that the library parses is
    accepted by the IPv4 parser when the address is an IPv4 one and rejected
    with an error when it is not; the IPv6 parser accepts every such string,
    storing the 16-byte form of the address and, for a CIDR, copying the
    mask bytes the library returns over the mask of the receiver. A plain
    address gets the all-ones mask. A string that is none of these is an
    error for both parsers. *)
Theorem subnet_UnmarshalJSON_cases (b s : string)
    (out4 : ipv4Subnet.t) (out6 : ipv6Subnet.t) :
  json_Unmarshal b = Done s →
  (s = "dhcp" →
     ipv4Subnet.UnmarshalJSON out4 b
       = (ipv4Subnet.mk 0 0 false (ipv4Subnet.kniAddressSet out4), Done tt)
     ∧ ipv6Subnet.UnmarshalJSON out6 b
       = (ipv6Subnet.mk zeroIPv6Addr (ipv6Subnet.multicastAddr out6) zeroIPv6Addr
            (ipv6Subnet.llAddr out6) (ipv6Subnet.llMulticastAddr out6) false
            (ipv6Subnet.kniAddressSet out6), Done tt))
  ∧ (s ≠ "dhcp" →
     (∀ ip ipnet, net_ParseCIDR s = Some (ip, ipnet) →
        (∀ a0 a1 a2 a3 m0 m1 m2 m3,
           net.To4 ip = Some [a0; a1; a2; a3] →
           net.Mask ipnet = Some [m0; m1; m2; m3] →
           ipv4Subnet.UnmarshalJSON out4 b
             = (ipv4Subnet.mk (BytesToIPv4 a3 a2 a1 a0) (BytesToIPv4 m3 m2 m1 m0) true
                  (ipv4Subnet.kniAddressSet out4), Done tt))
        ∧ (net.To4 ip = None → returnsError (ipv4Subnet.UnmarshalJSON out4 b).2)
        ∧ (net.To16 ip ≠ None →
           ipv6Subnet.UnmarshalJSON out6 b
             = (ipv6Subnet.mk (copy16 (ipv6Subnet.Addr out6) (net.To16 ip))
                  (ipv6Subnet.multicastAddr out6)
                  (copy16 (ipv6Subnet.Mask out6) (net.Mask ipnet))
                  (ipv6Subnet.llAddr out6) (ipv6Subnet.llMulticastAddr out6) true
                  (ipv6Subnet.kniAddressSet out6), Done tt))
        ∧ (∀ a m : IPv6Address,
           net.To16 ip = Some (vec_to_list a) →
           net.Mask ipnet = Some (vec_to_list m) →
           ipv6Subnet.UnmarshalJSON out6 b
             = (ipv6Subnet.mk a (ipv6Subnet.multicastAddr out6) m
                  (ipv6Subnet.llAddr out6) (ipv6Subnet.llMulticastAddr out6) true
                  (ipv6Subnet.kniAddressSet out6), Done tt)))
     ∧ (net_ParseCIDR s = None →
        (∀ ip, net_ParseIP s = Some ip →
           (∀ a0 a1 a2 a3,
              net.To4 (Some ip) = Some [a0; a1; a2; a3] →
              ipv4Subnet.UnmarshalJSON out4 b
                = (ipv4Subnet.mk (BytesToIPv4 a3 a2 a1 a0) 0xffffffff true
                     (ipv4Subnet.kniAddressSet out4), Done tt))
           ∧ (net.To4 (Some ip) = None →
              returnsError (ipv4Subnet.UnmarshalJSON out4 b).2)
           ∧ (∀ a : IPv6Address,
              net.To16 (Some ip) = Some (vec_to_list a) →
              ipv6Subnet.UnmarshalJSON out6 b
                = (ipv6Subnet.mk a (ipv6Subnet.multicastAddr out6) ipv6Subnet.allOnes
                     (ipv6Subnet.llAddr out6) (ipv6Subnet.llMulticastAddr out6) true
                     (ipv6Subnet.kniAddressSet out6), Done tt)))
        ∧ (net_ParseIP s = None →
           ipv4Subnet.UnmarshalJSON out4 b = (out4, Fail (ErrParseAddress s))
           ∧ ipv6Subnet.UnmarshalJSON out6 b = (out6, Fail (ErrParseAddress s))))).
Proof.
  intros Hjson. split.
  - intros ->. unfold ipv4Subnet.UnmarshalJSON, ipv6Subnet.UnmarshalJSON.
    by rewrite Hjson.
  - intros Hs. unfold ipv4Subnet.UnmarshalJSON, ipv6Subnet.UnmarshalJSON.
    rewrite Hjson, (String_eqb_false _ _ Hs). split.
    + intros ip ipnet ->. repeat split.
      * intros a0 a1 a2 a3 m0 m1 m2 m3 -> ->. by rewrite !convertIPv4_four.
      * intros ->. rewrite convertIPv4_nil. by eexists.
      * intros Hne. by rewrite bool_decide_eq_false_2.
      * intros a m Ha Hm. rewrite Ha, Hm, !copy16_full. done.
    + intros ->. split.
      * intros ip ->. repeat split.
        -- intros a0 a1 a2 a3 ->. by rewrite convertIPv4_four.
        -- intros ->. rewrite convertIPv4_nil. by eexists.
        -- intros a Ha. rewrite Ha, copy16_full. done.
      * by intros ->.
Qed.

End Parsing.

Lemma subnet_UnmarshalJSON_cases_witness :
  json_Unmarshal (GoLib := sampleLib) (jsonString "192.168.1.0/24")
    = Done "192.168.1.0/24"%string
  ∧ ipv4Subnet.UnmarshalJSON (H := sampleLib) zeroSubnet4 (jsonString "192.168.1.0/24")
    = (ipv4Subnet.mk 0xC0A80100 0xFFFFFF00 true false, Done tt).
Proof.
  split; [reflexivity|].
  pose proof (subnet_UnmarshalJSON_cases (H := sampleLib)
                (jsonString "192.168.1.0/24") "192.168.1.0/24"
                zeroSubnet4 zeroSubnet6 eq_refl) as [_ Hcases].
  destruct (Hcases ltac:(done)) as [Hcidr _].
  destruct (Hcidr _ _ eq_refl) as [H4 _].
  exact (H4 192 168 1 0 255 255 255 0 eq_refl eq_refl).
Defined.

(** The IPv4 parser answers a valid CIDR string and a valid plain address
    with an error when the address is an IPv6 one. *)
Lemma ipv4Subnet_rejects_IPv6_strings :
  ipv4Subnet.UnmarshalJSON (H := sampleLib) zeroSubnet4 (jsonString "fd00::1/64")
    = (zeroSubnet4, Fail (ErrNotIPv4 0))
  ∧ ipv4Subnet.UnmarshalJSON (H := sampleLib) zeroSubnet4 (jsonString "fd00::1")
    = (zeroSubnet4, Fail (ErrNotIPv4 0))
  ∧ net_ParseCIDR (GoLib := sampleLib) "fd00::1/64" ≠ None
  ∧ net_ParseIP (GoLib := sampleLib) "fd00::1" ≠ None.
Proof. by vm_compute. Qed.

(** The mask the IPv6 parser stores for a CIDR string whose mask the library
    returns in 4 bytes, as it does for every IPv4 network: the 4 bytes,
    followed by bytes 4 to 15 of the mask the receiver had. *)
Lemma ipv6Subnet_UnmarshalJSON_short_mask `{GoLib} (out : ipv6Subnet.t) (b s : string)
    (ip : slice) (ipnet : net.IPNet) (m0 m1 m2 m3 : Z) :
  json_Unmarshal b = Done s →
  s ≠ "dhcp"%string →
  net_ParseCIDR s = Some (ip, ipnet) →
  net.To16 ip ≠ None →
  net.Mask ipnet = Some [m0; m1; m2; m3] →
  (ipv6Subnet.UnmarshalJSON out b).2 = Done tt
  ∧ vec_to_list (ipv6Subnet.Mask (ipv6Subnet.UnmarshalJSON out b).1)
    = [m0; m1; m2; m3] ++ drop 4 (vec_to_list (ipv6Subnet.Mask out)).
Proof.
  intros Hjson Hs Hcidr H16 Hmask. unfold ipv6Subnet.UnmarshalJSON.
  rewrite Hjson, (String_eqb_false _ _ Hs), Hcidr, bool_decide_eq_false_2 by done.
  cbn [fst snd ipv6Subnet.Mask]. split; [done|]. rewrite Hmask.
  generalize (ipv6Subnet.Mask out). intros v.
  repeat (inv_vec v; intros ?). reflexivity.
Qed.

(** C7: the IPv6 parser does not keep the parsed mask of a CIDR string that
    names an IPv4 network. On ["192.168.1.0/24"], for which the library
    returns the 16-byte form of the address and the 4-byte mask
    255.255.255.0, it returns normally with the subnet acquired and the
    address stored, and a mask that is the 4 parsed bytes followed by what
    the receiver held in bytes 4 to 15: zeros in a fresh receiver, ones in a
    receiver whose mask was all ones. The mask therefore covers bytes of the
    address that are zero in every IPv4 address; the subnet read into a
    fresh receiver contains 10.9.9.9, which the IPv4 parser's subnet for the
    same string does not. *)
Theorem ipv6Subnet_UnmarshalJSON_IPv4_CIDR :
  let text := jsonString "192.168.1.0/24" in
  let fresh := ipv6Subnet.UnmarshalJSON (H := sampleLib) zeroSubnet6 text in
  let used := ipv6Subnet.UnmarshalJSON (H := sampleLib) onesSubnet6 text in
  let v4 := ipv4Subnet.UnmarshalJSON (H := sampleLib) zeroSubnet4 text in
  fresh.2 = Done tt
  ∧ ipv6Subnet.addressAcquired fresh.1 = true
  ∧ vec_to_list (ipv6Subnet.Addr fresh.1) = mapped 192 168 1 0
  ∧ vec_to_list (ipv6Subnet.Mask fresh.1) = [255; 255; 255; 0] ++ replicate 12 0
  ∧ vec_to_list (ipv6Subnet.Mask used.1) = [255; 255; 255; 0] ++ replicate 12 0xff
  ∧ ipv6Subnet.checkAddrWithingSubnet fresh.1 (mapped6 10 9 9 9) = true
  ∧ v4.2 = Done tt
  ∧ ipv4Subnet.checkAddrWithingSubnet v4.1 0x0A090909 = false.
Proof.
  intros text fresh used v4.
  destruct (ipv6Subnet_UnmarshalJSON_short_mask (H := sampleLib) zeroSubnet6 text
              "192.168.1.0/24" (Some (mapped 192 168 1 0))
              {| net.IP := Some [192; 168; 1; 0]; net.Mask := Some [255; 255; 255; 0] |}
              255 255 255 0 eq_refl ltac:(discriminate) eq_refl ltac:(discriminate) eq_refl)
    as [Hdone Hfresh].
  destruct (ipv6Subnet_UnmarshalJSON_short_mask (H := sampleLib) onesSubnet6 text
              "192.168.1.0/24" (Some (mapped 192 168 1 0))
              {| net.IP := Some [192; 168; 1; 0]; net.Mask := Some [255; 255; 255; 0] |}
              255 255 255 0 eq_refl ltac:(discriminate) eq_refl ltac:(discriminate) eq_refl)
    as [_ Hused].
  split; [exact Hdone|]. split; [reflexivity|]. split; [reflexivity|].
  split; [exact Hfresh|]. split; [exact Hused|].
  split; [| split; reflexivity].
  apply bool_decide_eq_true. reflexivity.
Qed.

(** ** The stateful load computes the function on values *)

Lemma M_bind_run {A B} (f : A → M B) (m : M A) (w : World) :
  (m ≫= f) w =
  match m w with
  | (w', Done a) => f a w'
  | (w', Fail e) => (w', Fail e)
  | (w', Panic p) => (w', Panic p)
  end.
Proof. reflexivity. Qed.

Lemma select_update (s : member) (p : ipPort) (pp : portPair) :
  select s (update s p pp) = p.
Proof. by destruct s. Qed.

Lemma select_update_other (s : member) (p : ipPort) (pp : portPair) :
  select (other s) (update s p pp) = select (other s) pp.
Proof. by destruct s. Qed.

Lemma update_update (s : member) (p1 p2 : ipPort) (pp : portPair) :
  update s p2 (update s p1 pp) = update s p2 pp.
Proof. by destruct s. Qed.

Lemma update_select (s : member) (pp : portPair) : update s (select s pp) pp = pp.
Proof. by destruct s, pp. Qed.

Section Focus.
Context (cfg : Config) (clk : Z) (pre post : list portPair).

Local Abbreviation W := (focus cfg clk pre post).
Local Abbreviation at_ s := {| pairIndex := length pre; side := s |}.

Lemma getPort_focus s pp kni dhcp : getPort (at_ s) (W pp kni dhcp) = Some (select s pp).
Proof. unfold getPort. simpl. by rewrite list_lookup_middle. Qed.

Lemma setPort_focus s p pp kni dhcp :
  setPort (at_ s) p (W pp kni dhcp) = W (update s p pp) kni dhcp.
Proof.
  unfold setPort, focus, with_Natconfig, with_PortPairs. simpl. do 2 f_equal.
  rewrite alter_app_r_alt by lia. by rewrite Nat.sub_diag.
Qed.

Lemma loadPort_focus s pp kni dhcp :
  loadPort (at_ s) (W pp kni dhcp) = (W pp kni dhcp, Done (select s pp)).
Proof. unfold loadPort. by rewrite getPort_focus. Qed.

Lemma modifyPort_focus s f pp kni dhcp :
  modifyPort (at_ s) f (W pp kni dhcp) = (W (update s (f (select s pp)) pp) kni dhcp, Done tt).
Proof.
  unfold modifyPort. rewrite M_bind_run, loadPort_focus.
  unfold modify. by rewrite setPort_focus.
Qed.

Lemma loadFP_focus s k f pp kni dhcp :
  ForwardPorts (select s pp) !! k = Some f →
  loadFP {| ofPort := at_ s; ruleIndex := k |} (W pp kni dhcp) = (W pp kni dhcp, Done f).
Proof.
  intros Hf. unfold loadFP. rewrite M_bind_run. simpl.
  rewrite loadPort_focus. simpl. by rewrite Hf.
Qed.

Lemma storeFP_focus s k f f' pp kni dhcp :
  ForwardPorts (select s pp) !! k = Some f →
  storeFP {| ofPort := at_ s; ruleIndex := k |} f' (W pp kni dhcp)
  = (W (update s (with_ForwardPorts (<[k := f']> (ForwardPorts (select s pp)))
                                     (select s pp)) pp) kni dhcp, Done tt).
Proof.
  intros Hf. unfold storeFP. rewrite M_bind_run, (loadFP_focus _ _ f) by done.
  simpl. by rewrite modifyPort_focus.
Qed.

Lemma NeedKNI_focus b pp kni dhcp : with_NeedKNI b (W pp kni dhcp) = W pp b dhcp.
Proof. reflexivity. Qed.

Lemma NeedDHCP_focus b pp kni dhcp : with_NeedDHCP b (W pp kni dhcp) = W pp kni b.
Proof. reflexivity. Qed.

Lemma with_ForwardPorts_id (p : ipPort) : with_ForwardPorts (ForwardPorts p) p = p.
Proof. by destruct p. Qed.

Lemma checkPortForwarding_focus s k f pp kni dhcp :
  ForwardPorts (select s pp) !! k = Some f →
  (isAddrZero f = false → (Type_ (select s pp) =? iPRIVATE) = false →
   opposite (select s pp) = Some (at_ (other s))) →
  checkPortForwarding (at_ s) {| ofPort := at_ s; ruleIndex := k |} (W pp kni dhcp)
  = match ruleVerdict (select s pp) (select (other s) pp) f with
    | Some e => (W pp kni dhcp, Fail e)
    | None =>
        (W (update s (with_ForwardPorts (<[k := ruleAccepted f]> (ForwardPorts (select s pp)))
                                        (select s pp)) pp)
           (ruleNeedKNI f kni) dhcp, Done tt)
    end.
Proof.
  intros Hf Hopp.
  assert (∀ kni', W (update s (with_ForwardPorts (<[k := f]> (ForwardPorts (select s pp)))
                                 (select s pp)) pp) kni' dhcp = W pp kni' dhcp) as Hid.
  { intros kni'. by rewrite list_insert_id, with_ForwardPorts_id, update_select. }
  unfold checkPortForwarding, ruleVerdict, ruleAccepted, ruleNeedKNI.
  rewrite M_bind_run, (loadFP_focus _ _ f) by done.
  destruct (negb (eqb _ _)); [done|].
  rewrite M_bind_run, loadPort_focus.
  destruct (isAddrZero f) eqn:Hzero.
  { destruct (String.eqb _ _); [done|].
    destruct (negb (_ =? _)); [done|].
    unfold modify. by rewrite NeedKNI_focus, Hid. }
  destruct (Type_ _ =? iPRIVATE); [done|].
  rewrite M_bind_run, Hopp by done. simpl.
  rewrite M_bind_run, loadPort_focus.
  rewrite M_bind_run.
  destruct (hostPort.ipv6 _).
  - destruct (negb (ipv6Subnet.checkAddrWithingSubnet _ _)); [done|]. simpl.
    destruct (_ =? 0); simpl.
    + by rewrite (storeFP_focus _ _ f).
    + by rewrite Hid.
  - destruct (negb (ipv4Subnet.checkAddrWithingSubnet _ _)); [done|]. simpl.
    destruct (_ =? 0); simpl.
    + by rewrite (storeFP_focus _ _ f).
    + by rewrite Hid.
Qed.


Lemma ruleVerdict_rules (p o : ipPort) (fs : list forwardedPort.t) (f : forwardedPort.t) :
  ruleVerdict (with_ForwardPorts fs p) o f = ruleVerdict p o f.
Proof. reflexivity. Qed.

Lemma checkRules_rules (p o : ipPort) (l fs : list forwardedPort.t) (kni : bool) :
  checkRules (with_ForwardPorts l p) o fs kni = checkRules p o fs kni.
Proof.
  revert kni. induction fs as [|f fs IH]; intros kni; simpl; [done|].
  rewrite ruleVerdict_rules. destruct (ruleVerdict p o f); [done|]. by rewrite IH.
Qed.

Lemma with_ForwardPorts_twice (l1 l2 : list forwardedPort.t) (p : ipPort) :
  with_ForwardPorts l2 (with_ForwardPorts l1 p) = with_ForwardPorts l2 p.
Proof. reflexivity. Qed.

(** The loop over the rules of one interface, entered at rule [length done]. *)
Lemma rules_loop_focus s (todo done : list forwardedPort.t) pp kni dhcp :
  ForwardPorts (select s pp) = done ++ todo →
  opposite (select s pp) = Some (at_ (other s)) →
  forRangeFrom (length done) (length todo)
    (λ fpi, checkPortForwarding (at_ s) {| ofPort := at_ s; ruleIndex := fpi |})
    (W pp kni dhcp)
  = let '(todo', kni', r) := checkRules (select s pp) (select (other s) pp) todo kni in
    (W (update s (with_ForwardPorts (done ++ todo') (select s pp)) pp) kni' dhcp, result r).
Proof.
  revert done pp kni. induction todo as [|f todo IH]; intros done pp kni Hfs Hopp.
  - simpl. rewrite <- Hfs, with_ForwardPorts_id, update_select. done.
  - simpl. rewrite M_bind_run.
    rewrite (checkPortForwarding_focus s (length done) f) by
      (by rewrite ?Hfs, ?list_lookup_middle).
    destruct (ruleVerdict _ _ f) as [e|] eqn:Hv.
    { simpl. by rewrite <- Hfs, with_ForwardPorts_id, update_select. }
    set (pp1 := update s _ pp).
    assert (select s pp1 = with_ForwardPorts (done ++ ruleAccepted f :: todo) (select s pp))
      as Hsel.
    { unfold pp1. rewrite select_update, Hfs. f_equal.
      rewrite insert_app_r_alt by lia. by rewrite Nat.sub_diag. }
    specialize (IH (done ++ [ruleAccepted f]) pp1 (ruleNeedKNI f kni)).
    rewrite length_app in IH. simpl in IH. rewrite Nat.add_1_r in IH.
    rewrite IH; clear IH.
    + unfold pp1 at 2 4. rewrite select_update_other, Hsel, checkRules_rules.
      destruct (checkRules _ _ todo _) as [[todo' kni'] r].
      unfold pp1. rewrite update_update, with_ForwardPorts_twice, <- app_assoc. done.
    + rewrite Hsel. simpl. by rewrite <- app_assoc.
    + by rewrite Hsel.
Qed.

Lemma gets_run {A} (f : World → A) w : gets f w = (w, Done (f w)).
Proof. reflexivity. Qed.

Lemma modify_run f w : modify f w = (f w, Done tt).
Proof. reflexivity. Qed.

Lemma mret_run {A} (a : A) (w : World) : mret (M := M) a w = (w, Done a).
Proof. reflexivity. Qed.

Ltac run_step :=
  first [ rewrite NeedKNI_focus | rewrite NeedDHCP_focus
        | rewrite mret_run | rewrite modify_run | rewrite gets_run
        | rewrite loadPort_focus | rewrite modifyPort_focus
        | progress cbv beta iota | rewrite M_bind_run ].

(** One iteration of the loop over the two interfaces. *)
Lemma ReadConfig_port_focus s pp kni dhcp :
  opposite (select s pp) = Some (at_ (other s)) →
  ReadConfig_port (length pre) (at_ s) (W pp kni dhcp)
  = let '(p', kni', dhcp', r) :=
      checkPort (HostName cfg) (select s pp) (select (other s) pp) kni dhcp in
    (W (update s p' pp) kni' dhcp',
     match r with
     | Some e => Fail e
     | None => Done (at_ inPublicPort)
     end).
Proof.
  intros Hopp. unfold ReadConfig_port, checkPort, when.
  rewrite M_bind_run, loadPort_focus, M_bind_run.
  set (p := select s pp) in *.
  assert (∀ kni1 dhcp1,
    (forRange (length (ForwardPorts p))
       (λ fpi, checkPortForwarding (at_ s) {| ofPort := at_ s; ruleIndex := fpi |})
     ≫= λ _, loadPort (at_ s)
     ≫= λ p', (if negb (bool_decide (DstMACAddress p' = zeroMACAddress))
               then modifyPort (at_ s) (with_staticArpMode true) else mret tt)
     ≫= λ _, mret (at_ inPublicPort)) (W pp kni1 dhcp1)
    = let '(fs', kni2, r) := checkRules p (select (other s) pp) (ForwardPorts p) kni1 in
      let p1 := with_ForwardPorts fs' p in
      match r with
      | Some e => (W (update s p1 pp) kni2 dhcp1, Fail e)
      | None =>
          (W (update s (if negb (bool_decide (DstMACAddress p = zeroMACAddress))
                        then with_staticArpMode true p1 else p1) pp) kni2 dhcp1,
           Done (at_ inPublicPort))
      end) as Hrest.
  { intros kni1 dhcp1. rewrite M_bind_run. unfold forRange.
    pose proof (rules_loop_focus s (ForwardPorts p) [] pp kni1 dhcp1 eq_refl Hopp) as Hloop.
    cbn [length app] in Hloop. fold p in Hloop. rewrite Hloop. clear Hloop. destruct (checkRules p _ _ _) as [[fs' kni2] [e|]]; simpl; [done|].
    rewrite M_bind_run, loadPort_focus, select_update, M_bind_run. simpl.
    destruct (negb (bool_decide (DstMACAddress p = zeroMACAddress))).
    - by rewrite modifyPort_focus, select_update, update_update.
    - done. }
  destruct (ipv4Subnet.addressAcquired (Subnet p)); cbn [negb andb].
  - destruct (negb (String.eqb (KNIName p) ""));
      repeat first [ rewrite Hrest | run_step ];
      by destruct (checkRules p _ _ _) as [[fs' kni2] [e|]].
  - repeat run_step.
    change (HostName (Natconfig (W pp kni dhcp))) with (HostName cfg).
    destruct (String.eqb (HostName cfg) "").
    { unfold fail, p. by rewrite update_select. }
    destruct (negb (String.eqb (KNIName p) ""));
      repeat first [ rewrite Hrest | run_step ];
      by destruct (checkRules p _ _ _) as [[fs' kni2] [e|]].
Qed.

(** The body of the loop over the pairs. *)
Lemma ReadConfig_pair_focus pp kni dhcp :
  ReadConfig_pair (length pre) (W pp kni dhcp)
  = let '(pp', kni', dhcp', r) := checkPair (HostName cfg) (length pre) pp kni dhcp in
    (W pp' kni' dhcp', result r).
Proof.
  unfold ReadConfig_pair, checkPair.
  do 4 (rewrite M_bind_run, modifyPort_focus; cbv beta iota).
  change (update inPrivatePort _ _) with (linkPair (length pre) pp).
  set (pp1 := linkPair (length pre) pp).
  do 2 (rewrite M_bind_run, loadPort_focus; cbv beta iota).
  rewrite M_bind_run.
  change (select inPrivatePort pp1) with (PrivatePort pp1).
  change (select inPublicPort pp1) with (PublicPort pp1).
  unfold vlanVerdict.
  destruct ((Vlan (PrivatePort pp1) =? 0) && negb (Vlan (PublicPort pp1) =? 0)); [done|].
  destruct (negb (Vlan (PrivatePort pp1) =? 0) && (Vlan (PublicPort pp1) =? 0)); [done|].
  rewrite mret_run. cbv beta iota. rewrite M_bind_run.
  unfold vlanKNIVerdict.
  destruct (_ || _); [done|].
  rewrite mret_run. cbv beta iota. rewrite M_bind_run.
  cbn [forCount]. rewrite M_bind_run.
  rewrite (ReadConfig_port_focus inPrivatePort pp1) by done.
  change (select inPrivatePort pp1) with (PrivatePort pp1).
  change (select (other inPrivatePort) pp1) with (PublicPort pp1).
  destruct (checkPort (HostName cfg) (PrivatePort pp1) (PublicPort pp1) kni dhcp)
    as [[[priv' kni1] dhcp1] [e|]]; [done|].
  rewrite M_bind_run.
  rewrite (ReadConfig_port_focus inPublicPort (update inPrivatePort priv' pp1)) by done.
  change (select inPublicPort (update inPrivatePort priv' pp1)) with (PublicPort pp1).
  change (select (other inPublicPort) (update inPrivatePort priv' pp1)) with priv'.
  destruct (checkPort (HostName cfg) (PublicPort pp1) priv' kni1 dhcp1)
    as [[[pub' kni2] dhcp2] [e|]]; done.
Qed.

End Focus.

(** The loop over the pairs, entered at pair [length pre]. *)
Lemma pairs_loop (cfg : Config) (clk : Z) (todo pre : list portPair) (kni dhcp : bool) :
  forRangeFrom (length pre) (length todo) ReadConfig_pair
    (mkWorld (with_PortPairs (pre ++ todo) cfg) kni dhcp clk)
  = let '(todo', kni', dhcp', r) := checkPairs (HostName cfg) (length pre) todo kni dhcp in
    (mkWorld (with_PortPairs (pre ++ todo') cfg) kni' dhcp' clk, result r).
Proof.
  revert pre kni dhcp. induction todo as [|pp todo IH]; intros pre kni dhcp; [done|].
  cbn [forRangeFrom length checkPairs]. rewrite M_bind_run.
  change (mkWorld (with_PortPairs (pre ++ pp :: todo) cfg) kni dhcp clk)
    with (focus cfg clk pre todo pp kni dhcp).
  rewrite ReadConfig_pair_focus.
  destruct (checkPair (HostName cfg) (length pre) pp kni dhcp)
    as [[[pp' kni1] dhcp1] [e|]]; [done|].
  cbn [result]. cbv beta iota. unfold focus.
  specialize (IH (pre ++ [pp']) kni1 dhcp1).
  rewrite length_app, Nat.add_1_r, <- app_assoc in IH. cbn [app] in IH. rewrite IH.
  destruct (checkPairs (HostName cfg) (S (length pre)) todo kni1 dhcp1)
    as [[[todo' kni2] dhcp2] r].
  by rewrite <- app_assoc.
Qed.

(** [ReadConfig] on a file that opens and decodes. *)
Lemma ReadConfig_run `{Environment} (fileName file : string) (decoded : Config)
    (setKniIP_ bringUp_ : bool) (w : World) :
  os_Open fileName = Done file →
  json_Decode file = Done decoded →
  ReadConfig fileName setKniIP_ bringUp_ w
  = let '(pairs', kni', dhcp', r) :=
      checkPairs (HostName decoded) 0 (PortPairs decoded) (NeedKNI w) (NeedDHCP w) in
    (mkWorld (with_PortPairs pairs' (loaded decoded setKniIP_ bringUp_)) kni' dhcp' (clock w),
     result r).
Proof.
  intros Hopen Hdec. unfold ReadConfig, lift, when.
  destruct decoded as [hn pairs f1 f2].
  rewrite M_bind_run, Hopen. cbv beta iota.
  rewrite M_bind_run, Hdec. cbv beta iota.
  rewrite M_bind_run, modify_run. cbv beta iota.
  rewrite M_bind_run.
  pose proof (pairs_loop (loaded (mkConfig hn pairs f1 f2) setKniIP_ bringUp_) (clock w) pairs []
                (NeedKNI w) (NeedDHCP w)) as Hloop.
  cbn [length app] in Hloop.
  destruct setKniIP_, bringUp_;
    repeat first [ rewrite mret_run | rewrite modify_run | rewrite gets_run
                 | progress cbv beta iota | rewrite M_bind_run ];
    unfold forRange; exact Hloop.
Qed.

(** ** The outcome of a load is the first failing check *)

Lemma firstError_app (l1 l2 : list (option error)) :
  firstError (l1 ++ l2)
  = match firstError l1 with
    | Some e => Some e
    | None => firstError l2
    end.
Proof. induction l1 as [|[e|] l1 IH]; simpl; auto. Qed.

Lemma firstError_None (l : list (option error)) :
  firstError l = None ↔ ∀ v, v ∈ l → v = None.
Proof.
  induction l as [|[e|] l IH]; simpl.
  - split; [intros _ v Hv; by apply elem_of_nil in Hv | done].
  - split; [done|]. intros Hall. by specialize (Hall (Some e) (list_elem_of_here _ _)).
  - rewrite IH. split.
    + intros Hall v [->|Hv]%elem_of_cons; auto.
    + intros Hall v Hv. apply Hall. by right.
Qed.

Lemma firstError_Some (l : list (option error)) (e : error) :
  firstError l = Some e → Some e ∈ l.
Proof.
  induction l as [|[e'|] l IH]; simpl; [done| |].
  - intros [= ->]. left.
  - intros He. right. auto.
Qed.

Lemma firstError_elem (l : list (option error)) (e : error) :
  Some e ∈ l → ∃ e', firstError l = Some e'.
Proof.
  intros He. destruct (firstError l) as [e'|] eqn:Hf; [by eexists|].
  by specialize (proj1 (firstError_None l) Hf _ He).
Qed.

(** The first failing check is the one all of whose predecessors pass. *)
Lemma firstError_middle (l1 l2 : list (option error)) (e : error) :
  (∀ v, v ∈ l1 → v = None) → firstError (l1 ++ Some e :: l2) = Some e.
Proof. intros Hl1. rewrite firstError_app. by rewrite (proj2 (firstError_None l1) Hl1). Qed.

Lemma checkRules_error (p o : ipPort) (fs : list forwardedPort.t) (kni : bool) :
  (checkRules p o fs kni).2 = firstError (map (ruleVerdict p o) fs).
Proof.
  revert kni. induction fs as [|f fs IH]; intros kni; simpl; [done|].
  destruct (ruleVerdict p o f); [done|].
  specialize (IH (ruleNeedKNI f kni)).
  by destruct (checkRules p o fs (ruleNeedKNI f kni)) as [[fs' kni'] r].
Qed.

Lemma checkRules_success (p o : ipPort) (fs : list forwardedPort.t) (kni : bool) :
  (checkRules p o fs kni).2 = None →
  (checkRules p o fs kni).1.1 = map ruleAccepted fs.
Proof.
  revert kni. induction fs as [|f fs IH]; intros kni; simpl; [done|].
  destruct (ruleVerdict p o f); [done|].
  specialize (IH (ruleNeedKNI f kni)).
  destruct (checkRules p o fs (ruleNeedKNI f kni)) as [[fs' kni'] r]. simpl in *.
  intros ->. by rewrite IH.
Qed.

Lemma checkPort_error (host : string) (p o : ipPort) (kni dhcp : bool) :
  (checkPort host p o kni dhcp).2 = firstError (portChecks host p o).
Proof.
  unfold checkPort, portChecks, dhcpVerdict. simpl.
  destruct (negb _ && _); [done|]. simpl.
  rewrite <- (checkRules_error p o (ForwardPorts p)
                 (if negb (String.eqb (KNIName p) "") then true else kni)).
  by destruct (checkRules p o (ForwardPorts p) _) as [[fs' kni'] [e|]].
Qed.

(** What an iteration over an interface changes when it succeeds. *)
Lemma checkPort_success (host : string) (p o : ipPort) (kni dhcp : bool) :
  (checkPort host p o kni dhcp).2 = None →
  let p' := (checkPort host p o kni dhcp).1.1.1 in
  ForwardPorts p' = map ruleAccepted (ForwardPorts p)
  ∧ Subnet p' = Subnet p ∧ Subnet6 p' = Subnet6 p
  ∧ (checkPort host p o kni dhcp).1.2
    = (if negb (ipv4Subnet.addressAcquired (Subnet p)) then true else dhcp).
Proof.
  unfold checkPort.
  destruct (negb _ && _); [done|].
  pose proof (checkRules_success p o (ForwardPorts p)
                (if negb (String.eqb (KNIName p) "") then true else kni)) as Hs.
  destruct (checkRules p o (ForwardPorts p) _) as [[fs' kni'] [e|]]; [done|].
  simpl in *. intros _. rewrite <- (Hs eq_refl).
  by destruct (negb (bool_decide _)).
Qed.

Lemma ruleVerdict_opposite (p o o' : ipPort) (f : forwardedPort.t) :
  Subnet o' = Subnet o → Subnet6 o' = Subnet6 o →
  ruleVerdict p o' f = ruleVerdict p o f.
Proof. intros H4 H6. unfold ruleVerdict. by rewrite H4, H6. Qed.

Lemma checkPair_error (host : string) (i : nat) (pp : portPair) (kni dhcp : bool) :
  (checkPair host i pp kni dhcp).2 = firstError (pairChecks host i pp).
Proof.
  unfold checkPair, pairChecks.
  set (pp1 := linkPair i pp). cbn [app firstError].
  destruct (vlanVerdict _ _); [done|].
  destruct (vlanKNIVerdict _ _); [done|].
  rewrite firstError_app.
  pose proof (checkPort_error host (PrivatePort pp1) (PublicPort pp1) kni dhcp) as He.
  pose proof (checkPort_success host (PrivatePort pp1) (PublicPort pp1) kni dhcp) as Hs.
  destruct (checkPort host (PrivatePort pp1) (PublicPort pp1) kni dhcp)
    as [[[priv' kni1] dhcp1] r1].
  cbn [fst snd] in He, Hs. rewrite <- He. destruct r1 as [e|]; [done|].
  destruct (Hs eq_refl) as (_ & H4 & H6 & _).
  pose proof (checkPort_error host (PublicPort pp1) priv' kni1 dhcp1) as He2.
  destruct (checkPort host (PublicPort pp1) priv' kni1 dhcp1) as [[[pub' kni2] dhcp2] r2].
  cbn [fst snd] in *. rewrite He2. unfold portChecks. do 2 f_equal.
  apply map_ext. intros f. by apply ruleVerdict_opposite.
Qed.

Lemma checkPair_success (host : string) (i : nat) (pp : portPair) (kni dhcp : bool) :
  (checkPair host i pp kni dhcp).2 = None →
  let pp' := (checkPair host i pp kni dhcp).1.1.1 in
  (∀ s, ForwardPorts (select s pp') = map ruleAccepted (ForwardPorts (select s pp)))
  ∧ (checkPair host i pp kni dhcp).1.2
    = (if negb (ipv4Subnet.addressAcquired (Subnet (PublicPort pp))) then true
       else if negb (ipv4Subnet.addressAcquired (Subnet (PrivatePort pp))) then true
       else dhcp).
Proof.
  unfold checkPair.
  set (pp1 := linkPair i pp).
  destruct (vlanVerdict _ _); [done|].
  destruct (vlanKNIVerdict _ _); [done|].
  pose proof (checkPort_success host (PrivatePort pp1) (PublicPort pp1) kni dhcp) as Hs.
  destruct (checkPort host (PrivatePort pp1) (PublicPort pp1) kni dhcp)
    as [[[priv' kni1] dhcp1] [e|]]; [done|].
  destruct (Hs eq_refl) as (Hf1 & _ & _ & Hd1). simpl in Hf1, Hd1.
  pose proof (checkPort_success host (PublicPort pp1) priv' kni1 dhcp1) as Hs2.
  destruct (checkPort host (PublicPort pp1) priv' kni1 dhcp1) as [[[pub' kni2] dhcp2] r2].
  simpl in *. intros ->. destruct (Hs2 eq_refl) as (Hf2 & _ & _ & Hd2).
  split; [by intros []|]. by rewrite Hd2, Hd1.
Qed.

Lemma checkPairs_error (host : string) (i : nat) (pps : list portPair) (kni dhcp : bool) :
  (checkPairs host i pps kni dhcp).2 = firstError (loadChecksFrom host i pps).
Proof.
  revert i kni dhcp. induction pps as [|pp pps IH]; intros i kni dhcp;
    cbn [checkPairs loadChecksFrom]; [done|].
  rewrite firstError_app, <- (checkPair_error host i pp kni dhcp).
  destruct (checkPair host i pp kni dhcp) as [[[pp' kni1] dhcp1] [e|]]; [done|].
  specialize (IH (S i) kni1 dhcp1).
  by destruct (checkPairs host (S i) pps kni1 dhcp1) as [[[pps' kni2] dhcp2] r].
Qed.

(** A pair of the configuration as a successful load leaves it. *)
Lemma checkPairs_success (host : string) (i : nat) (pps : list portPair) (kni dhcp : bool) :
  (checkPairs host i pps kni dhcp).2 = None →
  let pps' := (checkPairs host i pps kni dhcp).1.1.1 in
  let dhcp' := (checkPairs host i pps kni dhcp).1.2 in
  (∀ j pp, pps !! j = Some pp →
     ∃ pp', pps' !! j = Some pp'
            ∧ ∀ s, ForwardPorts (select s pp') = map ruleAccepted (ForwardPorts (select s pp)))
  ∧ (dhcp = true → dhcp' = true)
  ∧ (∀ j pp s, pps !! j = Some pp →
       ipv4Subnet.addressAcquired (Subnet (select s pp)) = false → dhcp' = true).
Proof.
  revert i kni dhcp. induction pps as [|pp pps IH]; intros i kni dhcp; cbn [checkPairs].
  { intros _. split; [|split]; [intros j pp Hj | done | intros j pp s Hj];
      by rewrite lookup_nil in Hj. }
  pose proof (checkPair_success host i pp kni dhcp) as Hs.
  destruct (checkPair host i pp kni dhcp) as [[[pp' kni1] dhcp1] [e|]]; [done|].
  destruct (Hs eq_refl) as [Hfs Hd]. simpl in Hfs, Hd.
  specialize (IH (S i) kni1 dhcp1).
  destruct (checkPairs host (S i) pps kni1 dhcp1) as [[[pps' kni2] dhcp2] r].
  simpl in *. intros ->. destruct (IH eq_refl) as (IH1 & IH2 & IH3).
  split; [|split].
  - intros [|j] pp0 Hj; simpl in *.
    + injection Hj as <-. by exists pp'.
    + by apply IH1.
  - intros ->. apply IH2. rewrite Hd. by repeat destruct (negb _).
  - intros [|j] pp0 s Hj Hacq; simpl in *.
    + injection Hj as <-. apply IH2. rewrite Hd.
      destruct s; simpl in Hacq; rewrite Hacq; simpl; [| done].
      by destruct (negb _).
    + by apply (IH3 j pp0 s).
Qed.

Lemma loadChecksFrom_app (host : string) (i : nat) (l1 l2 : list portPair) :
  loadChecksFrom host i (l1 ++ l2)
  = loadChecksFrom host i l1 ++ loadChecksFrom host (i + length l1) l2.
Proof.
  revert i. induction l1 as [|pp l1 IH]; intros i; cbn [app loadChecksFrom length].
  - by rewrite Nat.add_0_r.
  - rewrite IH, <- app_assoc. do 3 f_equal. lia.
Qed.

Lemma loadChecks_lookup (host : string) (i : nat) (pps : list portPair) (pp : portPair) :
  pps !! i = Some pp →
  loadChecks host pps
  = loadChecks host (take i pps) ++ pairChecks host i pp
    ++ loadChecksFrom host (S i) (drop (S i) pps).
Proof.
  intros Hi. unfold loadChecks.
  rewrite <- (take_drop_middle pps i pp Hi) at 1.
  rewrite loadChecksFrom_app. cbn [loadChecksFrom].
  rewrite length_take_le by (apply lookup_lt_Some in Hi; lia). done.
Qed.

Lemma loadChecksFrom_elem (host : string) (i : nat) (pps : list portPair)
    (v : option error) :
  v ∈ loadChecksFrom host i pps ↔
  ∃ j pp, pps !! j = Some pp ∧ v ∈ pairChecks host (i + j) pp.
Proof.
  revert i. induction pps as [|pp0 pps IH]; intros i; cbn [loadChecksFrom].
  - split; [by intros ?%elem_of_nil|]. intros (j & pp & Hj & _). by rewrite lookup_nil in Hj.
  - rewrite elem_of_app, IH. split.
    + intros [Hv|(j & pp & Hj & Hv)].
      * exists 0%nat, pp0. by rewrite Nat.add_0_r.
      * exists (S j), pp. split; [done|]. by replace (i + S j)%nat with (S i + j)%nat by lia.
    + intros ([|j] & pp & Hj & Hv); simpl in Hj.
      * injection Hj as ->. left. by rewrite Nat.add_0_r in Hv.
      * right. exists j, pp. split; [done|].
        by replace (S i + j)%nat with (i + S j)%nat by lia.
Qed.

(** ** The checks in an arbitrary store *)

(** Every store that holds [pp] at index [i] is focused on it. *)
Lemma world_focus (w : World) (i : nat) (pp : portPair) :
  PortPairs (Natconfig w) !! i = Some pp →
  ∃ pre post,
    length pre = i
    ∧ w = focus (Natconfig w) (clock w) pre post pp (NeedKNI w) (NeedDHCP w).
Proof.
  intros Hi. exists (take i (PortPairs (Natconfig w))), (drop (S i) (PortPairs (Natconfig w))).
  split.
  - apply length_take_le. apply lookup_lt_Some in Hi. lia.
  - destruct w as [[hn pps f1 f2] kni dhcp clk]. unfold focus, with_PortPairs. simpl in *.
    by rewrite take_drop_middle.
Qed.

Lemma ReadConfig_outcome `{Environment} (fileName file : string) (decoded : Config)
    (setKniIP_ bringUp_ : bool) (w : World) :
  os_Open fileName = Done file →
  json_Decode file = Done decoded →
  (ReadConfig fileName setKniIP_ bringUp_ w).2
  = result (firstError (loadChecks (HostName decoded) (PortPairs decoded))).
Proof.
  intros Hopen Hdec. rewrite (ReadConfig_run _ _ _ _ _ _ Hopen Hdec).
  pose proof (checkPairs_error (HostName decoded) 0 (PortPairs decoded) (NeedKNI w) (NeedDHCP w))
    as He.
  destruct (checkPairs _ _ _ _ _) as [[[pps' kni'] dhcp'] r]. simpl in *. by rewrite He.
Qed.

Lemma ReadConfig_pair_outcome (w : World) (i : nat) (pp : portPair) :
  PortPairs (Natconfig w) !! i = Some pp →
  (ReadConfig_pair i w).2 = result (firstError (pairChecks (HostName (Natconfig w)) i pp)).
Proof.
  intros Hi. destruct (world_focus w i pp Hi) as (pre & post & <- & Hw).
  rewrite Hw at 1. rewrite ReadConfig_pair_focus.
  pose proof (checkPair_error (HostName (Natconfig w)) (length pre) pp (NeedKNI w) (NeedDHCP w))
    as He.
  destruct (checkPair _ _ _ _ _) as [[[pp' kni'] dhcp'] r]. simpl in *. by rewrite He.
Qed.

Lemma checkPortForwarding_outcome (w : World) (i k : nat) (s : member) (pp : portPair)
    (f : forwardedPort.t) :
  PortPairs (Natconfig w) !! i = Some pp →
  ForwardPorts (select s pp) !! k = Some f →
  (isAddrZero f = false → (Type_ (select s pp) =? iPRIVATE) = false →
   opposite (select s pp) = Some {| pairIndex := i; side := other s |}) →
  let port := {| pairIndex := i; side := s |} in
  let run := checkPortForwarding port {| ofPort := port; ruleIndex := k |} w in
  run.2 = result (ruleVerdict (select s pp) (select (other s) pp) f)
  ∧ (run.2 = Done tt →
     NeedDHCP run.1 = NeedDHCP w
     ∧ NeedKNI run.1 = ruleNeedKNI f (NeedKNI w)
     ∧ ∃ pp', PortPairs (Natconfig run.1) !! i = Some pp'
              ∧ select (other s) pp' = select (other s) pp
              ∧ select s pp'
                = with_ForwardPorts (<[k := ruleAccepted f]> (ForwardPorts (select s pp)))
                                    (select s pp)).
Proof.
  intros Hi Hf Hopp. destruct (world_focus w i pp Hi) as (pre & post & <- & Hw).
  cbv zeta.
  set (run := checkPortForwarding _ _ w).
  assert (run = match ruleVerdict (select s pp) (select (other s) pp) f with
                | Some e => (w, Fail e)
                | None =>
                    (focus (Natconfig w) (clock w) pre post
                       (update s (with_ForwardPorts
                                    (<[k := ruleAccepted f]> (ForwardPorts (select s pp)))
                                    (select s pp)) pp)
                       (ruleNeedKNI f (NeedKNI w)) (NeedDHCP w), Done tt)
                end) as ->.
  { unfold run. rewrite Hw at 1. rewrite (checkPortForwarding_focus _ _ _ _ s k f) by done.
    destruct (ruleVerdict _ _ f); by rewrite <- ?Hw. }
  destruct (ruleVerdict _ _ f) as [e|]; [done|]. cbn [fst snd result].
  split; [done|]. intros _. split; [done|]. split; [done|].
  eexists. split; [apply list_lookup_middle; done|].
  by rewrite select_update, select_update_other.
Qed.

(** ** Validation of forwarding rules *)

Lemma rejected_verdict (p o : ipPort) (f : forwardedPort.t) :
  rejected (Type_ p) (KNIName p) o f → ∃ e, ruleVerdict p o f = Some e.
Proof.
  unfold rejected, ruleVerdict, destinationWithin.
  intros [Hfam|[[Hty Hnz]|[[Hnz Hout]|[Hz Hkni]]]].
  - destruct (hostPort.ipv6 _), (protocolId.ipv6 _); simpl; try done; by eexists.
  - destruct (negb (eqb _ _)); [by eexists|]. rewrite Hnz, Hty. by eexists.
  - destruct (negb (eqb _ _)); [by eexists|]. rewrite Hnz.
    destruct (Type_ p =? iPRIVATE); [by eexists|].
    destruct (hostPort.ipv6 _); rewrite Hout; by eexists.
  - destruct (negb (eqb _ _)); [by eexists|]. rewrite Hz, Hkni. by eexists.
Qed.

Lemma linkPair_select (i : nat) (pp : portPair) (s : member) :
  select s (linkPair i pp)
  = with_opposite (Some {| pairIndex := i; side := other s |})
                  (with_Type (sideType s) (select s pp)).
Proof. by destruct s. Qed.

(** The verdict on a rule of the interface at place [s] of pair [i] is one of
    the checks of the load. *)
Lemma ruleVerdict_in_loadChecks (host : string) (pps : list portPair) (i k : nat)
    (pp : portPair) (s : member) (f : forwardedPort.t) :
  pps !! i = Some pp →
  ForwardPorts (select s pp) !! k = Some f →
  ruleVerdict (select s (linkPair i pp)) (select (other s) (linkPair i pp)) f
    ∈ loadChecks host pps.
Proof.
  intros Hi Hk. apply loadChecksFrom_elem. exists i, pp. split; [done|].
  unfold pairChecks. cbn [Nat.add].
  assert (f ∈ ForwardPorts (select s (linkPair i pp))) as Hf.
  { rewrite linkPair_select. simpl. by apply list_elem_of_lookup_2 in Hk. }
  rewrite !elem_of_app. right. unfold portChecks.
  destruct s; [left | right]; right; by apply (list_elem_of_fmap_2 (ruleVerdict _ _)).
Qed.

Section Validation.
Context `{Environment}.

(** C2: a rule whose destination family differs from its protocol's, a
    rule with a non-zero destination on a private interface, a rule whose
    non-zero destination lies outside the opposite interface's subnet, and
    a rule to the unspecified address on an interface without bridge-device
    name are each answered with an error by [checkPortForwarding]; a load
    whose configuration holds such a rule returns an error, and the error a
    load returns is that of the first check that fails. *)
Theorem checkPortForwarding_rejects (fileName file : string) (decoded : Config)
    (setKniIP_ bringUp_ : bool) (w : World)
    (i k : nat) (pp : portPair) (s : member) (f : forwardedPort.t) :
  os_Open fileName = Done file →
  json_Decode file = Done decoded →
  PortPairs decoded !! i = Some pp →
  ForwardPorts (select s pp) !! k = Some f →
  rejected (sideType s) (KNIName (select s pp)) (select (other s) pp) f →
  returnsError (ReadConfig fileName setKniIP_ bringUp_ w).2
  ∧ (ReadConfig fileName setKniIP_ bringUp_ w).2
    = result (firstError (loadChecks (HostName decoded) (PortPairs decoded)))
  ∧ (∀ (w0 : World) (pp0 : portPair) (f0 : forwardedPort.t),
       PortPairs (Natconfig w0) !! i = Some pp0 →
       ForwardPorts (select s pp0) !! k = Some f0 →
       (isAddrZero f0 = false → Type_ (select s pp0) ≠ iPRIVATE →
        opposite (select s pp0) = Some {| pairIndex := i; side := other s |}) →
       rejected (Type_ (select s pp0)) (KNIName (select s pp0)) (select (other s) pp0) f0 →
       let port := {| pairIndex := i; side := s |} in
       returnsError (checkPortForwarding port {| ofPort := port; ruleIndex := k |} w0).2).
Proof.
  intros Hopen Hdec Hi Hk Hrej.
  pose proof (ReadConfig_outcome fileName file decoded setKniIP_ bringUp_ w Hopen Hdec) as Hout.
  split; [| split; [exact Hout|]].
  - rewrite Hout.
    pose proof (ruleVerdict_in_loadChecks (HostName decoded) _ i k pp s f Hi Hk) as Hin.
    destruct (rejected_verdict (select s (linkPair i pp)) (select (other s) (linkPair i pp)) f)
      as [e He].
    { rewrite !linkPair_select. exact Hrej. }
    rewrite He in Hin. destruct (firstError_elem _ _ Hin) as [e' ->]. by exists e'.
  - intros w0 pp0 f0 Hi0 Hk0 Hopp Hrej0 port.
    destruct (checkPortForwarding_outcome w0 i k s pp0 f0 Hi0 Hk0
                (λ Hz Hty, Hopp Hz (proj1 (Z.eqb_neq _ _) Hty))) as [Hr _].
    fold port in Hr. rewrite Hr.
    destruct (rejected_verdict _ _ _ Hrej0) as [e ->]. by exists e.
Qed.

End Validation.

(** ** Which check an error comes from *)

Lemma ruleVerdict_kind (p o : ipPort) (f : forwardedPort.t) (e : error) :
  ruleVerdict p o f = Some e →
  isVlanError e = false ∧ e ≠ ErrVlanKNI ∧ ∀ idx, e ≠ ErrDHCPHostName idx.
Proof.
  unfold ruleVerdict. intros He.
  repeat match type of He with
         | (if ?c then _ else _) = _ => destruct c
         end; by simplify_eq.
Qed.

Lemma vlanKNIVerdict_kind (priv pub : ipPort) (e : error) :
  vlanKNIVerdict priv pub = Some e → e = ErrVlanKNI.
Proof. unfold vlanKNIVerdict. destruct (_ || _); by intros [= <-]. Qed.

Lemma dhcpVerdict_Some (host : string) (p : ipPort) (e : error) :
  dhcpVerdict host p = Some e ↔
  e = ErrDHCPHostName (Index p)
  ∧ ipv4Subnet.addressAcquired (Subnet p) = false ∧ host = ""%string.
Proof.
  unfold dhcpVerdict. destruct (ipv4Subnet.addressAcquired _); simpl.
  - split; [done | by intros (_ & ? & _)].
  - destruct (String.eqb_spec host "") as [->|Hne]; split.
    + by intros [= <-].
    + by intros (-> & _).
    + done.
    + by intros (_ & _ & ?).
Qed.

Lemma vlanVerdict_linkPair (i : nat) (pp : portPair) :
  vlanVerdict (PrivatePort (linkPair i pp)) (PublicPort (linkPair i pp))
  = vlanVerdict (PrivatePort pp) (PublicPort pp).
Proof. reflexivity. Qed.

Lemma vlanVerdict_Some (pp : portPair) (e : error) :
  vlanVerdict (PrivatePort pp) (PublicPort pp) = Some e ↔
  vlanAsymmetric pp ∧ e = vlanError pp.
Proof.
  unfold vlanVerdict, vlanAsymmetric, vlanError.
  destruct (Z.eqb_spec (Vlan (PrivatePort pp)) 0) as [Hp|Hp],
           (Z.eqb_spec (Vlan (PublicPort pp)) 0) as [Hq|Hq]; simpl;
    (split;
     [ intros He; simplify_eq; try (split; [tauto | done])
     | intros [Ha ->]; first [done | exfalso; tauto] ]).
Qed.

Lemma vlanVerdict_None (pp : portPair) :
  vlanVerdict (PrivatePort pp) (PublicPort pp) = None ↔ ¬ vlanAsymmetric pp.
Proof.
  destruct (vlanVerdict _ _) as [e|] eqn:Hv.
  - apply vlanVerdict_Some in Hv as [Ha _]. split; [done | by intros []].
  - split; [| done]. intros _ Ha.
    assert (vlanVerdict (PrivatePort pp) (PublicPort pp) = Some (vlanError pp)) as Hs
      by by apply vlanVerdict_Some.
    congruence.
Qed.

Lemma vlanError_isVlanError (pp : portPair) : isVlanError (vlanError pp) = true.
Proof. unfold vlanError. by destruct (_ =? _). Qed.

(** An error of a pair's checks that is a VLAN agreement error comes from the
    VLAN agreement check. *)
Lemma pairChecks_vlan (host : string) (i : nat) (pp : portPair) (e : error) :
  Some e ∈ pairChecks host i pp → isVlanError e = true →
  vlanAsymmetric pp ∧ e = vlanError pp.
Proof.
  unfold pairChecks, portChecks. rewrite vlanVerdict_linkPair.
  rewrite !elem_of_app, !elem_of_cons, !list_elem_of_fmap.
  intros Hin Hv.
  destruct Hin as [[He|[He|He]]|[[He|(f & He & _)]|[He|(f & He & _)]]].
  - by apply vlanVerdict_Some.
  - symmetry in He. apply vlanKNIVerdict_kind in He as ->. done.
  - by apply elem_of_nil in He.
  - symmetry in He. apply dhcpVerdict_Some in He as (-> & _). done.
  - symmetry in He. apply ruleVerdict_kind in He as [He _]. congruence.
  - symmetry in He. apply dhcpVerdict_Some in He as (-> & _). done.
  - symmetry in He. apply ruleVerdict_kind in He as [He _]. congruence.
Qed.

(** An error of a pair's checks that is the DHCP error comes from the DHCP
    check of one of its interfaces. *)
Lemma pairChecks_dhcp (host : string) (i : nat) (pp : portPair) (idx : Z) :
  Some (ErrDHCPHostName idx) ∈ pairChecks host i pp →
  host = ""%string
  ∧ ∃ s, ipv4Subnet.addressAcquired (Subnet (select s pp)) = false
         ∧ Index (select s pp) = idx.
Proof.
  unfold pairChecks, portChecks.
  rewrite !elem_of_app, !elem_of_cons, !list_elem_of_fmap.
  intros [[He|[He|He]]|[[He|(f & He & _)]|[He|(f & He & _)]]].
  - symmetry in He. rewrite vlanVerdict_linkPair in He.
    apply vlanVerdict_Some in He as [_ He]. unfold vlanError in He. by destruct (_ =? _).
  - symmetry in He. by apply vlanKNIVerdict_kind in He.
  - by apply elem_of_nil in He.
  - symmetry in He. apply dhcpVerdict_Some in He as (He & Hacq & ->).
    split; [done|]. exists inPrivatePort. split; [done|]. by injection He.
  - symmetry in He. apply ruleVerdict_kind in He as (_ & _ & He). by destruct (He idx).
  - symmetry in He. apply dhcpVerdict_Some in He as (He & Hacq & ->).
    split; [done|]. exists inPublicPort. split; [done|]. by injection He.
  - symmetry in He. apply ruleVerdict_kind in He as (_ & _ & He). by destruct (He idx).
Qed.

(** The checks of a load, split at the interface at place [s] of pair [i]. *)
Lemma loadChecks_split (host : string) (pps : list portPair) (i : nat) (pp : portPair)
    (s : member) :
  pps !! i = Some pp →
  ∃ rest,
    loadChecks host pps
    = checksBefore host pps i pp s
      ++ portChecks host (select s (linkPair i pp)) (select (other s) (linkPair i pp))
      ++ rest.
Proof.
  intros Hi. rewrite (loadChecks_lookup host i pps pp Hi).
  unfold checksBefore, pairChecks. destruct s; cbn [select other].
  - eexists. rewrite <- !app_assoc. cbn [app]. reflexivity.
  - eexists. rewrite <- !app_assoc. cbn [app]. reflexivity.
Qed.

(** ** The load as a whole *)

Section Load.
Context `{Environment}.
Context (fileName file : string) (decoded : Config) (setKniIP_ bringUp_ : bool) (w : World).
Context (Hopen : os_Open fileName = Done file) (Hdec : json_Decode file = Done decoded).

Local Abbreviation run := (ReadConfig fileName setKniIP_ bringUp_ w).
Local Abbreviation checks := (loadChecks (HostName decoded) (PortPairs decoded)).

Lemma ReadConfig_fails_on (v : option error) (e : error) :
  v ∈ checks → v = Some e → returnsError run.2.
Proof.
  intros Hin ->. rewrite (ReadConfig_outcome _ _ _ _ _ _ Hopen Hdec).
  destruct (firstError_elem _ _ Hin) as [e' ->]. by exists e'.
Qed.

Lemma ReadConfig_error_source (e : error) :
  run.2 = Fail e →
  ∃ j pp, PortPairs decoded !! j = Some pp ∧ Some e ∈ pairChecks (HostName decoded) j pp.
Proof.
  rewrite (ReadConfig_outcome _ _ _ _ _ _ Hopen Hdec).
  destruct (firstError checks) as [e'|] eqn:Hf; [| done]. intros [= ->].
  apply firstError_Some in Hf. by apply loadChecksFrom_elem in Hf.
Qed.

(** The error of the first check that fails, all checks before it passing. *)
Lemma ReadConfig_first (before after : list (option error)) (e : error) :
  checks = before ++ Some e :: after → firstError before = None → run.2 = Fail e.
Proof.
  intros Hsplit Hbefore. rewrite (ReadConfig_outcome _ _ _ _ _ _ Hopen Hdec), Hsplit.
  rewrite firstError_middle; [done|]. by apply firstError_None.
Qed.

(** The store after a successful load. *)
Lemma ReadConfig_final :
  run.2 = Done tt →
  firstError checks = None
  ∧ (∀ j pp, PortPairs decoded !! j = Some pp →
       ∃ pp', PortPairs (Natconfig run.1) !! j = Some pp'
              ∧ ∀ s, ForwardPorts (select s pp')
                     = map ruleAccepted (ForwardPorts (select s pp)))
  ∧ (∀ j pp s, PortPairs decoded !! j = Some pp →
       ipv4Subnet.addressAcquired (Subnet (select s pp)) = false → NeedDHCP run.1 = true).
Proof.
  intros Hdone. split.
  { rewrite (ReadConfig_outcome _ _ _ _ _ _ Hopen Hdec) in Hdone.
    by destruct (firstError checks). }
  rewrite (ReadConfig_run _ _ _ _ _ _ Hopen Hdec) in *.
  pose proof (checkPairs_success (HostName decoded) 0 (PortPairs decoded)
                (NeedKNI w) (NeedDHCP w)) as Hs.
  destruct (checkPairs _ _ _ _ _) as [[[pps' kni'] dhcp'] [e|]]; [done|].
  destruct (Hs eq_refl) as (Hpairs & _ & Hdhcp). cbn [fst snd] in *. split.
  - intros j pp Hj. destruct (Hpairs j pp Hj) as (pp' & Hj' & Hfs). by exists pp'.
  - exact Hdhcp.
Qed.

(** C4: a load whose configuration holds a pair with exactly one tagged
    interface returns an error; the error is the VLAN agreement error of
    that pair, in the direction of its asymmetry, when the checks of the
    pairs before it pass; a VLAN agreement error is only returned for a
    pair with exactly one tagged interface; and the check on a pair answers
    with that error if and only if exactly one of its two tags is
    non-zero, so pairs with both tags zero or both non-zero pass it. *)
Theorem ReadConfig_vlan_asymmetry (i : nat) (pp : portPair) :
  PortPairs decoded !! i = Some pp →
  (vlanAsymmetric pp → returnsError run.2)
  ∧ (firstError (loadChecks (HostName decoded) (take i (PortPairs decoded))) = None →
     vlanAsymmetric pp → run.2 = Fail (vlanError pp))
  ∧ (∀ e, run.2 = Fail e → isVlanError e = true →
       ∃ j ppj, PortPairs decoded !! j = Some ppj ∧ vlanAsymmetric ppj ∧ e = vlanError ppj)
  ∧ (∀ (w0 : World) (pp0 : portPair),
       PortPairs (Natconfig w0) !! i = Some pp0 →
       vlanAsymmetric pp0 ↔
       ∃ e, (ReadConfig_pair i w0).2 = Fail e ∧ isVlanError e = true).
Proof.
  intros Hi.
  assert (vlanAsymmetric pp →
          ∃ after, checks
                   = loadChecks (HostName decoded) (take i (PortPairs decoded))
                     ++ Some (vlanError pp) :: after) as Hsplit.
  { intros Ha. rewrite (loadChecks_lookup _ i _ pp Hi).
    unfold pairChecks. rewrite vlanVerdict_linkPair.
    rewrite (proj2 (vlanVerdict_Some pp (vlanError pp))) by done.
    cbn [app]. by eexists. }
  split; [| split; [| split]].
  - intros Ha. destruct (Hsplit Ha) as [after Hs].
    apply (ReadConfig_fails_on (Some (vlanError pp)) (vlanError pp)); [| done].
    rewrite Hs. apply elem_of_app. right. left.
  - intros Hbefore Ha. destruct (Hsplit Ha) as [after Hs].
    by apply (ReadConfig_first _ after _ Hs).
  - intros e He Hv. destruct (ReadConfig_error_source e He) as (j & ppj & Hj & Hin).
    exists j, ppj. split; [done|]. by apply (pairChecks_vlan (HostName decoded) j).
  - intros w0 pp0 Hi0. rewrite (ReadConfig_pair_outcome w0 i pp0 Hi0).
    assert (∃ rest, pairChecks (HostName (Natconfig w0)) i pp0
                    = vlanVerdict (PrivatePort pp0) (PublicPort pp0) :: rest)
      as [rest Hrest] by by eexists.
    rewrite Hrest. cbn [firstError].
    destruct (vlanVerdict (PrivatePort pp0) (PublicPort pp0)) as [e|] eqn:Hv.
    + apply vlanVerdict_Some in Hv as [Ha ->]. split; [| done].
      intros _. exists (vlanError pp0). split; [done | apply vlanError_isVlanError].
    + apply vlanVerdict_None in Hv. split; [done|].
      intros (e & He & Hve). exfalso.
      destruct (firstError rest) as [e'|] eqn:Hf; cbn [result] in He; [| done].
      injection He as ->. apply firstError_Some in Hf.
      assert (Some e ∈ pairChecks (HostName (Natconfig w0)) i pp0) as Hin
        by (rewrite Hrest; by right).
      by destruct (pairChecks_vlan _ _ _ _ Hin Hve).
Qed.

Lemma ruleVerdict_None_zero (p o : ipPort) (f : forwardedPort.t) :
  ruleVerdict p o f = None → isAddrZero f = true →
  hostPort.Port (forwardedPort.Destination f) = forwardedPort.Port f.
Proof.
  unfold ruleVerdict. intros Hv Hz. rewrite Hz in Hv.
  destruct (negb (eqb _ _)); [done|].
  destruct (String.eqb _ _); [done|].
  destruct (Z.eqb_spec (hostPort.Port (forwardedPort.Destination f)) (forwardedPort.Port f));
    done.
Qed.

Lemma ruleVerdict_zero_mismatch (p o : ipPort) (f : forwardedPort.t) :
  isAddrZero f = true →
  hostPort.Port (forwardedPort.Destination f) ≠ forwardedPort.Port f →
  ∃ e, ruleVerdict p o f = Some e.
Proof.
  intros Hz Hne. destruct (ruleVerdict p o f) as [e|] eqn:Hv; [by exists e|].
  by destruct (Hne (ruleVerdict_None_zero p o f Hv Hz)).
Qed.

Lemma ruleAccepted_default (f : forwardedPort.t) :
  isAddrZero f = false → hostPort.Port (forwardedPort.Destination f) = 0 →
  ruleAccepted f = with_DestinationPort (forwardedPort.Port f) f.
Proof. intros Hz Hp. unfold ruleAccepted. by rewrite Hz, Hp. Qed.

(** C5: a rule to the unspecified address whose destination port differs
    from its forwarded port makes the check, and with it the load, return
    an error; after a successful load such a rule has equal ports, and a
    rule with a concrete destination address and destination port zero
    stands in the configuration with its destination port set to its
    forwarded port, as the check on it leaves it. *)
Theorem forwarding_rule_ports (i k : nat) (pp : portPair) (s : member)
    (f : forwardedPort.t) :
  PortPairs decoded !! i = Some pp →
  ForwardPorts (select s pp) !! k = Some f →
  (isAddrZero f = true →
   hostPort.Port (forwardedPort.Destination f) ≠ forwardedPort.Port f →
   returnsError run.2)
  ∧ (run.2 = Done tt →
     (isAddrZero f = true →
      hostPort.Port (forwardedPort.Destination f) = forwardedPort.Port f)
     ∧ ∃ pp' f',
         PortPairs (Natconfig run.1) !! i = Some pp'
         ∧ ForwardPorts (select s pp') !! k = Some f'
         ∧ f' = ruleAccepted f
         ∧ (isAddrZero f = false →
            hostPort.Port (forwardedPort.Destination f) = 0 →
            f' = with_DestinationPort (forwardedPort.Port f) f
            ∧ hostPort.Port (forwardedPort.Destination f') = forwardedPort.Port f'))
  ∧ (∀ (w0 : World) (pp0 : portPair) (f0 : forwardedPort.t),
       PortPairs (Natconfig w0) !! i = Some pp0 →
       ForwardPorts (select s pp0) !! k = Some f0 →
       (isAddrZero f0 = false → Type_ (select s pp0) ≠ iPRIVATE →
        opposite (select s pp0) = Some {| pairIndex := i; side := other s |}) →
       let port := {| pairIndex := i; side := s |} in
       let run0 := checkPortForwarding port {| ofPort := port; ruleIndex := k |} w0 in
       (isAddrZero f0 = true →
        hostPort.Port (forwardedPort.Destination f0) ≠ forwardedPort.Port f0 →
        returnsError run0.2)
       ∧ (isAddrZero f0 = false →
          hostPort.Port (forwardedPort.Destination f0) = 0 →
          run0.2 = Done tt →
          ∃ pp',
            PortPairs (Natconfig run0.1) !! i = Some pp'
            ∧ ForwardPorts (select s pp') !! k
              = Some (with_DestinationPort (forwardedPort.Port f0) f0))).
Proof.
  intros Hi Hk.
  pose proof (ruleVerdict_in_loadChecks (HostName decoded) _ i k pp s f Hi Hk) as Hin.
  split; [| split].
  - intros Hz Hne.
    destruct (ruleVerdict_zero_mismatch (select s (linkPair i pp))
                (select (other s) (linkPair i pp)) f Hz Hne) as [e He].
    by apply (ReadConfig_fails_on _ e Hin).
  - intros Hdone. destruct (ReadConfig_final Hdone) as (Hnone & Hpairs & _). split.
    + intros Hz. eapply ruleVerdict_None_zero; [| done].
      by apply (proj1 (firstError_None _) Hnone).
    + destruct (Hpairs i pp Hi) as (pp' & Hi' & Hfs).
      exists pp', (ruleAccepted f). split; [done|]. split.
      { by rewrite Hfs, list_lookup_fmap, Hk. }
      split; [done|]. intros Hz Hp. by rewrite ruleAccepted_default.
  - intros w0 pp0 f0 Hi0 Hk0 Hopp port run0.
    destruct (checkPortForwarding_outcome w0 i k s pp0 f0 Hi0 Hk0
                (λ Hz Hty, Hopp Hz (proj1 (Z.eqb_neq _ _) Hty)))
      as [Hr Hstate].
    fold port in Hr, Hstate. fold run0 in Hr, Hstate. split.
    + intros Hz Hne. rewrite Hr.
      destruct (ruleVerdict_zero_mismatch (select s pp0) (select (other s) pp0) f0 Hz Hne)
        as [e ->]. by exists e.
    + intros Hz Hp Hdone. destruct (Hstate Hdone) as (_ & _ & pp' & Hi' & _ & Hsel).
      exists pp'. split; [done|]. rewrite Hsel. cbn [ForwardPorts with_ForwardPorts].
      rewrite list_lookup_insert_eq by (by apply lookup_lt_Some in Hk0).
      by rewrite ruleAccepted_default.
Qed.

(** C6: for an interface without acquired address the DHCP check answers
    with the error that carries the interface's index when the host name
    is empty, and the load returns an error; it returns that very error
    when the checks before the interface pass, and the error is only ever
    returned with an empty host name for an interface without address.
    With a host name the check passes, marks DHCP as needed, and a load
    that succeeds ends with DHCP marked as needed. *)
Theorem ReadConfig_dhcp_host_name (i : nat) (pp : portPair) (s : member) :
  PortPairs decoded !! i = Some pp →
  ipv4Subnet.addressAcquired (Subnet (select s pp)) = false →
  (HostName decoded = ""%string →
     returnsError run.2
     ∧ (firstError (checksBefore (HostName decoded) (PortPairs decoded) i pp s) = None →
        run.2 = Fail (ErrDHCPHostName (Index (select s pp)))))
  ∧ (∀ idx, run.2 = Fail (ErrDHCPHostName idx) →
       HostName decoded = ""%string
       ∧ ∃ j ppj sj,
           PortPairs decoded !! j = Some ppj
           ∧ ipv4Subnet.addressAcquired (Subnet (select sj ppj)) = false
           ∧ Index (select sj ppj) = idx)
  ∧ (HostName decoded ≠ ""%string → run.2 = Done tt → NeedDHCP run.1 = true)
  ∧ (∀ (w0 : World) (pp0 : portPair),
       PortPairs (Natconfig w0) !! i = Some pp0 →
       opposite (select s pp0) = Some {| pairIndex := i; side := other s |} →
       ipv4Subnet.addressAcquired (Subnet (select s pp0)) = false →
       let run0 := ReadConfig_port i {| pairIndex := i; side := s |} w0 in
       (HostName (Natconfig w0) = ""%string →
        run0 = (w0, Fail (ErrDHCPHostName (Index (select s pp0)))))
       ∧ (HostName (Natconfig w0) ≠ ""%string →
          NeedDHCP run0.1 = true ∧ ∀ idx, run0.2 ≠ Fail (ErrDHCPHostName idx))).
Proof.
  intros Hi Hacq. split; [| split; [| split]].
  - intros Hhost.
    destruct (loadChecks_split (HostName decoded) _ i pp s Hi) as [rest Hsplit].
    assert (dhcpVerdict (HostName decoded) (select s (linkPair i pp))
            = Some (ErrDHCPHostName (Index (select s pp)))) as Hv.
    { apply dhcpVerdict_Some. rewrite linkPair_select. by cbn. }
    unfold portChecks in Hsplit. rewrite Hv in Hsplit. cbn [app] in Hsplit. split.
    + apply (ReadConfig_fails_on (Some (ErrDHCPHostName (Index (select s pp))))
               (ErrDHCPHostName (Index (select s pp)))); [| done].
      rewrite Hsplit. apply elem_of_app. right. left.
    + intros Hbefore. by apply (ReadConfig_first _ _ _ Hsplit).
  - intros idx He. destruct (ReadConfig_error_source _ He) as (j & ppj & Hj & Hin).
    destruct (pairChecks_dhcp _ _ _ _ Hin) as (Hhost & sj & Hacqj & Hidx).
    split; [done|]. by exists j, ppj, sj.
  - intros _ Hdone. destruct (ReadConfig_final Hdone) as (_ & _ & Hdhcp).
    by apply (Hdhcp i pp s).
  - intros w0 pp0 Hi0 Hopp Hacq0 run0.
    destruct (world_focus w0 i pp0 Hi0) as (pre & post & <- & Hw).
    assert (run0 =
            let '(p', kni', dhcp', r) :=
              checkPort (HostName (Natconfig w0)) (select s pp0) (select (other s) pp0)
                        (NeedKNI w0) (NeedDHCP w0) in
            (focus (Natconfig w0) (clock w0) pre post (update s p' pp0) kni' dhcp',
             match r with
             | Some e => Fail e
             | None => Done {| pairIndex := length pre; side := inPublicPort |}
             end)) as Hrun.
    { unfold run0. rewrite Hw at 1. by rewrite ReadConfig_port_focus. }
    rewrite Hrun. clear Hrun. unfold checkPort. rewrite Hacq0. cbn [negb andb]. split.
    + intros ->. cbn [String.eqb]. by rewrite update_select, <- Hw.
    + intros Hne. rewrite (String_eqb_false _ _ Hne).
      pose proof (checkRules_error (select s pp0) (select (other s) pp0)
                    (ForwardPorts (select s pp0))
                    (if negb (String.eqb (KNIName (select s pp0)) "") then true
                     else NeedKNI w0)) as He.
      destruct (checkRules _ _ _ _) as [[fs' kni'] [e|]]; cbn [fst snd] in *.
      * split; [done|]. intros idx [= ->]. symmetry in He.
        apply firstError_Some, list_elem_of_fmap in He as (f & Hf & _).
        symmetry in Hf. apply ruleVerdict_kind in Hf as (_ & _ & Hf). by destruct (Hf idx).
      * split; [done | done].
Qed.

End Load.

(** ** The pairs after a successful load are linked *)

Lemma checkPort_links (host : string) (p o : ipPort) (kni dhcp : bool) :
  let p' := (checkPort host p o kni dhcp).1.1.1 in
  opposite p' = opposite p ∧ Type_ p' = Type_ p.
Proof.
  unfold checkPort. destruct (negb _ && _); [done|].
  destruct (checkRules _ _ _ _) as [[fs' kni'] [e|]]; [done|].
  by destruct (negb (bool_decide _)).
Qed.

Lemma checkPair_links (host : string) (i : nat) (pp : portPair) (kni dhcp : bool) (s : member) :
  let pp' := (checkPair host i pp kni dhcp).1.1.1 in
  opposite (select s pp') = Some {| pairIndex := i; side := other s |}
  ∧ Type_ (select s pp') = sideType s.
Proof.
  unfold checkPair. set (pp1 := linkPair i pp).
  assert (∀ s0, opposite (select s0 pp1) = Some {| pairIndex := i; side := other s0 |}
                ∧ Type_ (select s0 pp1) = sideType s0) as Hlink by by intros [].
  destruct (vlanVerdict _ _); [apply Hlink|].
  destruct (vlanKNIVerdict _ _); [apply Hlink|].
  pose proof (checkPort_links host (PrivatePort pp1) (PublicPort pp1) kni dhcp) as Hpriv.
  destruct (checkPort host (PrivatePort pp1) (PublicPort pp1) kni dhcp)
    as [[[priv' kni1] dhcp1] r1]. cbn [fst snd] in Hpriv.
  destruct Hpriv as [Ho1 Ht1].
  destruct r1 as [e|].
  { destruct s; simpl; [by rewrite Ho1, Ht1 | done]. }
  pose proof (checkPort_links host (PublicPort pp1) priv' kni1 dhcp1) as Hpub.
  destruct (checkPort host (PublicPort pp1) priv' kni1 dhcp1) as [[[pub' kni2] dhcp2] r2].
  cbn [fst snd] in *. destruct Hpub as [Ho2 Ht2].
  destruct s; simpl; [by rewrite Ho1, Ht1 | by rewrite Ho2, Ht2].
Qed.

Lemma checkPairs_links (host : string) (i : nat) (pps : list portPair) (kni dhcp : bool) :
  (checkPairs host i pps kni dhcp).2 = None →
  ∀ j pp' s, (checkPairs host i pps kni dhcp).1.1.1 !! j = Some pp' →
    opposite (select s pp') = Some {| pairIndex := (i + j)%nat; side := other s |}
    ∧ Type_ (select s pp') = sideType s.
Proof.
  revert i kni dhcp. induction pps as [|pp pps IH]; intros i kni dhcp; cbn [checkPairs].
  { intros _ j pp' s Hj. cbn [fst snd] in Hj. by rewrite lookup_nil in Hj. }
  pose proof (λ s, checkPair_links host i pp kni dhcp s) as Hl.
  destruct (checkPair host i pp kni dhcp) as [[[pp1 kni1] dhcp1] [e|]]; [done|].
  specialize (IH (S i) kni1 dhcp1).
  destruct (checkPairs host (S i) pps kni1 dhcp1) as [[[pps' kni2] dhcp2] r].
  cbn [fst snd] in *. intros ->. intros [|j] pp' s Hj; cbn in Hj.
  - injection Hj as <-. rewrite Nat.add_0_r. apply Hl.
  - replace (i + S j)%nat with (S i + j)%nat by lia. by apply IH.
Qed.

(** After a successful load every interface is typed by its place in its pair
    and points at the other interface of the pair. *)
Lemma ReadConfig_links `{Environment} (fileName file : string) (decoded : Config)
    (setKniIP_ bringUp_ : bool) (w : World) (j : nat) (pp' : portPair) (s : member) :
  os_Open fileName = Done file →
  json_Decode file = Done decoded →
  (ReadConfig fileName setKniIP_ bringUp_ w).2 = Done tt →
  PortPairs (Natconfig (ReadConfig fileName setKniIP_ bringUp_ w).1) !! j = Some pp' →
  opposite (select s pp') = Some {| pairIndex := j; side := other s |}
  ∧ Type_ (select s pp') = sideType s.
Proof.
  intros Hopen Hdec. rewrite (ReadConfig_run _ _ _ _ _ _ Hopen Hdec).
  pose proof (checkPairs_links (HostName decoded) 0 (PortPairs decoded) (NeedKNI w) (NeedDHCP w))
    as Hl.
  destruct (checkPairs _ _ _ _ _) as [[[pps' kni'] dhcp'] [e|]]; [done|].
  cbn [fst snd] in *. intros _ Hj. by apply (Hl eq_refl j pp' s).
Qed.

(** ** Static forwarding entries *)

Lemma select_other_update (s : member) (p : ipPort) (pp : portPair) :
  select s (update (other s) p pp) = select s pp.
Proof. by destruct s. Qed.

Section StaticEntries.
Context (cfg : Config) (clk : Z) (pre post : list portPair).

Local Abbreviation W := (focus cfg clk pre post).
Local Abbreviation at_ s := {| pairIndex := length pre; side := s |}.

Lemma tableStore_focus s (protocol : Z) (key value : endpoint) (t : gmap endpoint endpoint)
    pp kni dhcp :
  translationTable (select s pp) !! Z.to_nat protocol = Some t →
  tableStore (at_ s) protocol key value (W pp kni dhcp)
  = (W (update s (with_translationTable
                    (<[Z.to_nat protocol := <[key := value]> t]>
                       (translationTable (select s pp))) (select s pp)) pp) kni dhcp,
     Done tt).
Proof.
  intros Ht. unfold tableStore. rewrite M_bind_run, loadPort_focus. cbv beta iota.
  rewrite Ht. unfold modify. by rewrite setPort_focus.
Qed.

Lemma portmapStore_focus s (ipv6 : bool) (protocol slot : Z) (entry : portMapEntry)
    (slots : list portMapEntry) pp kni dhcp :
  getPortmap (select s pp) ipv6 protocol = Done slots →
  (Z.to_nat slot < length slots)%nat →
  portmapStore (at_ s) ipv6 protocol slot entry (W pp kni dhcp)
  = (W (update s
          (if ipv6
           then with_portmap6 (<[Z.to_nat protocol := <[Z.to_nat slot := entry]> slots]>
                                 (portmap6 (select s pp))) (select s pp)
           else with_portmap (<[Z.to_nat protocol := <[Z.to_nat slot := entry]> slots]>
                                (portmap (select s pp))) (select s pp)) pp) kni dhcp,
     Done tt).
Proof.
  intros Hslots Hlt. unfold portmapStore, lift.
  rewrite M_bind_run, loadPort_focus. cbv beta iota.
  rewrite M_bind_run, Hslots. cbv beta iota.
  destruct (lookup_lt_is_Some_2 slots (Z.to_nat slot) Hlt) as [x ->].
  unfold modify. by rewrite setPort_focus.
Qed.

Lemma getPortmap_insert (p : ipPort) (ipv6 : bool) (protocol : Z)
    (slots slots' : list portMapEntry) :
  getPortmap p ipv6 protocol = Done slots →
  getPortmap (if ipv6
              then with_portmap6 (<[Z.to_nat protocol := slots']> (portmap6 p)) p
              else with_portmap (<[Z.to_nat protocol := slots']> (portmap p)) p)
             ipv6 protocol
  = Done slots'.
Proof.
  unfold getPortmap. destruct ipv6; cbn.
  - destruct (portmap6 p !! Z.to_nat protocol) eqn:Hl; [| done]. intros _.
    by rewrite list_lookup_insert_eq by (by apply lookup_lt_Some in Hl).
  - destruct (portmap p !! Z.to_nat protocol) eqn:Hl; [| done]. intros _.
    by rewrite list_lookup_insert_eq by (by apply lookup_lt_Some in Hl).
Qed.


Lemma enableStaticPortForward_focus s k f pp kni dhcp
    (tp to : gmap endpoint endpoint) (slots : list portMapEntry) :
  let p := select s pp in
  let o := select (other s) pp in
  let proto := protocolId.id (forwardedPort.Protocol f) in
  let v6 := protocolId.ipv6 (forwardedPort.Protocol f) in
  ForwardPorts p !! k = Some f →
  opposite p = Some (at_ (other s)) →
  translationTable p !! Z.to_nat proto = Some tp →
  translationTable o !! Z.to_nat proto = Some to →
  (Type_ p = iPUBLIC →
   getPortmap p v6 proto = Done slots
   ∧ (Z.to_nat (forwardedPort.Port f) < length slots)%nat) →
  ∃ pp',
    enableStaticPortForward (at_ s) {| ofPort := at_ s; ruleIndex := k |} (W pp kni dhcp)
    = (W pp' kni dhcp, Done tt)
    ∧ translationTable (select s pp') !! Z.to_nat proto
      = Some (<[forwardKey p f := forwardValue f]> tp)
    ∧ translationTable (select (other s) pp') !! Z.to_nat proto
      = Some (if destinationNonZero f then <[forwardValue f := forwardKey p f]> to else to)
    ∧ (destinationNonZero f = false → select (other s) pp' = o)
    ∧ (Type_ p = iPUBLIC →
       getPortmap (select s pp') v6 proto
       = Done (<[Z.to_nat (forwardedPort.Port f) := staticEntry clk]> slots))
    ∧ (Type_ p ≠ iPUBLIC →
       portmap (select s pp') = portmap p ∧ portmap6 (select s pp') = portmap6 p).
Proof.
  intros p o proto v6 Hf Hopp Htp Hto Hslots.
  assert (lookup_tp : ∀ (tt : list (gmap endpoint endpoint)) (t t' : gmap endpoint endpoint),
            tt !! Z.to_nat proto = Some t → <[Z.to_nat proto := t']> tt !! Z.to_nat proto = Some t').
  { intros tt t t' Hl. by rewrite list_lookup_insert_eq by (by apply lookup_lt_Some in Hl). }
  (* the store after the forward and the reverse entry *)
  set (p1 := with_translationTable
               (<[Z.to_nat proto := <[forwardKey p f := forwardValue f]> tp]>
                  (translationTable p)) p).
  set (pp1 := update s p1 pp).
  set (pp2 := if destinationNonZero f
              then update (other s)
                     (with_translationTable
                        (<[Z.to_nat proto := <[forwardValue f := forwardKey p f]> to]>
                           (translationTable o)) o) pp1
              else pp1).
  assert (select s pp2 = p1) as Hsel2.
  { unfold pp2, pp1. destruct (destinationNonZero f);
      by rewrite ?select_other_update, select_update. }
  assert (translationTable (select (other s) pp2) !! Z.to_nat proto
          = Some (if destinationNonZero f
                  then <[forwardValue f := forwardKey p f]> to else to)) as Hopp2.
  { unfold pp2, pp1. destruct (destinationNonZero f).
    - rewrite select_update. cbn [translationTable with_translationTable].
      by apply (lookup_tp _ to).
    - by rewrite select_update_other. }
  assert (∀ prog : M unit,
            (tableStore (at_ s) proto (forwardKey p f) (forwardValue f)
             ≫= λ _, (if destinationNonZero f
                      then deref (opposite p)
                           ≫= λ opp, tableStore opp proto (forwardValue f) (forwardKey p f)
                      else mret tt)
             ≫= λ _, prog) (W pp kni dhcp)
            = prog (W pp2 kni dhcp)) as Hstores.
  { intros prog. rewrite M_bind_run, (tableStore_focus s _ _ _ tp) by done.
    cbv beta iota. fold p p1 pp1. rewrite M_bind_run. unfold pp2.
    destruct (destinationNonZero f).
    - rewrite M_bind_run, Hopp. cbn [deref]. rewrite mret_run. cbv beta iota.
      rewrite (tableStore_focus (other s) _ _ _ to)
        by (unfold pp1; by rewrite select_update_other).
      unfold pp1 at 1 2. rewrite !select_update_other. done.
    - by rewrite mret_run. }
  assert (destinationNonZero f = false → select (other s) pp2 = o) as Hsame.
  { intros Hz. unfold pp2, pp1. rewrite Hz. by rewrite select_update_other. }
  assert (enableStaticPortForward (at_ s) {| ofPort := at_ s; ruleIndex := k |} (W pp kni dhcp)
          = (if Type_ p =? iPUBLIC
             then gets clock ≫= λ now, portmapStore (at_ s) v6 proto (forwardedPort.Port f)
                                                    (staticEntry now)
             else mret tt) (W pp2 kni dhcp)) as Hrun.
  { unfold enableStaticPortForward, when.
    rewrite M_bind_run, (loadFP_focus _ _ _ _ s k f) by done. cbv beta iota.
    rewrite M_bind_run, loadPort_focus. cbv beta iota. fold p.
    rewrite <- Hstores. unfold forwardKey, forwardValue, destinationNonZero, proto, v6.
    by destruct (protocolId.ipv6 (forwardedPort.Protocol f)). }
  rewrite Hrun. clear Hrun Hstores.
  destruct (Z.eqb_spec (Type_ p) iPUBLIC) as [Hpub|Hpriv].
  - destruct (Hslots Hpub) as [Hget Hlt].
    rewrite M_bind_run, gets_run. cbv beta iota.
    rewrite (portmapStore_focus s v6 proto _ _ slots)
      by (rewrite ?Hsel2; done).
    eexists. split; [reflexivity|]. rewrite select_update, select_update_other, Hsel2.
    split; [| split; [done | split; [done | split; [| done]]]].
    + destruct v6; cbn; by apply (lookup_tp _ tp).
    + intros _. by apply (getPortmap_insert p1 v6 proto slots).
  - exists pp2. rewrite mret_run. split; [done|]. rewrite Hsel2.
    split; [| split; [done | split; [done | split; [done|]]]].
    + by apply (lookup_tp _ tp).
    + done.
Qed.

End StaticEntries.

(** Where the tables and the slot are there, the installation does what it
    is meant to. In a store where the two interfaces of the pair are linked,
    their translation tables for the rule's protocol exist and, on a public
    interface, the port's slot exists, [enableStaticPortForward] returns
    normally and leaves: in the owning interface's table for the protocol the
    mapping from (interface subnet address, forwarded port) to (destination
    address, destination port); in the opposite interface's table the reverse
    mapping when the destination address is non-zero, and the opposite
    interface unchanged when it is zero; and, when the owning interface is
    public, the port's slot marked static with FIN count and termination
    direction zero, the port maps being untouched otherwise. *)
Theorem enableStaticPortForward_installs (w : World) (i k : nat) (s : member)
    (pp : portPair) (f : forwardedPort.t)
    (tp to : gmap endpoint endpoint) (slots : list portMapEntry) :
  let port := {| pairIndex := i; side := s |} in
  let p := select s pp in
  let o := select (other s) pp in
  let proto := protocolId.id (forwardedPort.Protocol f) in
  let v6 := protocolId.ipv6 (forwardedPort.Protocol f) in
  PortPairs (Natconfig w) !! i = Some pp →
  ForwardPorts p !! k = Some f →
  opposite p = Some {| pairIndex := i; side := other s |} →
  translationTable p !! Z.to_nat proto = Some tp →
  translationTable o !! Z.to_nat proto = Some to →
  (Type_ p = iPUBLIC →
   getPortmap p v6 proto = Done slots
   ∧ (Z.to_nat (forwardedPort.Port f) < length slots)%nat) →
  let run := enableStaticPortForward port {| ofPort := port; ruleIndex := k |} w in
  run.2 = Done tt
  ∧ ∃ pp',
      PortPairs (Natconfig run.1) !! i = Some pp'
      ∧ (∃ t, translationTable (select s pp') !! Z.to_nat proto = Some t
              ∧ t = <[forwardKey p f := forwardValue f]> tp
              ∧ t !! forwardKey p f = Some (forwardValue f))
      ∧ (destinationNonZero f = true →
         ∃ t, translationTable (select (other s) pp') !! Z.to_nat proto = Some t
              ∧ t = <[forwardValue f := forwardKey p f]> to
              ∧ t !! forwardValue f = Some (forwardKey p f))
      ∧ (destinationNonZero f = false → select (other s) pp' = o)
      ∧ (Type_ p = iPUBLIC →
         ∃ slots' entry,
           getPortmap (select s pp') v6 proto = Done slots'
           ∧ slots' = <[Z.to_nat (forwardedPort.Port f) := entry]> slots
           ∧ slots' !! Z.to_nat (forwardedPort.Port f) = Some entry
           ∧ static entry = true ∧ finCount entry = 0 ∧ terminationDirection entry = 0
           ∧ lastused entry = clock w)
      ∧ (Type_ p ≠ iPUBLIC →
         portmap (select s pp') = portmap p ∧ portmap6 (select s pp') = portmap6 p).
Proof.
  intros port p o proto v6 Hi Hk Hopp Htp Hto Hslots run.
  destruct (world_focus w i pp Hi) as (pre & post & <- & Hw).
  destruct (enableStaticPortForward_focus (Natconfig w) (clock w) pre post s k f pp
              (NeedKNI w) (NeedDHCP w) tp to slots Hk Hopp Htp Hto Hslots)
    as (pp' & Hrun & Hfwd & Hrev & Hsame & Hpub & Hpriv).
  rewrite <- Hw in Hrun. fold port in Hrun. fold run in Hrun. rewrite Hrun. cbn [fst snd].
  split; [done|]. exists pp'. split; [by apply list_lookup_middle|].
  split; [| split; [| split; [done | split; [| done]]]].
  - eexists. split; [exact Hfwd|]. split; [done|]. apply lookup_insert_eq.
  - intros Hnz. rewrite Hnz in Hrev. eexists. split; [exact Hrev|].
    split; [done|]. apply lookup_insert_eq.
  - intros Hty. destruct (Hslots Hty) as [_ Hlt].
    exists (<[Z.to_nat (forwardedPort.Port f) := staticEntry (clock w)]> slots),
           (staticEntry (clock w)).
    split; [by apply Hpub|]. split; [done|].
    split; [by apply list_lookup_insert_eq|]. done.
Qed.

(** What the allocation of lines 612-614 of [InitFlows] leaves: both
    interfaces of the pair have a translation table for each of the 256
    protocol numbers, the public interface has a slot array of [portEnd]
    entries for TCP and for UDP in both families, and nothing else changes.
    So for a linked pair the installation of a static entry finds its tables
    and its slot for every rule whose protocol is one [protocolIdLookup]
    yields and whose port is below [portEnd]. *)
Lemma allocation_prepares `{Environment} (w : World) (i : nat) (pp : portPair) :
  PortPairs (Natconfig w) !! i = Some pp →
  let private := {| pairIndex := i; side := inPrivatePort |} in
  let public := {| pairIndex := i; side := inPublicPort |} in
  let run := (allocateLookupMap private;; allocateLookupMap public;;
              allocatePublicPortPortMap public) w in
  run.2 = Done tt
  ∧ ∃ pp',
      PortPairs (Natconfig run.1) !! i = Some pp'
      ∧ (∀ s, ForwardPorts (select s pp') = ForwardPorts (select s pp)
              ∧ opposite (select s pp') = opposite (select s pp)
              ∧ Type_ (select s pp') = Type_ (select s pp)
              ∧ Subnet (select s pp') = Subnet (select s pp)
              ∧ Subnet6 (select s pp') = Subnet6 (select s pp)
              ∧ ∀ protocol, 0 ≤ protocol < 256 →
                  translationTable (select s pp') !! Z.to_nat protocol = Some ∅)
      ∧ (∀ (ipv6 : bool) (protocol : Z),
           protocol = TCPNumber ∨ protocol = UDPNumber →
           getPortmap (PublicPort pp') ipv6 protocol
           = Done (replicate portEnd zeroPortMapEntry)).
Proof.
  intros Hi private public run.
  destruct (world_focus w i pp Hi) as (pre & post & <- & Hw).
  assert (∃ pp', run = (focus (Natconfig w) (clock w) pre post pp' (NeedKNI w) (NeedDHCP w),
                        Done tt)
                 ∧ (∀ s, translationTable (select s pp') = replicate 256 ∅
                         ∧ ForwardPorts (select s pp') = ForwardPorts (select s pp)
                         ∧ opposite (select s pp') = opposite (select s pp)
                         ∧ Type_ (select s pp') = Type_ (select s pp)
                         ∧ Subnet (select s pp') = Subnet (select s pp)
                         ∧ Subnet6 (select s pp') = Subnet6 (select s pp))
                 ∧ ∀ (ipv6 : bool) (protocol : Z),
                     protocol = TCPNumber ∨ protocol = UDPNumber →
                     getPortmap (PublicPort pp') ipv6 protocol
                     = Done (replicate portEnd zeroPortMapEntry))
    as (pp' & -> & Hfields & Hslots).
  { unfold run, allocateLookupMap, allocatePublicPortPortMap, private, public.
    eexists. split; [| split].
    - rewrite Hw at 1.
      do 3 (rewrite M_bind_run, modifyPort_focus; cbv beta iota).
      rewrite modifyPort_focus. reflexivity.
    - by intros [].
    - by intros [] protocol [-> | ->]. }
  cbn [fst snd]. split; [done|]. exists pp'.
  split; [by apply list_lookup_middle|]. split; [| exact Hslots].
  intros s. destruct (Hfields s) as (Htt & ? & ? & ? & ? & ?).
  repeat (split; [done|]).
  intros protocol Hp. rewrite Htt. apply lookup_replicate_2. lia.
Qed.

Lemma enableStaticPortForward_installs_witness :
  let w := allocated forwardingConfig in
  let port := {| pairIndex := 0; side := inPublicPort |} in
  (enableStaticPortForward port {| ofPort := port; ruleIndex := 0 |} w).2 = Done tt.
Proof.
  refine (proj1 (enableStaticPortForward_installs (allocated forwardingConfig) 0 0 inPublicPort
                   (firstPair (allocated forwardingConfig))
                   (rule4 8080 0xC0A80107 8080 tcp) ∅ ∅
                   (replicate (Z.to_nat 9000) zeroPortMapEntry) _ _ _ _ _ _)).
  - vm_compute. reflexivity.
  - vm_compute. reflexivity.
  - vm_compute. reflexivity.
  - vm_compute. reflexivity.
  - vm_compute. reflexivity.
  - intros _. split; [vm_compute; reflexivity |]. vm_compute. lia.
Defined.

(** C9: a rule that the load accepts can make the installation of its
    static entry panic. On the public interface of a loaded pair whose
    tables and port maps start-up has allocated, [enableStaticPortForward]
    panics with an index out of range for a rule decoded without protocol
    (protocol number 0, for which no port map exists) and for a TCP rule
    whose port is [portEnd] (one past the last slot): the slot is never
    marked. The forward mapping is already in the table when the call
    panics. *)
Theorem enableStaticPortForward_panics_without_slot :
  let public := {| pairIndex := 0; side := inPublicPort |} in
  let rule := {| ofPort := public; ruleIndex := 0 |} in
  let bare := enableStaticPortForward public rule (allocated noProtocolConfig) in
  let high := enableStaticPortForward public rule (allocated highPortConfig) in
  (ReadConfig (H := configFile noProtocolConfig) "nat.json" false false initialWorld).2
  = Done tt
  ∧ bare.2 = Panic (IndexOutOfRange (Z.to_nat 8080) 0)
  ∧ tableLookup (PublicPort (firstPair bare.1)) 0 (V4 (Tuple.mk 0x0A000001 8080))
    = Some (V4 (Tuple.mk 0xC0A80107 8080))
  ∧ getPortmap (PublicPort (firstPair bare.1)) false 0 = Done []
  ∧ (ReadConfig (H := configFile highPortConfig) "nat.json" false false initialWorld).2
    = Done tt
  ∧ high.2 = Panic (IndexOutOfRange (Z.to_nat 9000) (Z.to_nat 9000)).
Proof. vm_compute. repeat split; reflexivity. Qed.

(** ** The load on sample configurations *)

Lemma checkPortForwarding_rejects_witness :
  returnsError (ReadConfig (H := configFile outsideConfig) "nat.json" false false initialWorld).2.
Proof.
  refine (proj1 (checkPortForwarding_rejects (H := configFile outsideConfig)
                   "nat.json" "" outsideConfig false false initialWorld
                   0 0 outsidePair inPublicPort outsideRule
                   eq_refl eq_refl eq_refl eq_refl _)).
  right. right. left. split; reflexivity.
Defined.

Lemma ReadConfig_vlan_asymmetry_witness :
  (ReadConfig (H := configFile asymmetricConfig) "nat.json" false false initialWorld).2
  = Fail (ErrVlanPrivateZero 0 1).
Proof.
  refine (proj1 (proj2 (ReadConfig_vlan_asymmetry (H := configFile asymmetricConfig)
                   "nat.json" "" asymmetricConfig false false initialWorld
                   eq_refl eq_refl 0 asymmetricPair eq_refl)) eq_refl _).
  left. split; [reflexivity | discriminate].
Defined.

Lemma forwarding_rule_ports_witness :
  let run := ReadConfig (H := configFile (mkConfig "" [defaultedPair] false false))
                        "nat.json" false false initialWorld in
  ∃ pp' f',
    PortPairs (Natconfig run.1) !! 0%nat = Some pp'
    ∧ ForwardPorts (select inPublicPort pp') !! 0%nat = Some f'
    ∧ hostPort.Port (forwardedPort.Destination f') = 8080.
Proof.
  destruct (proj1 (proj2 (forwarding_rule_ports
                            (H := configFile (mkConfig "" [defaultedPair] false false))
                            "nat.json" "" (mkConfig "" [defaultedPair] false false)
                            false false initialWorld eq_refl eq_refl
                            0 0 defaultedPair inPublicPort defaultedRule eq_refl eq_refl))
                  eq_refl)
    as (_ & pp' & f' & Hpp & Hf & _ & Hport).
  exists pp', f'. split; [exact Hpp |]. split; [exact Hf |].
  destruct (Hport eq_refl eq_refl) as [-> _]. reflexivity.
Defined.

Lemma ReadConfig_dhcp_host_name_witness :
  (ReadConfig (H := configFile (dhcpConfig "")) "nat.json" false false initialWorld).2
  = Fail (ErrDHCPHostName 3).
Proof.
  refine (proj2 (proj1 (ReadConfig_dhcp_host_name (H := configFile (dhcpConfig ""))
                   "nat.json" "" (dhcpConfig "") false false initialWorld
                   eq_refl eq_refl 0 dhcpPair inPrivatePort eq_refl eq_refl) eq_refl) eq_refl).
Defined.

(** C3: a pair whose public interface carries both a VLAN tag and a
    bridge-device name passes the load, where the same combination on the
    private interface is refused: line 419 tests the private interface in
    both of its alternatives. *)
Theorem ReadConfig_accepts_vlan_with_kni_on_public :
  (ReadConfig (H := configFile publicVlanKNI) "nat.json" false false initialWorld).2 = Done tt
  ∧ (ReadConfig (H := configFile privateVlanKNI) "nat.json" false false initialWorld).2
    = Fail ErrVlanKNI.
Proof. split; reflexivity. Qed.

(** The check of line 419 never looks at the public interface. *)
Lemma vlanKNIVerdict_ignores_public (priv pub pub' : ipPort) :
  vlanKNIVerdict priv pub = vlanKNIVerdict priv pub'.
Proof. reflexivity. Qed.

(** The scenarios of the specification: the rule to 0.0.0.0:8080 loads on a
    public interface with bridge device and fails without; a pair with
    private VLAN 0 and public VLAN 7 is refused, and so is the reverse. *)
Example scenario_kni_rule :
  (ReadConfig (H := configFile (kniConfig "kni0")) "nat.json" false false initialWorld).2
  = Done tt
  ∧ (ReadConfig (H := configFile (kniConfig "")) "nat.json" false false initialWorld).2
    = Fail (ErrKNINameMissing 1).
Proof. split; reflexivity. Qed.

Example scenario_vlan :
  (ReadConfig (H := configFile asymmetricConfig) "nat.json" false false initialWorld).2
  = Fail (ErrVlanPrivateZero 0 1)
  ∧ (ReadConfig (H := configFile reversedConfig) "nat.json" false false initialWorld).2
    = Fail (ErrVlanPublicZero 0 1).
Proof. split; reflexivity. Qed.

(** The start-up of the sample forwarding configuration: the load and the
    set-up of the tables return normally, the public table for TCP maps
    (10.0.0.1, 8080) to (192.168.1.7, 8080), the private table maps it back,
    and slot 8080 of the public TCP port map is static. *)
Example startup_forwarding :
  let run := (ReadConfig (H := configFile forwardingConfig) "nat.json" false false;;
              InitFlows_tables (H := configFile forwardingConfig) 0) initialWorld in
  let pp := firstPair run.1 in
  run.2 = Done tt
  ∧ (translationTable (PublicPort pp) !! Z.to_nat TCPNumber
       ≫= λ t, t !! V4 (Tuple.mk 0x0A000001 8080)) = Some (V4 (Tuple.mk 0xC0A80107 8080))
  ∧ (translationTable (PrivatePort pp) !! Z.to_nat TCPNumber
       ≫= λ t, t !! V4 (Tuple.mk 0xC0A80107 8080)) = Some (V4 (Tuple.mk 0x0A000001 8080))
  ∧ (portmap (PublicPort pp) !! Z.to_nat TCPNumber ≫= λ slots, slots !! Z.to_nat 8080)
    = Some (staticEntry 0).
Proof. vm_compute. done. Qed.

(** A rule without protocol passes the load; the set-up of the tables then
    panics on it, no slot array being allocated for protocol number 0. *)
Example startup_without_protocol :
  (ReadConfig (H := configFile noProtocolConfig) "nat.json" false false initialWorld).2
  = Done tt
  ∧ ((ReadConfig (H := configFile noProtocolConfig) "nat.json" false false;;
      InitFlows_tables (H := configFile noProtocolConfig) 0) initialWorld).2
    = Panic (IndexOutOfRange (Z.to_nat 8080) 0).
Proof. vm_compute. done. Qed.

(** * Properties of the further functions *)

(** ** The text form of a subnet *)

Lemma land_pow2_eqb (m e : Z) : 0 ≤ e → (Z.land m (2 ^ e) =? 0) = negb (Z.testbit m e).
Proof.
  intros He. destruct (Z.testbit m e) eqn:Hb; simpl.
  - apply Z.eqb_neq. intros Hz.
    assert (Z.testbit (Z.land m (2 ^ e)) e = true) as Ht.
    { by rewrite Z.land_spec, Hb, Z.pow2_bits_true. }
    rewrite Hz, Z.bits_0 in Ht. done.
  - apply Z.eqb_eq. apply Z.bits_inj'. intros k Hk.
    rewrite Z.land_spec, Z.bits_0, Z.pow2_bits_eqb by done.
    destruct (Z.eqb_spec e k) as [<-|]; [by rewrite Hb | by rewrite andb_false_r].
Qed.

Lemma shiftr_top_bit (k : Z) :
  0 ≤ k ≤ 32 → Z.shiftr (Z.shiftl 1 31) k = if decide (k = 32) then 0 else 2 ^ (31 - k).
Proof.
  intros Hk. case_decide as H32; [by subst|].
  rewrite Z.shiftr_shiftl_l by lia. apply Z.shiftl_1_l.
Qed.

(** The loop entered at [i = k] with the mask shifted [k] times. *)
Lemma ipv4Subnet_String_loop_spec (m : Z) (n : nat) (k : Z) :
  0 ≤ k ≤ 32 → Z.of_nat n = 33 - k →
  let r := ipv4Subnet_String_loop n k (Z.shiftr (Z.shiftl 1 31) k) m in
  k ≤ r ≤ 32
  ∧ (∀ j, k ≤ j < r → Z.testbit m (31 - j) = true)
  ∧ (r < 32 → Z.testbit m (31 - r) = false).
Proof.
  revert k. induction n as [|n IH]; intros k Hk Hn; [lia|]. cbn [ipv4Subnet_String_loop].
  assert (Z.shiftr (Z.shiftr (Z.shiftl 1 31) k) 1 = Z.shiftr (Z.shiftl 1 31) (k + 1)) as Hstep.
  { rewrite Z.shiftr_shiftr by lia. done. }
  rewrite Hstep. rewrite (shiftr_top_bit k) by done.
  case_decide as H32.
  { subst k. rewrite Z.land_0_r. simpl. split; [lia|]. split; intros; lia. }
  rewrite land_pow2_eqb by lia.
  destruct (Z.testbit m (31 - k)) eqn:Hb; simpl.
  - destruct (IH (k + 1)) as (Hr & Hset & Hclear); [lia | lia |].
    split; [lia|]. split; [| done].
    intros j Hj. destruct (Z.eq_dec j k) as [->|]; [done|]. apply Hset. lia.
  - split; [lia|]. split; [intros; lia | done].
Qed.

Lemma prefixMask4_bits (n b : Z) :
  0 ≤ n ≤ 32 → 0 ≤ b →
  Z.testbit (prefixMask4 n) b = bool_decide (32 - n ≤ b < 32).
Proof.
  intros Hn Hb. unfold prefixMask4. rewrite Z.shiftl_spec by done.
  case_bool_decide as Hr.
  - apply Z.ones_spec_low. lia.
  - destruct (Z.lt_ge_cases (b - (32 - n)) 0); [by apply Z.testbit_neg_r|].
    apply Z.ones_spec_high. lia.
Qed.

(** X1: ipv4Subnet.String: a subnet whose address is not acquired prints as
    the fixed text; an acquired one prints as its address, a slash and the
    number of most significant set bits of its mask, at most 32, whatever the
    mask is; for the mask of an [n]-bit prefix that number is [n]. *)
Theorem ipv4Subnet_String_prefix `{GoPrint} (addr mask : IPv4Address) (kni : bool) :
  ipv4Subnet_String (ipv4Subnet.mk addr mask false kni) = "DHCP address not acquired"%string
  ∧ (∃ n, 0 ≤ n ≤ 32
          ∧ ipv4Subnet_String (ipv4Subnet.mk addr mask true kni)
            = IPv4Address_String addr +:+ "/" +:+ strconv_Itoa n
          ∧ (∀ j, 0 ≤ j < n → Z.testbit mask (31 - j) = true)
          ∧ (n < 32 → Z.testbit mask (31 - n) = false))
  ∧ (∀ n, 0 ≤ n ≤ 32 →
       ipv4Subnet_String (ipv4Subnet.mk addr (prefixMask4 n) true kni)
       = IPv4Address_String addr +:+ "/" +:+ strconv_Itoa n).
Proof.
  split; [done|]. split.
  - destruct (ipv4Subnet_String_loop_spec mask 33 0) as (Hr & Hset & Hclear); [lia | done |].
    eexists. split; [exact Hr|]. split; [reflexivity|]. split; [exact Hset | exact Hclear].
  - intros n Hn.
    destruct (ipv4Subnet_String_loop_spec (prefixMask4 n) 33 0) as (Hr & Hset & Hclear);
      [lia | done |].
    unfold ipv4Subnet_String. cbn [ipv4Subnet.addressAcquired ipv4Subnet.Mask ipv4Subnet.Addr].
    change (Z.shiftr (Z.shiftl 1 31) 0) with (Z.shiftl 1 31) in *.
    set (r := ipv4Subnet_String_loop 33 0 (Z.shiftl 1 31) (prefixMask4 n)) in *.
    assert (r = n) as ->; [| done].
    destruct (Z.lt_trichotomy r n) as [Hlt | [Heq | Hgt]]; [| done |].
    + specialize (Hclear ltac:(lia)).
      rewrite prefixMask4_bits in Hclear by lia. case_bool_decide; [done | lia].
    + specialize (Hset n ltac:(lia)).
      rewrite prefixMask4_bits in Hset by lia. case_bool_decide; [lia | done].
Qed.

Lemma index_vec (m : IPv6Address) (k : nat) :
  (k < 16)%nat →
  index (Some (vec_to_list m)) k = Done (default 0 (vec_to_list m !! k)).
Proof.
  intros Hk. unfold index. simpl.
  destruct (lookup_lt_is_Some_2 (vec_to_list m) k) as [b ->]; [| done].
  by rewrite length_vec_to_list.
Qed.

Lemma ipv6Subnet_String_loop_spec (m : IPv6Address) (n : nat) (k : Z) :
  0 ≤ k ≤ 128 → Z.of_nat n = 129 - k →
  ∃ r, ipv6Subnet_String_loop n k m = Done r
       ∧ k ≤ r ≤ 128
       ∧ (∀ j, k ≤ j < r → maskBit6 m j = true)
       ∧ (r < 128 → maskBit6 m r = false).
Proof.
  revert k. induction n as [|n IH]; intros k Hk Hn; [lia|]. cbn [ipv6Subnet_String_loop].
  destruct (Z.eqb_spec k 128) as [->|Hne].
  { exists 128. split; [done|]. split; [lia|]. split; intros; lia. }
  assert (0 ≤ Z.land k 7 < 8) as Hlow.
  { change 7 with (Z.ones 3). rewrite Z.land_ones by lia. apply Z.mod_pos_bound. lia. }
  assert (Z.to_nat (Z.shiftr k 3) < 16)%nat as Hidx.
  { rewrite Z.shiftr_div_pow2 by lia. change (2 ^ 3) with 8.
    assert (0 ≤ k `div` 8 < 16); [| lia].
    split; [apply Z.div_pos; lia | apply Z.div_lt_upper_bound; lia]. }
  rewrite index_vec by done. cbn [mbind outcome_mbind outcome_bind].
  rewrite Z.shiftl_1_l, land_pow2_eqb by lia.
  fold (maskBit6 m k). destruct (maskBit6 m k) eqn:Hb; simpl.
  - destruct (IH (k + 1)) as (r & Hrun & Hr & Hset & Hclear); [lia | lia |].
    exists r. split; [done|]. split; [lia|]. split; [| done].
    intros j Hj. destruct (Z.eq_dec j k) as [->|]; [done|]. apply Hset. lia.
  - exists k. split; [done|]. split; [lia|]. split; [intros; lia | done].
Qed.

(** X2: ipv6Subnet.String: the call never indexes the mask out of range; a
    subnet whose address is not acquired prints as the fixed text, an
    acquired one as its address, a slash and the number of most significant
    set bits of its 16-byte mask, at most 128. *)
Theorem ipv6Subnet_String_prefix `{GoPrint} (addr mc mask ll llm : IPv6Address) (kni : bool) :
  ipv6Subnet_String (ipv6Subnet.mk addr mc mask ll llm false kni)
  = Done "DHCP address not acquired"%string
  ∧ ∃ n, 0 ≤ n ≤ 128
         ∧ ipv6Subnet_String (ipv6Subnet.mk addr mc mask ll llm true kni)
           = Done (IPv6Address_String addr +:+ "/" +:+ strconv_Itoa n)
         ∧ (∀ j, 0 ≤ j < n → maskBit6 mask j = true)
         ∧ (n < 128 → maskBit6 mask n = false).
Proof.
  split; [done|].
  destruct (ipv6Subnet_String_loop_spec mask 129 0) as (r & Hrun & Hr & Hset & Hclear);
    [lia | done |].
  exists r. split; [done|]. split; [| done].
  unfold ipv6Subnet_String. cbn [ipv6Subnet.addressAcquired ipv6Subnet.Mask ipv6Subnet.Addr].
  by rewrite Hrun.
Qed.

(** ** The destination parser *)

Lemma convertIPv4_To4 `{GoLib} (ip : slice) :
  convertIPv4 (net.To4 ip)
  = match net.To4 ip with
    | Some [a; b; c; d] => Done (BytesToIPv4 d c b a)
    | _ => Fail (ErrNotIPv4 0)
    end.
Proof.
  destruct (net.To4 ip) as [l|] eqn:H4; [| done].
  apply To4_length in H4. by destruct l as [|a [|b [|c [|d [|]]]]].
Qed.

Lemma To4_None_To16 (ip l : list Z) :
  net.To4 (Some ip) = None → net.To16 (Some ip) = Some l → l = ip ∧ length ip = 16%nat.
Proof.
  simpl. case_bool_decide as H4; [done|]. intros _.
  case_bool_decide as H16; [| done]. by intros [= <-].
Qed.

Lemma copy16_list (dst : IPv6Address) (l : list Z) :
  length l = 16%nat → vec_to_list (copy16 dst (Some l)) = l.
Proof. intros Hl. do 17 (destruct l as [|? l]; [done|]). done. Qed.

Lemma uint16_range (z : Z) : 0 ≤ uint16 z < 65536.
Proof. unfold uint16. apply Z.mod_pos_bound. done. Qed.

Section Destination.
Context `{GoLib} `{GoText}.

(** X3: hostPort.UnmarshalJSON on a string that splits into a host the
    library parses and a port: an IPv4 address, also one written in
    IPv4-mapped IPv6 form, is stored in [Addr4] with its bytes reversed for
    [BytesToIPv4] and leaves [Addr6] and the [ipv6] flag as they were; every
    other 16-byte address is stored in [Addr6] with [Addr4] zero and [ipv6]
    set. An empty port is stored as 0 and a parsed port as its low 16 bits,
    so a port number above 65535 is accepted and wraps around. *)
Theorem hostPort_UnmarshalJSON_stores (out : hostPort.t) (b s hostStr portStr : string)
    (ip : list Z) (port : Z) :
  json_Unmarshal b = Done s →
  net_SplitHostPort s = Done (hostStr, portStr) →
  net_ParseIP hostStr = Some ip →
  (if String.eqb portStr "" then port = 0 else strconv_ParseInt portStr = Done port) →
  0 ≤ uint16 port < 65536
  ∧ (∀ a0 a1 a2 a3,
       ip = [a0; a1; a2; a3] ∨ ip = net.v4InV6Prefix ++ [a0; a1; a2; a3] →
       hostPort_UnmarshalJSON out b
       = (hostPort.mk (BytesToIPv4 a3 a2 a1 a0) (hostPort.Addr6 out) (uint16 port)
                      (hostPort.ipv6 out), Done tt))
  ∧ (length ip = 16%nat → take 12 ip ≠ net.v4InV6Prefix →
     ∃ a6 : IPv6Address,
       vec_to_list a6 = ip
       ∧ hostPort_UnmarshalJSON out b = (hostPort.mk 0 a6 (uint16 port) true, Done tt)).
Proof.
  intros Hjson Hsplit Hip Hport.
  assert (∀ out1, hostPort_parsePort out1 portStr
                  = (with_hostPort_Port (uint16 port) out1, Done tt)) as Hpp.
  { intros out1. unfold hostPort_parsePort.
    destruct (String.eqb portStr ""); simpl; [by subst | by rewrite Hport]. }
  split; [apply uint16_range|]. split.
  - intros a0 a1 a2 a3 Hform. unfold hostPort_UnmarshalJSON.
    rewrite Hjson, Hsplit, Hip, convertIPv4_To4.
    assert (net.To4 (Some ip) = Some [a0; a1; a2; a3]) as -> by (by destruct Hform as [-> | ->]).
    by rewrite Hpp.
  - intros H16 Hpre. unfold hostPort_UnmarshalJSON.
    rewrite Hjson, Hsplit, Hip, convertIPv4_To4.
    assert (net.To4 (Some ip) = None) as ->.
    { simpl. rewrite bool_decide_eq_false_2 by (rewrite H16; done).
      rewrite (bool_decide_eq_true_2 _ H16), (bool_decide_eq_false_2 _ Hpre). done. }
    assert (net.To16 (Some ip) = Some ip) as ->.
    { simpl. rewrite bool_decide_eq_false_2 by (rewrite H16; done).
      by rewrite (bool_decide_eq_true_2 _ H16). }
    rewrite Hpp. eexists. split; [| reflexivity]. by apply copy16_list.
Qed.

(** X4: hostPort.UnmarshalJSON is not atomic: when the decoding of the JSON
    string, the split or the parse of the host fails, the receiver is left
    as it was and the error is returned; when the port does not parse, the
    error of [strconv.ParseInt] is returned after the address fields of the
    receiver have been overwritten, its port being left as it was. *)
Theorem hostPort_UnmarshalJSON_errors (out : hostPort.t) (b : string) (e : error) :
  (json_Unmarshal b = Fail e → hostPort_UnmarshalJSON out b = (out, Fail e))
  ∧ (∀ s, json_Unmarshal b = Done s →
       (net_SplitHostPort s = Fail e → hostPort_UnmarshalJSON out b = (out, Fail e))
       ∧ (∀ hostStr portStr, net_SplitHostPort s = Done (hostStr, portStr) →
            (net_ParseIP hostStr = None →
             ∃ e', hostPort_UnmarshalJSON out b = (out, Fail e'))
            ∧ (∀ ip, net_ParseIP hostStr = Some ip →
                 strconv_ParseInt portStr = Fail e → portStr ≠ ""%string →
                 (∀ a0 a1 a2 a3, net.To4 (Some ip) = Some [a0; a1; a2; a3] →
                    hostPort_UnmarshalJSON out b
                    = (hostPort.mk (BytesToIPv4 a3 a2 a1 a0) (hostPort.Addr6 out)
                                   (hostPort.Port out) (hostPort.ipv6 out), Fail e))
                 ∧ (length ip = 16%nat → net.To4 (Some ip) = None →
                    ∃ a6 : IPv6Address,
                      vec_to_list a6 = ip
                      ∧ hostPort_UnmarshalJSON out b
                        = (hostPort.mk 0 a6 (hostPort.Port out) true, Fail e))))).
Proof.
  unfold hostPort_UnmarshalJSON. split; [by intros ->|].
  intros s ->. split; [by intros ->|].
  intros hostStr portStr ->. split; [intros ->; by eexists|].
  intros ip -> Hport Hne.
  assert (∀ out1, hostPort_parsePort out1 portStr = (out1, Fail e)) as Hpp.
  { intros out1. unfold hostPort_parsePort.
    by rewrite (String_eqb_false _ _ Hne), Hport. }
  rewrite convertIPv4_To4. split.
  - intros a0 a1 a2 a3 ->. by rewrite Hpp.
  - intros H16 H4. rewrite H4.
    assert (net.To16 (Some ip) = Some ip) as ->.
    { simpl. rewrite bool_decide_eq_false_2 by (rewrite H16; done).
      by rewrite (bool_decide_eq_true_2 _ H16). }
    rewrite Hpp. eexists. split; [| reflexivity]. by apply copy16_list.
Qed.

(** X5: no parser reaches an out-of-range index: provided the library calls
    themselves do not panic and a CIDR mask has at least four bytes (the
    library returns 4 or 16), none of the four [UnmarshalJSON] methods
    panics, on any input and any receiver. The short slices on which
    [convertIPv4] indexes out of range never reach it from [IP.To4]. *)
Theorem UnmarshalJSON_never_panics :
  (∀ b p, json_Unmarshal b ≠ Panic p) →
  (∀ s p, net_SplitHostPort s ≠ Panic p) →
  (∀ s p, strconv_ParseInt s ≠ Panic p) →
  (∀ s ip ipnet l, net_ParseCIDR s = Some (ip, ipnet) → net.Mask ipnet = Some l →
                   (4 ≤ length l)%nat) →
  ∀ (b : string) (p : panic),
    (∀ out, (hostPort_UnmarshalJSON out b).2 ≠ Panic p)
    ∧ (∀ out, (ipv4Subnet.UnmarshalJSON out b).2 ≠ Panic p)
    ∧ (∀ out, (ipv6Subnet.UnmarshalJSON out b).2 ≠ Panic p)
    ∧ (∀ out, (protocolId_UnmarshalJSON out b).2 ≠ Panic p).
Proof.
  intros Hjson Hsplit Hint Hmask b p.
  assert (∀ ip, convertIPv4 (net.To4 ip) ≠ Panic p) as Hconv.
  { intros ip. rewrite convertIPv4_To4.
    by destruct (net.To4 ip) as [[|a [|a1 [|a2 [|a3 [|]]]]]|]. }
  assert (∀ out portStr, (hostPort_parsePort out portStr).2 ≠ Panic p) as Hpp.
  { intros out portStr. unfold hostPort_parsePort.
    destruct (negb _); [| done].
    pose proof (Hint portStr p) as Hi. destruct (strconv_ParseInt portStr); simpl; [done | done | by intros [= ->]]. }
  pose proof (Hjson b p) as Hj.
  repeat split; intros out.
  - unfold hostPort_UnmarshalJSON.
    destruct (json_Unmarshal b) as [s| |]; [| done | by intros [= ->]].
    pose proof (Hsplit s p) as Hs.
    destruct (net_SplitHostPort s) as [[hostStr portStr]| |]; [| done | by intros [= ->]].
    destruct (net_ParseIP hostStr) as [ip|]; [| done].
    pose proof (Hconv (Some ip)) as Hc.
    destruct (convertIPv4 (net.To4 (Some ip))); [apply Hpp | | by intros [= ->]].
    destruct (net.To16 (Some ip)); [apply Hpp | done].
  - unfold ipv4Subnet.UnmarshalJSON.
    destruct (json_Unmarshal b) as [s| |]; [| done | by intros [= ->]].
    destruct (String.eqb s "dhcp"); [done|].
    destruct (net_ParseCIDR s) as [[ip ipnet]|] eqn:Hcidr.
    + pose proof (Hconv ip) as Hc.
      destruct (convertIPv4 (net.To4 ip)); [| done | by intros [= ->]].
      destruct (net.Mask ipnet) as [l|] eqn:Hl; [| done].
      pose proof (Hmask s ip ipnet l Hcidr Hl) as H4.
      destruct (decide (length l = 4%nat)) as [Heq|Hne].
      * by destruct l as [|m0 [|m1 [|m2 [|m3 [|]]]]].
      * by rewrite convertIPv4_long by lia.
    + destruct (net_ParseIP s) as [ip|]; [| done].
      pose proof (Hconv (Some ip)) as Hc.
      destruct (convertIPv4 (net.To4 (Some ip))); [done | done | by intros [= ->]].
  - unfold ipv6Subnet.UnmarshalJSON.
    destruct (json_Unmarshal b) as [s| |]; [| done | by intros [= ->]].
    destruct (String.eqb s "dhcp"); [done|].
    destruct (net_ParseCIDR s) as [[ip ipnet]|]; [by case_bool_decide|].
    destruct (net_ParseIP s) as [ip|]; [by case_bool_decide | done].
  - unfold protocolId_UnmarshalJSON.
    destruct (json_Unmarshal b) as [s| |]; [| done | by intros [= ->]].
    by destruct (protocolIdLookup s).
Qed.

End Destination.

Lemma hostPort_UnmarshalJSON_stores_witness :
  hostPort_UnmarshalJSON (H := sampleLib) (H0 := sampleText) zeroHostPort
    (jsonString "192.168.1.7:65616")
  = (hostPort.mk 0xC0A80107 zeroIPv6Addr 80 false, Done tt).
Proof.
  destruct (hostPort_UnmarshalJSON_stores (H := sampleLib) (H0 := sampleText) zeroHostPort
              (jsonString "192.168.1.7:65616") "192.168.1.7:65616" "192.168.1.7" "65616"
              (mapped 192 168 1 7) 65616 eq_refl eq_refl eq_refl eq_refl) as (_ & H4 & _).
  exact (H4 192 168 1 7 (or_intror eq_refl)).
Defined.

(** ** Lookup of an interface by its index *)

Lemma getPortAndPairByID_from_spec (i : nat) (pps : list portPair) (portId : Z) :
  match getPortAndPairByID_from i pps portId with
  | Some (r, j) =>
      pairIndex r = j
      ∧ ∃ k pp, j = (i + k)%nat
          ∧ pps !! k = Some pp
          ∧ Index (select (side r) pp) = portId
          ∧ (side r = inPrivatePort → Index (PublicPort pp) ≠ portId)
          ∧ ∀ k' pp' s, (k' < k)%nat → pps !! k' = Some pp' → Index (select s pp') ≠ portId
  | None => ∀ k pp s, pps !! k = Some pp → Index (select s pp) ≠ portId
  end.
Proof.
  revert i. induction pps as [|pp pps IH]; intros i; cbn [getPortAndPairByID_from].
  { intros k pp s Hk. by rewrite lookup_nil in Hk. }
  destruct (Z.eqb_spec (Index (PublicPort pp)) portId) as [Hpub|Hpub].
  { split; [done|]. exists 0%nat, pp. rewrite Nat.add_0_r.
    repeat split; [done | done |]. intros; lia. }
  destruct (Z.eqb_spec (Index (PrivatePort pp)) portId) as [Hpriv|Hpriv].
  { split; [done|]. exists 0%nat, pp. rewrite Nat.add_0_r.
    repeat split; [done | done |]. intros; lia. }
  specialize (IH (S i)).
  destruct (getPortAndPairByID_from (S i) pps portId) as [[r j]|].
  - destruct IH as (Hr & k & pp0 & -> & Hk & Hidx & Hside & Hfirst).
    split; [done|]. exists (S k), pp0.
    split; [lia|]. split; [done|]. split; [done|]. split; [done|].
    intros [|k'] pp' s Hlt Hk'; simpl in Hk'.
    + injection Hk' as <-. by destruct s.
    + apply (Hfirst k' pp' s); [lia | done].
  - intros [|k] pp0 s Hk; simpl in Hk.
    + injection Hk as <-. by destruct s.
    + by apply (IH k pp0 s).
Qed.

(** X6: getPortAndPairByID returns the first interface, in the order of the
    pairs and with the public interface of a pair before its private one,
    whose index is the identifier asked for, together with the pair it
    belongs to; it returns nil exactly when no interface of the
    configuration has that index. *)
Theorem getPortAndPairByID_first (c : Config) (portId : Z) :
  match getPortAndPairByID c portId with
  | Some (r, j) =>
      pairIndex r = j
      ∧ ∃ pp, PortPairs c !! j = Some pp
          ∧ Index (select (side r) pp) = portId
          ∧ (side r = inPrivatePort → Index (PublicPort pp) ≠ portId)
          ∧ ∀ j' pp' s, (j' < j)%nat → PortPairs c !! j' = Some pp' →
              Index (select s pp') ≠ portId
  | None => ∀ j pp s, PortPairs c !! j = Some pp → Index (select s pp) ≠ portId
  end.
Proof.
  unfold getPortAndPairByID.
  pose proof (getPortAndPairByID_from_spec 0 (PortPairs c) portId) as Hspec.
  destruct (getPortAndPairByID_from 0 (PortPairs c) portId) as [[r j]|]; [| done].
  destruct Hspec as (Hr & k & pp & -> & Hk & Hrest). split; [done|]. by exists pp.
Qed.

Lemma portIndices_lookup (pps : list portPair) (j : nat) (pp : portPair) :
  pps !! j = Some pp →
  portIndices pps !! (2 * j)%nat = Some (Index (PublicPort pp))
  ∧ portIndices pps !! (2 * j + 1)%nat = Some (Index (PrivatePort pp)).
Proof.
  revert j. induction pps as [|pp0 pps IH]; intros j Hj; [by rewrite lookup_nil in Hj|].
  destruct j as [|j]; simpl in Hj.
  - by injection Hj as <-.
  - destruct (IH j Hj) as [H1 H2].
    replace (2 * S j)%nat with (S (S (2 * j))) by lia.
    replace (S (S (2 * j)) + 1)%nat with (S (S (2 * j + 1))) by lia. done.
Qed.

Lemma portIndices_place (pps : list portPair) (j : nat) (pp : portPair) (s : member) :
  pps !! j = Some pp → portIndices pps !! place j s = Some (Index (select s pp)).
Proof. intros Hj. destruct (portIndices_lookup pps j pp Hj). by destruct s. Qed.

(** X7: in a configuration whose interface indices are pairwise distinct the
    lookup by index finds every interface: asked for the index of the
    interface at a place of a pair, it returns that very interface and
    pair. *)
Theorem getPortAndPairByID_distinct (c : Config) (j : nat) (pp : portPair) (s : member) :
  NoDup (portIndices (PortPairs c)) →
  PortPairs c !! j = Some pp →
  getPortAndPairByID c (Index (select s pp)) = Some ({| pairIndex := j; side := s |}, j).
Proof.
  intros Hnodup Hj.
  assert (∀ j1 s1 pp1 j2 s2 pp2,
            PortPairs c !! j1 = Some pp1 → PortPairs c !! j2 = Some pp2 →
            Index (select s1 pp1) = Index (select s2 pp2) → j1 = j2 ∧ s1 = s2) as Hinj.
  { intros j1 s1 pp1 j2 s2 pp2 H1 H2 Heq.
    pose proof (portIndices_place _ j1 pp1 s1 H1) as Hp1.
    pose proof (portIndices_place _ j2 pp2 s2 H2) as Hp2.
    rewrite <- Heq in Hp2.
    pose proof (NoDup_lookup _ _ _ _ Hnodup Hp1 Hp2) as Hplace.
    destruct s1, s2; simpl in Hplace; split; first [done | lia]. }
  unfold getPortAndPairByID.
  pose proof (getPortAndPairByID_from_spec 0 (PortPairs c) (Index (select s pp))) as Hspec.
  destruct (getPortAndPairByID_from 0 (PortPairs c) (Index (select s pp))) as [[r j0]|].
  - destruct Hspec as (Hr & k & pp0 & -> & Hk & Hidx & _).
    destruct (Hinj _ _ _ _ _ _ Hk Hj Hidx) as [-> Hs]. simpl.
    destruct r as [ri rs]. simpl in *. by subst.
  - by specialize (Hspec j pp s Hj).
Qed.

Lemma getPortAndPairByID_distinct_witness :
  getPortAndPairByID forwardingConfig 1 = Some ({| pairIndex := 0; side := inPublicPort |}, 0%nat).
Proof.
  refine (getPortAndPairByID_distinct forwardingConfig 0 (firstPair (mkWorld forwardingConfig false false 0))
            inPublicPort _ eq_refl).
  vm_compute. apply NoDup_cons_2; [by rewrite list_elem_of_singleton | apply NoDup_singleton].
Defined.

(** ** The store after a load *)

Lemma checkRules_success_kni (p o : ipPort) (fs : list forwardedPort.t) (kni : bool) :
  (checkRules p o fs kni).2 = None →
  hasKNIName p = false ∨ kni = true →
  (checkRules p o fs kni).1.2 = kni.
Proof.
  revert kni. induction fs as [|f fs IH]; intros kni; simpl; [done|].
  destruct (ruleVerdict p o f) eqn:Hv; [done|].
  specialize (IH (ruleNeedKNI f kni)).
  destruct (checkRules p o fs (ruleNeedKNI f kni)) as [[fs' kni'] r]. simpl in *.
  intros Hr Hkni.
  assert (ruleNeedKNI f kni = kni) as Hsame.
  { unfold ruleNeedKNI. destruct (isAddrZero f) eqn:Hz; [| done].
    destruct Hkni as [Hname | ->]; [| done]. exfalso.
    unfold ruleVerdict, hasKNIName in *. rewrite Hz in Hv.
    destruct (negb (eqb _ _)); [done|].
    apply negb_false_iff in Hname. by rewrite Hname in Hv. }
  rewrite Hsame in IH. by apply IH.
Qed.

Lemma checkPort_accepted (host : string) (p o : ipPort) (kni dhcp : bool) :
  (checkPort host p o kni dhcp).2 = None →
  checkPort host p o kni dhcp
  = (acceptedPort p, hasKNIName p || kni, awaitsDHCP p || dhcp, None).
Proof.
  unfold checkPort, acceptedPort, hasKNIName, awaitsDHCP.
  destruct (negb (ipv4Subnet.addressAcquired (Subnet p)) && String.eqb host ""); [done|].
  set (kni1 := if negb (String.eqb (KNIName p) "") then true else kni).
  pose proof (checkRules_success p o (ForwardPorts p) kni1) as Hfs.
  pose proof (checkRules_success_kni p o (ForwardPorts p) kni1) as Hkni.
  destruct (checkRules p o (ForwardPorts p) kni1) as [[fs' kni2] [e|]]; [done|].
  simpl in *. intros _. rewrite (Hfs eq_refl), Hkni; [| done |].
  - unfold kni1. by destruct (negb (String.eqb _ _)), (negb (ipv4Subnet.addressAcquired _)).
  - unfold kni1, hasKNIName. destruct (negb (String.eqb _ _)); auto.
Qed.

Lemma acceptedPort_subnets (p : ipPort) :
  Subnet (acceptedPort p) = Subnet p ∧ Subnet6 (acceptedPort p) = Subnet6 p.
Proof. unfold acceptedPort. by destruct (negb _). Qed.

Lemma checkPair_accepted (host : string) (i : nat) (pp : portPair) (kni dhcp : bool) :
  (checkPair host i pp kni dhcp).2 = None →
  checkPair host i pp kni dhcp
  = (acceptedPair i pp,
     hasKNIName (PublicPort pp) || (hasKNIName (PrivatePort pp) || kni),
     awaitsDHCP (PublicPort pp) || (awaitsDHCP (PrivatePort pp) || dhcp), None).
Proof.
  unfold checkPair, acceptedPair. cbv zeta.
  change (hasKNIName (PublicPort pp)) with (hasKNIName (PublicPort (linkPair i pp))).
  change (hasKNIName (PrivatePort pp)) with (hasKNIName (PrivatePort (linkPair i pp))).
  change (awaitsDHCP (PublicPort pp)) with (awaitsDHCP (PublicPort (linkPair i pp))).
  change (awaitsDHCP (PrivatePort pp)) with (awaitsDHCP (PrivatePort (linkPair i pp))).
  change (lastport pp) with (lastport (linkPair i pp)).
  generalize (linkPair i pp). intros pp1.
  destruct (vlanVerdict _ _); [done|].
  destruct (vlanKNIVerdict _ _); [done|].
  pose proof (checkPort_accepted host (PrivatePort pp1) (PublicPort pp1) kni dhcp) as H1.
  destruct (checkPort host (PrivatePort pp1) (PublicPort pp1) kni dhcp)
    as [[[priv' kni1] dhcp1] [e|]]; [done|].
  specialize (H1 eq_refl). injection H1 as -> -> ->.
  pose proof (checkPort_accepted host (PublicPort pp1) (acceptedPort (PrivatePort pp1))
                (hasKNIName (PrivatePort pp1) || kni) (awaitsDHCP (PrivatePort pp1) || dhcp)) as H2.
  destruct (checkPort host (PublicPort pp1) (acceptedPort (PrivatePort pp1)) _ _)
    as [[[pub' kni2] dhcp2] r2].
  cbn [fst snd] in *. intros ->. specialize (H2 eq_refl). by injection H2 as -> -> ->.
Qed.

Lemma checkPairs_accepted (host : string) (i : nat) (pps : list portPair) (kni dhcp : bool) :
  (checkPairs host i pps kni dhcp).2 = None →
  checkPairs host i pps kni dhcp
  = (imap (λ j, acceptedPair (i + j)) pps,
     existsb (λ pp, hasKNIName (PrivatePort pp) || hasKNIName (PublicPort pp)) pps || kni,
     existsb (λ pp, awaitsDHCP (PrivatePort pp) || awaitsDHCP (PublicPort pp)) pps || dhcp,
     None).
Proof.
  revert i kni dhcp. induction pps as [|pp pps IH]; intros i kni dhcp; cbn [checkPairs];
    [done|].
  pose proof (checkPair_accepted host i pp kni dhcp) as H1.
  destruct (checkPair host i pp kni dhcp) as [[[pp' kni1] dhcp1] [e|]]; [done|].
  specialize (H1 eq_refl). injection H1 as -> -> ->.
  specialize (IH (S i) (hasKNIName (PublicPort pp) || (hasKNIName (PrivatePort pp) || kni))
                 (awaitsDHCP (PublicPort pp) || (awaitsDHCP (PrivatePort pp) || dhcp))).
  destruct (checkPairs host (S i) pps _ _) as [[[pps' kni2] dhcp2] r].
  simpl in *. intros ->. specialize (IH eq_refl). injection IH as -> -> ->.
  rewrite Nat.add_0_r.
  assert (imap (λ j, acceptedPair (S (i + j))) pps
          = imap ((λ j, acceptedPair (i + j)) ∘ S) pps) as ->.
  { apply imap_ext. intros j x _. simpl. f_equal. lia. }
  set (k := existsb _ pps). set (d := existsb _ pps).
  by destruct (hasKNIName (PublicPort pp)), (hasKNIName (PrivatePort pp)), k, kni,
       (awaitsDHCP (PublicPort pp)), (awaitsDHCP (PrivatePort pp)), d, dhcp.
Qed.

Section AfterLoad.
Context `{Environment}.
Context (fileName file : string) (decoded : Config) (setKniIP_ bringUp_ : bool) (w : World).

Local Abbreviation run := (ReadConfig fileName setKniIP_ bringUp_ w).

(** The store after a successful load. *)
Lemma ReadConfig_accepted :
  os_Open fileName = Done file →
  json_Decode file = Done decoded →
  run.2 = Done tt →
  run.1
  = mkWorld
      (mkConfig (HostName decoded) (imap acceptedPair (PortPairs decoded))
                (setKniIP_ || setKniIP decoded) (bringUp_ || bringUpKniInterfaces decoded))
      (existsb (λ pp, hasKNIName (PrivatePort pp) || hasKNIName (PublicPort pp))
               (PortPairs decoded) || NeedKNI w)
      (existsb (λ pp, awaitsDHCP (PrivatePort pp) || awaitsDHCP (PublicPort pp))
               (PortPairs decoded) || NeedDHCP w)
      (clock w).
Proof.
  intros Hopen Hdec. rewrite (ReadConfig_run _ _ _ _ _ _ Hopen Hdec).
  pose proof (checkPairs_accepted (HostName decoded) 0 (PortPairs decoded)
                (NeedKNI w) (NeedDHCP w)) as Hacc.
  destruct (checkPairs _ _ _ _ _) as [[[pps' kni'] dhcp'] [e|]]; [done|].
  specialize (Hacc eq_refl). injection Hacc as -> -> ->. intros _.
  cbn [fst]. unfold loaded, with_PortPairs. simpl. by destruct setKniIP_, bringUp_.
Qed.

(** X8: the configuration after a successful load is the decoded one with
    the two flags set on request and, in every pair, both interfaces typed by
    their place and pointing at each other, every rule with a concrete
    destination and no destination port given the forwarded port as its
    destination port, and static ARP mode switched on for the interfaces
    with a destination MAC address; nothing else is changed and the clock is
    not touched. *)
Theorem ReadConfig_success_state :
  os_Open fileName = Done file →
  json_Decode file = Done decoded →
  run.2 = Done tt →
  Natconfig run.1
  = mkConfig (HostName decoded) (imap acceptedPair (PortPairs decoded))
             (setKniIP_ || setKniIP decoded) (bringUp_ || bringUpKniInterfaces decoded)
  ∧ clock run.1 = clock w.
Proof.
  intros Hopen Hdec Hdone. by rewrite (ReadConfig_accepted Hopen Hdec Hdone).
Qed.

(** X9: the two process-wide flags after a successful load: [NeedKNI] is
    set when it was set before or some interface has a bridge-device name,
    and in no other case, a rule to the unspecified address being accepted
    only on an interface with such a name; [NeedDHCP] is set when it was
    set before or the IPv4 subnet of some interface is not acquired, whatever
    the IPv6 subnets are. Neither flag is ever cleared. *)
Theorem ReadConfig_success_flags :
  os_Open fileName = Done file →
  json_Decode file = Done decoded →
  run.2 = Done tt →
  NeedKNI run.1
  = existsb (λ pp, hasKNIName (PrivatePort pp) || hasKNIName (PublicPort pp))
            (PortPairs decoded) || NeedKNI w
  ∧ NeedDHCP run.1
    = existsb (λ pp, awaitsDHCP (PrivatePort pp) || awaitsDHCP (PublicPort pp))
              (PortPairs decoded) || NeedDHCP w.
Proof.
  intros Hopen Hdec Hdone. by rewrite (ReadConfig_accepted Hopen Hdec Hdone).
Qed.

End AfterLoad.

(** ** What a load leaves alone *)

Lemma sameRule_refl (f : forwardedPort.t) : sameRule f f.
Proof. unfold sameRule. by destruct f as [port [a4 a6 dport v6] proto]. Qed.

Lemma sameRule_accepted (f : forwardedPort.t) : sameRule f (ruleAccepted f).
Proof.
  unfold ruleAccepted. destruct (isAddrZero f); [apply sameRule_refl|].
  destruct (_ =? 0); [done | apply sameRule_refl].
Qed.

Lemma checkRules_frame (p o : ipPort) (fs : list forwardedPort.t) (kni : bool) :
  Forall2 sameRule fs (checkRules p o fs kni).1.1
  ∧ (kni = true → (checkRules p o fs kni).1.2 = true).
Proof.
  revert kni. induction fs as [|f fs IH]; intros kni; simpl; [by split|].
  destruct (ruleVerdict p o f).
  { simpl. split; [| done]. apply Forall2_cons; split; [apply sameRule_refl|].
    apply Forall2_same_length_lookup_2; [done|]. intros j x y Hx Hy.
    assert (x = y) as -> by congruence. apply sameRule_refl. }
  specialize (IH (ruleNeedKNI f kni)).
  destruct (checkRules p o fs (ruleNeedKNI f kni)) as [[fs' kni'] r]. simpl in *.
  destruct IH as [Hfs Hkni]. split.
  - apply Forall2_cons. split; [apply sameRule_accepted | done].
  - intros ->. apply Hkni. unfold ruleNeedKNI. by destruct (isAddrZero f).
Qed.

Lemma samePort_rules (p : ipPort) (fs : list forwardedPort.t) :
  Forall2 sameRule (ForwardPorts p) fs → samePort p (with_ForwardPorts fs p).
Proof. intros Hfs. unfold samePort. simpl. by repeat split. Qed.

Lemma samePort_staticArpMode (p p' : ipPort) (b : bool) :
  samePort p p' → samePort p (with_staticArpMode b p').
Proof. unfold samePort. simpl. tauto. Qed.

Lemma samePort_refl (p : ipPort) : samePort p p.
Proof.
  unfold samePort. repeat split.
  apply Forall2_same_length_lookup_2; [done|]. intros j x y Hx Hy.
  assert (x = y) as -> by congruence. apply sameRule_refl.
Qed.

Lemma checkPort_frame (host : string) (p o : ipPort) (kni dhcp : bool) :
  samePort p (checkPort host p o kni dhcp).1.1.1
  ∧ (kni = true → (checkPort host p o kni dhcp).1.1.2 = true)
  ∧ (dhcp = true → (checkPort host p o kni dhcp).1.2 = true).
Proof.
  unfold checkPort. destruct (negb _ && _).
  { simpl. split; [apply samePort_refl | by split]. }
  set (kni1 := if negb (String.eqb (KNIName p) "") then true else kni).
  destruct (checkRules_frame p o (ForwardPorts p) kni1) as [Hfs Hkni].
  destruct (checkRules p o (ForwardPorts p) kni1) as [[fs' kni2] r]. simpl in *.
  assert (kni = true → kni2 = true) as Hk.
  { intros ->. apply Hkni. unfold kni1. by destruct (negb _). }
  assert (dhcp = true
          → (if negb (ipv4Subnet.addressAcquired (Subnet p)) then true else dhcp) = true) as Hd.
  { intros ->. by destruct (ipv4Subnet.addressAcquired (Subnet p)). }
  destruct r as [e|]; simpl; (split; [| by split]).
  - by apply samePort_rules.
  - destruct (negb (bool_decide _)); [apply samePort_staticArpMode|]; by apply samePort_rules.
Qed.

Lemma samePort_linked (p p' : ipPort) (t : Z) (r : option portRef) :
  samePort (with_opposite r (with_Type t p)) p' → samePort p p'.
Proof. done. Qed.

Lemma checkPair_frame (host : string) (i : nat) (pp : portPair) (kni dhcp : bool) :
  samePair pp (checkPair host i pp kni dhcp).1.1.1
  ∧ (kni = true → (checkPair host i pp kni dhcp).1.1.2 = true)
  ∧ (dhcp = true → (checkPair host i pp kni dhcp).1.2 = true).
Proof.
  assert (samePair pp (linkPair i pp)) as Hlink.
  { repeat split; apply Forall2_same_length_lookup_2; try done;
      intros j x y Hx Hy; (assert (x = y) as -> by (simpl in *; congruence)); apply sameRule_refl. }
  unfold checkPair.
  destruct (vlanVerdict _ _); [by split|].
  destruct (vlanKNIVerdict _ _); [by split|].
  destruct (checkPort_frame host (PrivatePort (linkPair i pp)) (PublicPort (linkPair i pp))
              kni dhcp) as (Hp1 & Hk1 & Hd1).
  destruct (checkPort host (PrivatePort (linkPair i pp)) (PublicPort (linkPair i pp)) kni dhcp)
    as [[[priv' kni1] dhcp1] r1]. cbn [fst snd] in *.
  apply samePort_linked in Hp1.
  destruct r1 as [e|]; cbn [fst snd].
  { split; [| by split]. split; [done|]. split; [| done]. apply Hlink. }
  destruct (checkPort_frame host (PublicPort (linkPair i pp)) priv' kni1 dhcp1)
    as (Hp2 & Hk2 & Hd2).
  destruct (checkPort host (PublicPort (linkPair i pp)) priv' kni1 dhcp1)
    as [[[pub' kni2] dhcp2] r2]. cbn [fst snd] in *.
  apply samePort_linked in Hp2.
  split; [by split | split; auto].
Qed.

Lemma checkPairs_frame (host : string) (i : nat) (pps : list portPair) (kni dhcp : bool) :
  Forall2 samePair pps (checkPairs host i pps kni dhcp).1.1.1
  ∧ (kni = true → (checkPairs host i pps kni dhcp).1.1.2 = true)
  ∧ (dhcp = true → (checkPairs host i pps kni dhcp).1.2 = true).
Proof.
  revert i kni dhcp. induction pps as [|pp pps IH]; intros i kni dhcp; cbn [checkPairs];
    [by split|].
  destruct (checkPair_frame host i pp kni dhcp) as (Hp & Hk & Hd).
  destruct (checkPair host i pp kni dhcp) as [[[pp' kni1] dhcp1] r]. cbn [fst snd] in *.
  destruct r as [e|]; cbn [fst snd].
  { split; [| by split]. apply Forall2_cons. split; [done|].
    apply Forall2_same_length_lookup_2; [done|]. intros j x y Hx Hy.
    assert (x = y) as -> by congruence.
    split; [apply samePort_refl | split; [apply samePort_refl | done]]. }
  destruct (IH (S i) kni1 dhcp1) as (Hps & Hk2 & Hd2).
  destruct (checkPairs host (S i) pps kni1 dhcp1) as [[[pps' kni2] dhcp2] r]. cbn [fst snd] in *.
  split; [by apply Forall2_cons | split; auto].
Qed.

(** X10: a load is not transactional. When the file cannot be opened the
    store is left as it was. Once the file is decoded, whatever the outcome
    of the checks (also when one of them fails), [Natconfig] holds the
    decoded configuration: its host name, its flags with those requested
    set, and pair by pair its interfaces, in which nothing has been written
    but the type, the back-reference, the static ARP mode and destination
    ports of rules; and a process-wide flag that was set stays set. *)
Theorem ReadConfig_not_transactional `{Environment} (fileName : string)
    (setKniIP_ bringUp_ : bool) (w : World) :
  let run := ReadConfig fileName setKniIP_ bringUp_ w in
  (∀ e, os_Open fileName = Fail e → run = (w, Fail e))
  ∧ (∀ file decoded,
       os_Open fileName = Done file → json_Decode file = Done decoded →
       HostName (Natconfig run.1) = HostName decoded
       ∧ setKniIP (Natconfig run.1) = setKniIP_ || setKniIP decoded
       ∧ bringUpKniInterfaces (Natconfig run.1) = bringUp_ || bringUpKniInterfaces decoded
       ∧ Forall2 samePair (PortPairs decoded) (PortPairs (Natconfig run.1))
       ∧ (NeedKNI w = true → NeedKNI run.1 = true)
       ∧ (NeedDHCP w = true → NeedDHCP run.1 = true)
       ∧ clock run.1 = clock w).
Proof.
  intros run. split.
  { intros e He. unfold run, ReadConfig, lift. by rewrite M_bind_run, He. }
  intros file decoded Hopen Hdec. unfold run.
  rewrite (ReadConfig_run _ _ _ _ _ _ Hopen Hdec).
  destruct (checkPairs_frame (HostName decoded) 0 (PortPairs decoded) (NeedKNI w) (NeedDHCP w))
    as (Hps & Hk & Hd).
  destruct (checkPairs _ _ _ _ _) as [[[pps' kni'] dhcp'] r]. cbn [fst snd] in *.
  cbn [Natconfig NeedKNI NeedDHCP clock fst].
  split; [done|]. split; [by destruct setKniIP_|]. split; [by destruct bringUp_|]. done.
Qed.

(** ** Loading a loaded configuration again *)

Lemma ruleAccepted_idem (f : forwardedPort.t) : ruleAccepted (ruleAccepted f) = ruleAccepted f.
Proof.
  unfold ruleAccepted.
  destruct (isAddrZero f) eqn:Hz; [by rewrite Hz|].
  destruct (hostPort.Port (forwardedPort.Destination f) =? 0) eqn:Hp.
  - assert (isAddrZero (with_DestinationPort (forwardedPort.Port f) f) = false) as -> by done.
    simpl. destruct (forwardedPort.Port f =? 0) eqn:Hp0; [| done].
    apply Z.eqb_eq in Hp0. by rewrite Hp0.
  - by rewrite Hz, Hp.
Qed.

Lemma ruleVerdict_accepted (p o p' o' : ipPort) (f : forwardedPort.t) :
  ruleVerdict p o f = None →
  KNIName p' = KNIName p → Type_ p' = Type_ p →
  Subnet o' = Subnet o → Subnet6 o' = Subnet6 o →
  ruleVerdict p' o' (ruleAccepted f) = None.
Proof.
  intros Hv Hn Ht H4 H6. unfold ruleAccepted.
  destruct (isAddrZero f) eqn:Hz.
  { unfold ruleVerdict in *. rewrite Hz in *. rewrite Hn.
    destruct (negb (eqb _ _)); [done|]. destruct (String.eqb _ _); [done|]. done. }
  assert (∀ g, sameRule f g → ruleVerdict p' o' g = None) as Hg.
  { intros g ->. unfold ruleVerdict in *.
    assert (isAddrZero (with_DestinationPort
                          (hostPort.Port (forwardedPort.Destination g)) f) = false) as ->
      by done.
    rewrite Hz in Hv. cbn. rewrite Ht, H4, H6. done. }
  destruct (_ =? 0); apply Hg; [done | apply sameRule_refl].
Qed.

Lemma acceptedPort_fields (p : ipPort) :
  KNIName (acceptedPort p) = KNIName p ∧ Type_ (acceptedPort p) = Type_ p
  ∧ Subnet (acceptedPort p) = Subnet p ∧ Subnet6 (acceptedPort p) = Subnet6 p
  ∧ Index (acceptedPort p) = Index p ∧ Vlan (acceptedPort p) = Vlan p
  ∧ DstMACAddress (acceptedPort p) = DstMACAddress p
  ∧ ForwardPorts (acceptedPort p) = map ruleAccepted (ForwardPorts p).
Proof. unfold acceptedPort. by destruct (negb _). Qed.

Lemma acceptedPair_idem (i : nat) (pp : portPair) :
  acceptedPair i (acceptedPair i pp) = acceptedPair i pp.
Proof.
  assert (∀ p t r, acceptedPort (with_opposite r (with_Type t
                     (acceptedPort (with_opposite r (with_Type t p)))))
                   = acceptedPort (with_opposite r (with_Type t p))) as Hport.
  { intros p t r. unfold acceptedPort. simpl.
    destruct (negb (bool_decide (DstMACAddress p = zeroMACAddress))) eqn:Hm; simpl;
      rewrite ?Hm; simpl; unfold with_staticArpMode, with_ForwardPorts; simpl;
      rewrite <- !list_fmap_compose;
      by rewrite (list_fmap_ext (ruleAccepted ∘ ruleAccepted) ruleAccepted (ForwardPorts p))
        by (intros; apply ruleAccepted_idem). }
  unfold acceptedPair, linkPair. simpl. by rewrite !Hport.
Qed.

Lemma firstError_all_None (l : list (option error)) :
  Forall (λ v, v = None) l → firstError l = None.
Proof. intros Hl. apply firstError_None. by apply Forall_forall. Qed.

Lemma acceptedPair_select (i : nat) (pp : portPair) (s : member) :
  select s (linkPair i (acceptedPair i pp)) = 
  with_opposite (Some {| pairIndex := i; side := other s |})
    (with_Type (sideType s) (acceptedPort (select s (linkPair i pp)))).
Proof. by destruct s. Qed.

Lemma portChecks_accepted (host : string) (i : nat) (pp : portPair) (s : member) :
  firstError (portChecks host (select s (linkPair i pp)) (select (other s) (linkPair i pp)))
    = None →
  firstError (portChecks host (select s (linkPair i (acceptedPair i pp)))
                (select (other s) (linkPair i (acceptedPair i pp)))) = None.
Proof.
  rewrite !firstError_None. unfold portChecks. intros Hall v Hv.
  destruct (acceptedPort_fields (select s (linkPair i pp)))
    as (Hn & Ht & H4 & H6 & Hi & _ & _ & Hfs).
  destruct (acceptedPort_fields (select (other s) (linkPair i pp)))
    as (_ & _ & Ho4 & Ho6 & _).
  apply elem_of_cons in Hv as [-> | Hv].
  - assert (dhcpVerdict host (select s (linkPair i (acceptedPair i pp)))
            = dhcpVerdict host (select s (linkPair i pp))) as ->.
    { rewrite acceptedPair_select. unfold dhcpVerdict. cbn. by rewrite H4, Hi. }
    apply Hall. left.
  - apply list_elem_of_fmap in Hv as (g & -> & Hg).
    rewrite acceptedPair_select in Hg. cbn in Hg. rewrite Hfs in Hg.
    apply list_elem_of_fmap in Hg as (f & -> & Hf).
    apply (ruleVerdict_accepted (select s (linkPair i pp)) (select (other s) (linkPair i pp)));
      [| rewrite ?acceptedPair_select; cbn; first [done | by destruct s] .. ].
    apply Hall. right. by apply (list_elem_of_fmap_2 (ruleVerdict _ _)).
Qed.

Lemma pairChecks_accepted (host : string) (i : nat) (pp : portPair) :
  firstError (pairChecks host i pp) = None →
  firstError (pairChecks host i (acceptedPair i pp)) = None.
Proof.
  unfold pairChecks. cbv zeta. rewrite !firstError_app.
  assert (vlanVerdict (PrivatePort (linkPair i (acceptedPair i pp)))
                      (PublicPort (linkPair i (acceptedPair i pp)))
          = vlanVerdict (PrivatePort (linkPair i pp)) (PublicPort (linkPair i pp))) as ->.
  { unfold vlanVerdict, acceptedPair, linkPair, acceptedPort. simpl.
    by destruct (negb (bool_decide (DstMACAddress (PrivatePort pp) = zeroMACAddress))),
         (negb (bool_decide (DstMACAddress (PublicPort pp) = zeroMACAddress))). }
  assert (vlanKNIVerdict (PrivatePort (linkPair i (acceptedPair i pp)))
                         (PublicPort (linkPair i (acceptedPair i pp)))
          = vlanKNIVerdict (PrivatePort (linkPair i pp)) (PublicPort (linkPair i pp))) as ->.
  { unfold vlanKNIVerdict, acceptedPair, linkPair, acceptedPort. simpl.
    by destruct (negb (bool_decide (DstMACAddress (PrivatePort pp) = zeroMACAddress))). }
  destruct (firstError [_; _]); [done|].
  pose proof (portChecks_accepted host i pp inPrivatePort) as H1.
  pose proof (portChecks_accepted host i pp inPublicPort) as H2.
  cbn [select other] in H1, H2.
  destruct (firstError (portChecks host (PrivatePort (linkPair i pp)) _)); [done|].
  rewrite (H1 eq_refl). intros Hpub. by apply H2.
Qed.

Lemma loadChecksFrom_accepted (host : string) (i : nat) (pps : list portPair) :
  firstError (loadChecksFrom host i pps) = None →
  firstError (loadChecksFrom host i (imap (λ j, acceptedPair (i + j)) pps)) = None.
Proof.
  revert i. induction pps as [|pp pps IH]; intros i; [done|].
  cbn [loadChecksFrom imap]. rewrite !firstError_app.
  destruct (firstError (pairChecks host i pp)) eqn:H1; [done|]. intros H2.
  rewrite Nat.add_0_r, (pairChecks_accepted _ _ _ H1).
  rewrite (imap_ext _ (λ j, acceptedPair (S i + j))); [by apply IH|].
  intros j x _. simpl. f_equal. lia.
Qed.

Lemma imap_acceptedPair_idem (i : nat) (pps : list portPair) :
  imap (λ j, acceptedPair (i + j)) (imap (λ j, acceptedPair (i + j)) pps)
  = imap (λ j, acceptedPair (i + j)) pps.
Proof.
  apply list_eq. intros k. rewrite !list_lookup_imap.
  destruct (pps !! k); simpl; [| done]. by rewrite acceptedPair_idem.
Qed.

Lemma existsb_imap_accepted (g : ipPort → bool) (pps : list portPair) :
  (∀ p t r, g (acceptedPort (with_opposite r (with_Type t p))) = g p) →
  existsb (λ pp, g (PrivatePort pp) || g (PublicPort pp)) (imap acceptedPair pps)
  = existsb (λ pp, g (PrivatePort pp) || g (PublicPort pp)) pps.
Proof.
  intros Hg. assert (∀ i, existsb (λ pp, g (PrivatePort pp) || g (PublicPort pp))
                            (imap (λ j, acceptedPair (i + j)) pps)
                          = existsb (λ pp, g (PrivatePort pp) || g (PublicPort pp)) pps) as Hi.
  { induction pps as [|pp pps IH]; intros i; [done|]. cbn [imap existsb].
    rewrite (imap_ext _ (λ j, acceptedPair (S i + j))) by (intros j x _; simpl; f_equal; lia).
    rewrite IH. unfold acceptedPair at 1 2, linkPair. simpl. by rewrite !Hg. }
  apply (Hi 0%nat).
Qed.

(** X11: a configuration that has passed the load is a fixed point of the
    load: when the file decodes to the configuration a successful load has
    left in [Natconfig], loading it succeeds again and leaves the very same
    configuration and the same two flags. *)
Theorem ReadConfig_idempotent `{Environment} (fileName file : string) (decoded : Config)
    (setKniIP_ bringUp_ : bool) (w : World)
    (fileName' file' : string) (setKniIP' bringUp' : bool) :
  let run := ReadConfig fileName setKniIP_ bringUp_ w in
  let again := ReadConfig fileName' setKniIP' bringUp' run.1 in
  os_Open fileName = Done file →
  json_Decode file = Done decoded →
  run.2 = Done tt →
  os_Open fileName' = Done file' →
  json_Decode file' = Done (Natconfig run.1) →
  (setKniIP' = true → setKniIP (Natconfig run.1) = true) →
  (bringUp' = true → bringUpKniInterfaces (Natconfig run.1) = true) →
  again = (run.1, Done tt).
Proof.
  intros run again Hopen Hdec Hdone Hopen' Hdec' Hf1 Hf2.
  pose proof (ReadConfig_accepted fileName file decoded setKniIP_ bringUp_ w
                Hopen Hdec Hdone) as Hrun1.
  fold run in Hrun1, Hdone.
  assert (firstError (loadChecks (HostName decoded) (PortPairs decoded)) = None) as Hchecks.
  { pose proof (ReadConfig_outcome fileName file decoded setKniIP_ bringUp_ w Hopen Hdec) as Ho.
    fold run in Ho. rewrite Hdone in Ho. by destruct (firstError _). }
  unfold again. rewrite (ReadConfig_run _ _ _ _ _ _ Hopen' Hdec').
  pose proof (checkPairs_error (HostName (Natconfig run.1)) 0 (PortPairs (Natconfig run.1))
                (NeedKNI run.1) (NeedDHCP run.1)) as Herr.
  pose proof (checkPairs_accepted (HostName (Natconfig run.1)) 0 (PortPairs (Natconfig run.1))
                (NeedKNI run.1) (NeedDHCP run.1)) as Hacc.
  assert (firstError (loadChecksFrom (HostName (Natconfig run.1)) 0
                        (PortPairs (Natconfig run.1))) = None) as Hnone.
  { rewrite Hrun1. cbn [Natconfig HostName PortPairs].
    by apply (loadChecksFrom_accepted (HostName decoded) 0). }
  rewrite Hnone in Herr.
  destruct (checkPairs _ _ _ _ _) as [[[pps' kni'] dhcp'] r]. cbn [fst snd] in *.
  subst r. specialize (Hacc eq_refl). injection Hacc as -> -> ->.
  cbn [result]. f_equal. rewrite Hrun1. cbn [Natconfig NeedKNI NeedDHCP clock PortPairs].
  rewrite Hrun1 in Hf1, Hf2. cbn [Natconfig setKniIP bringUpKniInterfaces] in Hf1, Hf2.
  rewrite (imap_acceptedPair_idem 0).
  rewrite !existsb_imap_accepted
    by (intros p t r; unfold hasKNIName, awaitsDHCP, acceptedPort; simpl;
        by destruct (bool_decide (DstMACAddress p = zeroMACAddress))).
  f_equal.
  - unfold loaded, with_PortPairs. cbn. f_equal.
    + destruct setKniIP'; [| done]. symmetry. exact (Hf1 eq_refl).
    + destruct bringUp'; [| done]. symmetry. exact (Hf2 eq_refl).
  - by rewrite orb_assoc, orb_diag.
  - by rewrite orb_assoc, orb_diag.
Qed.

(** ** The rules validation accepts *)

Lemma ruleVerdict_Some_iff (p o : ipPort) (f : forwardedPort.t) :
  (∃ e, ruleVerdict p o f = Some e) ↔ rejected (Type_ p) (KNIName p) o f ∨ portMismatch f.
Proof.
  split.
  - intros [e He]. unfold ruleVerdict in He. unfold rejected, portMismatch, destinationWithin.
    destruct (eqb (hostPort.ipv6 (forwardedPort.Destination f))
                  (protocolId.ipv6 (forwardedPort.Protocol f))) eqn:Hfam; simpl in He.
    2:{ left. left. intros Heq. rewrite Heq in Hfam. by rewrite eqb_reflx in Hfam. }
    destruct (isAddrZero f) eqn:Hz.
    + destruct (String.eqb (KNIName p) "") eqn:Hn.
      * left. do 3 right. split; [done|]. by apply String.eqb_eq.
      * destruct (Z.eqb_spec (hostPort.Port (forwardedPort.Destination f))
                             (forwardedPort.Port f)); simpl in He; [done|]. by right.
    + left. right.
      destruct (Z.eqb_spec (Type_ p) iPRIVATE); [by left|]. right. left. split; [done|].
      destruct (hostPort.ipv6 (forwardedPort.Destination f)).
      * by destruct (ipv6Subnet.checkAddrWithingSubnet _ _).
      * by destruct (ipv4Subnet.checkAddrWithingSubnet _ _).
  - intros [Hrej | [Hz Hne]]; [by apply rejected_verdict|].
    unfold ruleVerdict. destruct (negb (eqb _ _)); [by eexists|]. rewrite Hz.
    destruct (String.eqb _ _); [by eexists|].
    destruct (Z.eqb_spec (hostPort.Port (forwardedPort.Destination f)) (forwardedPort.Port f));
      [done | by eexists].
Qed.

(** X12: checkPortForwarding on a rule of a linked interface returns an
    error in exactly five cases: the four of the address-family mismatch, of
    a concrete destination on a private interface, of a concrete destination
    outside the subnet of the opposite interface and of the unspecified
    address on an interface without bridge-device name, and the case of the
    unspecified address with a destination port that differs from the
    forwarded port. It never panics, and when it returns an error it has
    written nothing: the store is as before the call. *)
Theorem checkPortForwarding_error_iff (w : World) (i k : nat) (s : member) (pp : portPair)
    (f : forwardedPort.t) :
  PortPairs (Natconfig w) !! i = Some pp →
  ForwardPorts (select s pp) !! k = Some f →
  opposite (select s pp) = Some {| pairIndex := i; side := other s |} →
  let port := {| pairIndex := i; side := s |} in
  let run := checkPortForwarding port {| ofPort := port; ruleIndex := k |} w in
  (returnsError run.2
   ↔ rejected (Type_ (select s pp)) (KNIName (select s pp)) (select (other s) pp) f
     ∨ portMismatch f)
  ∧ (run.2 = Done tt ∨ returnsError run.2)
  ∧ (returnsError run.2 → run.1 = w).
Proof.
  intros Hi Hf Hopp. destruct (world_focus w i pp Hi) as (pre & post & <- & Hw).
  cbv zeta.
  set (run := checkPortForwarding _ _ w).
  assert (run = match ruleVerdict (select s pp) (select (other s) pp) f with
                | Some e => (w, Fail e)
                | None =>
                    (focus (Natconfig w) (clock w) pre post
                       (update s (with_ForwardPorts
                                    (<[k := ruleAccepted f]> (ForwardPorts (select s pp)))
                                    (select s pp)) pp)
                       (ruleNeedKNI f (NeedKNI w)) (NeedDHCP w), Done tt)
                end) as ->.
  { unfold run. rewrite Hw at 1. rewrite (checkPortForwarding_focus _ _ _ _ s k f) by done.
    destruct (ruleVerdict _ _ f); by rewrite <- ?Hw. }
  rewrite <- ruleVerdict_Some_iff.
  destruct (ruleVerdict _ _ f) as [e|]; cbn [fst snd].
  - split; [| split]; [| right; by exists e | done].
    split; intros _; by exists e.
  - split; [| split]; [| by left | by intros [e He]].
    split; [by intros [e He] | by intros [e He]].
Qed.

Lemma checkPortForwarding_error_iff_witness :
  returnsError
    (checkPortForwarding {| pairIndex := 0; side := inPublicPort |}
       {| ofPort := {| pairIndex := 0; side := inPublicPort |}; ruleIndex := 0 |}
       (mkWorld (mkConfig "" [linkPair 0 outsidePair] false false) false false 0)).2.
Proof.
  refine (proj2 (proj1 (checkPortForwarding_error_iff
                   (mkWorld (mkConfig "" [linkPair 0 outsidePair] false false) false false 0)
                   0 0 inPublicPort (linkPair 0 outsidePair) outsideRule
                   eq_refl eq_refl eq_refl)) _).
  left. right. right. left. split; reflexivity.
Defined.

(** ** The stateful installation computes the function on values *)

Lemma insert_alter {A} (g : A → A) (l : list A) (i : nat) (x : A) :
  l !! i = Some x → <[i := g x]> l = alter g i l.
Proof.
  revert i. induction l as [|y l IH]; intros [|i] Hi; simplify_eq/=; try done.
  f_equal. by apply IH.
Qed.

Lemma sameShape_refl (pp : portPair) : sameShape pp pp.
Proof. by intros s. Qed.

Lemma sameShape_trans (pp1 pp2 pp3 : portPair) :
  sameShape pp1 pp2 → sameShape pp2 pp3 → sameShape pp1 pp3.
Proof.
  intros H12 H23 s. destruct (H12 s) as (? & ? & ? & ? & ? & ? & ? & ? & Hr1).
  destruct (H23 s) as (? & ? & ? & ? & ? & ? & ? & ? & Hr2).
  repeat split; first [congruence | intros f; by rewrite Hr2, Hr1].
Qed.

Lemma sameShape_update_tables (s : member) (pp : portPair) (tt : list (gmap endpoint endpoint)) :
  length tt = length (translationTable (select s pp)) →
  sameShape pp (update s (with_translationTable tt (select s pp)) pp).
Proof. intros Hl s'. destruct s, s'; by simpl in *. Qed.

Lemma storeEntry_shape (s : member) (protocol : Z) (key value : endpoint) (pp : portPair) :
  sameShape pp (update s (storeEntry protocol key value (select s pp)) pp).
Proof. apply sameShape_update_tables. apply length_alter. Qed.

Lemma storeRule_shape (s : member) (f : forwardedPort.t) (pp : portPair) :
  sameShape pp (storeRule s f pp).
Proof.
  unfold storeRule. cbv zeta.
  set (pp1 := update s _ pp).
  assert (sameShape pp pp1) as H1 by apply storeEntry_shape.
  destruct (destinationNonZero f); [| done].
  eapply sameShape_trans; [exact H1|]. apply storeEntry_shape.
Qed.

Lemma slotRow_markStatic (now : Z) (f g : forwardedPort.t) (p : ipPort) :
  length (slotRow (markStatic now f p) g) = length (slotRow p g).
Proof.
  unfold slotRow, markStatic.
  destruct (protocolId.ipv6 (forwardedPort.Protocol f)),
           (protocolId.ipv6 (forwardedPort.Protocol g)); cbn; try done.
  - destruct (decide (Z.to_nat (protocolId.id (forwardedPort.Protocol f))
                      = Z.to_nat (protocolId.id (forwardedPort.Protocol g)))) as [->|Hne].
    + rewrite list_lookup_alter_eq. destruct (portmap6 p !! _); simpl; [| done].
      by rewrite length_insert.
    + by rewrite list_lookup_alter_ne.
  - destruct (decide (Z.to_nat (protocolId.id (forwardedPort.Protocol f))
                      = Z.to_nat (protocolId.id (forwardedPort.Protocol g)))) as [->|Hne].
    + rewrite list_lookup_alter_eq. destruct (portmap p !! _); simpl; [| done].
      by rewrite length_insert.
    + by rewrite list_lookup_alter_ne.
Qed.

Lemma markStatic_shape (now : Z) (s : member) (f : forwardedPort.t) (pp : portPair) :
  sameShape pp (update s (markStatic now f (select s pp)) pp).
Proof.
  intros s'.
  assert (∀ p, ForwardPorts (markStatic now f p) = ForwardPorts p
               ∧ opposite (markStatic now f p) = opposite p
               ∧ Type_ (markStatic now f p) = Type_ p
               ∧ Subnet (markStatic now f p) = Subnet p
               ∧ Subnet6 (markStatic now f p) = Subnet6 p
               ∧ length (translationTable (markStatic now f p)) = length (translationTable p)
               ∧ length (portmap (markStatic now f p)) = length (portmap p)
               ∧ length (portmap6 (markStatic now f p)) = length (portmap6 p)
               ∧ ∀ g, length (slotRow (markStatic now f p) g) = length (slotRow p g)) as Hp.
  { intros p. repeat split; try (unfold markStatic; by destruct (protocolId.ipv6 _)).
    - unfold markStatic. destruct (protocolId.ipv6 _); [done|]. apply length_alter.
    - unfold markStatic. destruct (protocolId.ipv6 _); [| done]. apply length_alter.
    - intros g. apply slotRow_markStatic. }
  destruct s, s'; simpl; first [apply Hp | done].
Qed.

Lemma installRule_shape (now : Z) (s : member) (f : forwardedPort.t) (pp : portPair) :
  sameShape pp (installRule now s f pp).
Proof.
  unfold installRule. cbv zeta.
  destruct (Type_ (select s pp) =? iPUBLIC); [| apply storeRule_shape].
  eapply sameShape_trans; [apply storeRule_shape | apply markStatic_shape].
Qed.

Lemma sameShape_linked (i : nat) (pp pp' : portPair) :
  sameShape pp pp' → linked i pp → linked i pp'.
Proof.
  intros Hs Hl s. destruct (Hs s) as (_ & Ho & Ht & _). destruct (Hl s). by rewrite Ho, Ht.
Qed.

Lemma sameShape_ready (pp pp' : portPair) :
  sameShape pp pp' → tablesReady pp → tablesReady pp'.
Proof.
  intros Hs (Ht & Hp & Hp6). split; [| split].
  - intros s. destruct (Hs s) as (_ & _ & _ & _ & _ & Hl & _). by rewrite Hl.
  - destruct (Hs inPublicPort) as (_ & _ & _ & _ & _ & _ & Hl & _). simpl in Hl. by rewrite Hl.
  - destruct (Hs inPublicPort) as (_ & _ & _ & _ & _ & _ & _ & Hl & _). simpl in Hl.
    by rewrite Hl.
Qed.

Lemma sameShape_forwardKey (pp pp' : portPair) (s : member) (f : forwardedPort.t) :
  sameShape pp pp' → forwardKey (select s pp') f = forwardKey (select s pp) f.
Proof.
  intros Hs. destruct (Hs s) as (_ & _ & _ & H4 & H6 & _). unfold forwardKey. by rewrite H4, H6.
Qed.

Lemma sameShape_lacksSlot (pp pp' : portPair) (s : member) (f : forwardedPort.t) :
  sameShape pp pp' → lacksSlot s f pp' = lacksSlot s f pp.
Proof.
  intros Hs. destruct (Hs s) as (_ & _ & Ht & _ & _ & _ & _ & _ & Hr).
  unfold lacksSlot, hasSlot. by rewrite Ht, Hr.
Qed.

Section Install.
Context (cfg : Config) (clk : Z) (pre post : list portPair).

Local Abbreviation W := (focus cfg clk pre post).
Local Abbreviation at_ s := {| pairIndex := length pre; side := s |}.

Lemma tableStore_run s (protocol : Z) (key value : endpoint) pp kni dhcp :
  (Z.to_nat protocol < length (translationTable (select s pp)))%nat →
  tableStore (at_ s) protocol key value (W pp kni dhcp)
  = (W (update s (storeEntry protocol key value (select s pp)) pp) kni dhcp, Done tt).
Proof.
  intros Hlt. destruct (lookup_lt_is_Some_2 _ _ Hlt) as [t Ht].
  rewrite (tableStore_focus cfg clk pre post s protocol key value t) by done.
  unfold storeEntry. by rewrite (insert_alter (<[key := value]>) _ _ t).
Qed.

Lemma portmapStore_run s (now : Z) (f : forwardedPort.t) pp kni dhcp :
  let p := select s pp in
  let v6 := protocolId.ipv6 (forwardedPort.Protocol f) in
  let protocol := protocolId.id (forwardedPort.Protocol f) in
  (Z.to_nat protocol < length (if v6 then portmap6 p else portmap p))%nat →
  portmapStore (at_ s) v6 protocol (forwardedPort.Port f) (staticEntry now) (W pp kni dhcp)
  = if hasSlot p f
    then (W (update s (markStatic now f p) pp) kni dhcp, Done tt)
    else (W pp kni dhcp,
          Panic (IndexOutOfRange (Z.to_nat (forwardedPort.Port f)) (length (slotRow p f)))).
Proof.
  intros p v6 protocol Hlt. destruct (lookup_lt_is_Some_2 _ _ Hlt) as [slots Hslots].
  assert (getPortmap p v6 protocol = Done slots) as Hget.
  { unfold getPortmap. by rewrite Hslots. }
  assert (slotRow p f = slots) as Hrow.
  { unfold slotRow. fold v6 protocol. by rewrite Hslots. }
  unfold hasSlot. rewrite Hrow. case_bool_decide as Hslot.
  - rewrite (portmapStore_focus cfg clk pre post s v6 protocol _ _ slots) by done.
    do 3 f_equal. unfold markStatic. fold v6 protocol p.
    destruct v6; by rewrite (insert_alter (<[_ := staticEntry now]>) _ _ slots).
  - unfold portmapStore, lift. rewrite M_bind_run, loadPort_focus. cbv beta iota.
    fold p. rewrite M_bind_run, Hget. cbv beta iota.
    by rewrite (lookup_ge_None_2 slots) by lia.
Qed.

Lemma enableStaticPortForward_run s k f pp kni dhcp :
  ForwardPorts (select s pp) !! k = Some f →
  linked (length pre) pp →
  tablesReady pp →
  0 ≤ protocolId.id (forwardedPort.Protocol f) < 256 →
  enableStaticPortForward (at_ s) {| ofPort := at_ s; ruleIndex := k |} (W pp kni dhcp)
  = if lacksSlot s f pp
    then (W (storeRule s f pp) kni dhcp,
          Panic (IndexOutOfRange (Z.to_nat (forwardedPort.Port f))
                                 (length (slotRow (select s pp) f))))
    else (W (installRule clk s f pp) kni dhcp, Done tt).
Proof.
  intros Hf Hlink (Htables & Hpm & Hpm6) Hid.
  destruct (Hlink s) as [Hopp Htype].
  set (p := select s pp) in *.
  set (protocol := protocolId.id (forwardedPort.Protocol f)) in *.
  (* the two stores *)
  assert (∀ prog : M unit,
            (tableStore (at_ s) protocol (forwardKey p f) (forwardValue f)
             ≫= λ _, (if destinationNonZero f
                      then deref (opposite p)
                           ≫= λ opp, tableStore opp protocol (forwardValue f) (forwardKey p f)
                      else mret tt)
             ≫= λ _, prog) (W pp kni dhcp)
            = prog (W (storeRule s f pp) kni dhcp)) as Hstores.
  { intros prog. rewrite M_bind_run, tableStore_run by (rewrite Htables; lia).
    cbv beta iota. rewrite M_bind_run. unfold storeRule. cbv zeta. fold p protocol.
    destruct (destinationNonZero f).
    - rewrite M_bind_run, Hopp. cbn [deref]. rewrite mret_run. cbv beta iota.
      rewrite tableStore_run; [done|].
      rewrite select_update_other, Htables. lia.
    - by rewrite mret_run. }
  assert (enableStaticPortForward (at_ s) {| ofPort := at_ s; ruleIndex := k |} (W pp kni dhcp)
          = (if Type_ p =? iPUBLIC
             then gets clock ≫= λ now,
                    portmapStore (at_ s) (protocolId.ipv6 (forwardedPort.Protocol f)) protocol
                                 (forwardedPort.Port f) (staticEntry now)
             else mret tt) (W (storeRule s f pp) kni dhcp)) as ->.
  { unfold enableStaticPortForward, when.
    rewrite M_bind_run, (loadFP_focus _ _ _ _ s k f) by done. cbv beta iota.
    rewrite M_bind_run, loadPort_focus. cbv beta iota. fold p.
    rewrite <- Hstores. unfold forwardKey, forwardValue, destinationNonZero, protocol.
    by destruct (protocolId.ipv6 (forwardedPort.Protocol f)). }
  pose proof (storeRule_shape s f pp) as Hshape.
  destruct (Hshape s) as (_ & _ & Ht2 & _ & _ & _ & Hl & Hl6 & Hrows).
  unfold lacksSlot, installRule. cbv zeta. fold p.
  destruct (Z.eqb_spec (Type_ p) iPUBLIC) as [Hpub|Hpriv]; cbn [andb]; [| by rewrite mret_run].
  assert (s = inPublicPort) as -> by (destruct s; [by rewrite Htype in Hpub | done]).
  rewrite M_bind_run, gets_run. cbv beta iota.
  rewrite portmapStore_run.
  - unfold hasSlot. rewrite Hrows. fold p.
    by destruct (bool_decide (_ < length (slotRow p f))%nat).
  - fold protocol. simpl in Hl, Hl6. simpl.
    destruct (protocolId.ipv6 _); rewrite ?Hl, ?Hl6, ?Hpm, ?Hpm6; lia.
Qed.

(** The loop over the rules of one interface, entered at rule [length seen]. *)
Lemma install_loop s (todo seen : list forwardedPort.t) pp kni dhcp :
  ForwardPorts (select s pp) = seen ++ todo →
  linked (length pre) pp →
  tablesReady pp →
  (∀ f, f ∈ todo → 0 ≤ protocolId.id (forwardedPort.Protocol f) < 256) →
  forRangeFrom (length seen) (length todo)
    (λ i, enableStaticPortForward (at_ s) {| ofPort := at_ s; ruleIndex := i |})
    (W pp kni dhcp)
  = let '(pp', r) := installRules clk s todo pp in (W pp' kni dhcp, crashed r).
Proof.
  revert seen pp. induction todo as [|f todo IH]; intros seen pp Hfs Hlink Hready Hids; [done|].
  cbn [forRangeFrom length installRules]. rewrite M_bind_run.
  rewrite (enableStaticPortForward_run s (length seen) f); [| | done | done |].
  2:{ rewrite Hfs. by apply list_lookup_middle. }
  2:{ apply Hids. left. }
  destruct (lacksSlot s f pp); [done|].
  pose proof (installRule_shape clk s f pp) as Hshape.
  specialize (IH (seen ++ [f]) (installRule clk s f pp)).
  rewrite length_app, Nat.add_1_r in IH. rewrite IH; [done | | | |].
  - destruct (Hshape s) as (-> & _). by rewrite Hfs, <- app_assoc.
  - by apply (sameShape_linked _ pp).
  - by apply (sameShape_ready pp).
  - intros g Hg. apply Hids. by right.
Qed.

Lemma initPortPortForwardingEntries_run s pp kni dhcp :
  linked (length pre) pp →
  tablesReady pp →
  (∀ f, f ∈ ForwardPorts (select s pp) → 0 ≤ protocolId.id (forwardedPort.Protocol f) < 256) →
  initPortPortForwardingEntries (at_ s) (W pp kni dhcp)
  = let '(pp', r) := installRules clk s (ForwardPorts (select s pp)) pp in
    (W pp' kni dhcp, crashed r).
Proof.
  intros Hlink Hready Hids. unfold initPortPortForwardingEntries.
  rewrite M_bind_run, loadPort_focus. cbv beta iota.
  by apply (install_loop s (ForwardPorts (select s pp)) []).
Qed.

End Install.

Lemma installRules_shape (now : Z) (s : member) (fs : list forwardedPort.t) (pp : portPair) :
  sameShape pp (installRules now s fs pp).1.
Proof.
  revert pp. induction fs as [|f fs IH]; intros pp; cbn [installRules]; [apply sameShape_refl|].
  destruct (lacksSlot s f pp); [apply storeRule_shape|].
  eapply sameShape_trans; [apply installRule_shape | apply IH].
Qed.

Lemma allocatePair_linked `{Environment} (i : nat) (pp : portPair) :
  linked i pp → linked i (allocatePair pp).
Proof. intros Hl s. destruct (Hl s). by destruct s. Qed.

Lemma allocatePair_ready `{Environment} (pp : portPair) : tablesReady (allocatePair pp).
Proof.
  split; [| split].
  - by intros [].
  - unfold allocatePair. cbn [PublicPort portmap with_portmap with_portmap6].
    by rewrite !length_insert, length_replicate.
  - unfold allocatePair. cbn [PublicPort portmap6 with_portmap with_portmap6].
    by rewrite !length_insert, length_replicate.
Qed.

Lemma allocatePair_rules `{Environment} (pp : portPair) (s : member) :
  ForwardPorts (select s (allocatePair pp)) = ForwardPorts (select s pp)
  ∧ Subnet (select s (allocatePair pp)) = Subnet (select s pp)
  ∧ Subnet6 (select s (allocatePair pp)) = Subnet6 (select s pp).
Proof. by destruct s. Qed.

Section Startup.
Context `{Environment}.
Context (cfg : Config) (clk : Z) (pre post : list portPair).

Local Abbreviation W := (focus cfg clk pre post).

Lemma InitFlows_tables_run pp kni dhcp :
  linked (length pre) pp →
  protocolsInRange pp →
  InitFlows_tables (length pre) (W pp kni dhcp)
  = let '(pp', r) := initPair clk pp in (W pp' kni dhcp, crashed r).
Proof.
  intros Hlink Hids. unfold InitFlows_tables, allocateLookupMap, allocatePublicPortPortMap.
  do 2 (rewrite M_bind_run, modifyPort_focus; cbv beta iota).
  rewrite M_bind_run, M_bind_run, modifyPort_focus. cbv beta iota.
  rewrite modifyPort_focus. cbv beta iota.
  match goal with
  | |- context [focus cfg clk pre post ?q kni dhcp] =>
      change q with (allocatePair pp)
  end.
  unfold initPair. cbv zeta.
  set (pp0 := allocatePair pp).
  assert (linked (length pre) pp0) as Hl0 by by apply allocatePair_linked.
  assert (tablesReady pp0) as Hr0 by apply allocatePair_ready.
  assert (∀ s f, f ∈ ForwardPorts (select s pp0)
                 → 0 ≤ protocolId.id (forwardedPort.Protocol f) < 256) as Hids0.
  { intros s f Hf. apply (Hids s f). by destruct (allocatePair_rules pp s) as [<- _]. }
  rewrite M_bind_run.
  rewrite (initPortPortForwardingEntries_run cfg clk pre post inPrivatePort pp0)
    by (try done; apply Hids0).
  cbn [select].
  pose proof (installRules_shape clk inPrivatePort (ForwardPorts (PrivatePort pp0)) pp0) as Hshape.
  destruct (installRules clk inPrivatePort (ForwardPorts (PrivatePort pp0)) pp0) as [pp1 [p|]];
    [done|].
  cbn [crashed fst] in *.
  rewrite (initPortPortForwardingEntries_run cfg clk pre post inPublicPort pp1).
  - done.
  - by apply (sameShape_linked _ pp0).
  - by apply (sameShape_ready pp0).
  - intros f Hf. apply (Hids0 inPublicPort).
    by destruct (Hshape inPublicPort) as (<- & _).
Qed.

End Startup.

(** ** When the set-up of the tables panics *)

Lemma lacksSlot_private (i : nat) (pp : portPair) (f : forwardedPort.t) :
  linked i pp → lacksSlot inPrivatePort f pp = false.
Proof. intros Hl. destruct (Hl inPrivatePort) as [_ Ht]. unfold lacksSlot. by rewrite Ht. Qed.

Lemma installRules_private (now : Z) (i : nat) (fs : list forwardedPort.t) (pp : portPair) :
  linked i pp → (installRules now inPrivatePort fs pp).2 = None.
Proof.
  revert pp. induction fs as [|f fs IH]; intros pp Hl; cbn [installRules]; [done|].
  rewrite (lacksSlot_private i) by done. apply IH.
  by apply (sameShape_linked _ pp); [apply installRule_shape|].
Qed.

Lemma installRules_crash (now : Z) (s : member) (fs : list forwardedPort.t) (pp : portPair) :
  match (installRules now s fs pp).2 with
  | None => ∀ f, f ∈ fs → lacksSlot s f pp = false
  | Some p =>
      ∃ f, f ∈ fs ∧ lacksSlot s f pp = true
           ∧ p = IndexOutOfRange (Z.to_nat (forwardedPort.Port f))
                                 (length (slotRow (select s pp) f))
  end.
Proof.
  revert pp. induction fs as [|f fs IH]; intros pp; cbn [installRules].
  { intros f Hf. by apply elem_of_nil in Hf. }
  destruct (lacksSlot s f pp) eqn:Hlack.
  { exists f. split; [left | done]. }
  specialize (IH (installRule now s f pp)).
  pose proof (installRule_shape now s f pp) as Hshape.
  destruct (installRules now s fs (installRule now s f pp)) as [pp' [p|]]; cbn [snd] in *.
  - destruct IH as (g & Hg & Hlg & ->). exists g. split; [by right|].
    rewrite (sameShape_lacksSlot pp) in Hlg by done. split; [done|].
    destruct (Hshape s) as (_ & _ & _ & _ & _ & _ & _ & _ & Hr). by rewrite Hr.
  - intros g [-> | Hg]%elem_of_cons; [done|].
    rewrite <- (sameShape_lacksSlot pp (installRule now s f pp)) by done. by apply IH.
Qed.

Lemma portmap_rows (slots : list portMapEntry) (a b c n : nat) :
  (a < 256)%nat → (b < 256)%nat → (c < 256)%nat →
  default [] (<[a := slots]> (<[b := slots]> (<[c := slots]> (replicate 256 []))) !! n)
  = if decide (n = a ∨ n = b ∨ n = c) then slots else [].
Proof.
  intros Ha Hb Hc. rewrite !list_lookup_insert, !length_insert, length_replicate.
  repeat case_decide; try done; try (exfalso; lia).
  destruct (decide (n < 256)%nat).
  - by rewrite lookup_replicate_2.
  - by rewrite lookup_ge_None_2 by (rewrite length_replicate; lia).
Qed.

Lemma slotRow_allocatePair `{Environment} (pp : portPair) (f : forwardedPort.t) :
  hasSlot (PublicPort (allocatePair pp)) f = slotAllocated f
  ∧ (slotAllocated f = true →
     slotRow (PublicPort (allocatePair pp)) f = replicate portEnd zeroPortMapEntry).
Proof.
  unfold hasSlot, slotAllocated, slotRow, allocatePair.
  cbn [PublicPort portmap portmap6 with_portmap with_portmap6 with_translationTable].
  set (n := protocolId.id (forwardedPort.Protocol f)).
  destruct (protocolId.ipv6 (forwardedPort.Protocol f)).
  - rewrite portmap_rows by (unfold TCPNumber, UDPNumber, ICMPNumber, ICMPv6Number; lia).
    case_decide as Hrow.
    + rewrite length_replicate.
      assert ((n =? TCPNumber) || (n =? UDPNumber) || (n =? ICMPv6Number) = true) as ->.
      { unfold TCPNumber, UDPNumber, ICMPv6Number in *.
        destruct (Z.eqb_spec n 6), (Z.eqb_spec n 17), (Z.eqb_spec n 58); try done. lia. }
      by rewrite andb_true_r.
    + assert ((n =? TCPNumber) || (n =? UDPNumber) || (n =? ICMPv6Number) = false) as ->.
      { unfold TCPNumber, UDPNumber, ICMPv6Number in *.
        destruct (Z.eqb_spec n 6), (Z.eqb_spec n 17), (Z.eqb_spec n 58); try done;
          exfalso; apply Hrow; subst n; rewrite ?e; simpl; auto. }
      rewrite andb_false_r. split; [| done]. apply bool_decide_eq_false_2. simpl. lia.
  - rewrite portmap_rows by (unfold TCPNumber, UDPNumber, ICMPNumber, ICMPv6Number; lia).
    case_decide as Hrow.
    + rewrite length_replicate.
      assert ((n =? TCPNumber) || (n =? UDPNumber) || (n =? ICMPNumber) = true) as ->.
      { unfold TCPNumber, UDPNumber, ICMPNumber in *.
        destruct (Z.eqb_spec n 6), (Z.eqb_spec n 17), (Z.eqb_spec n 1); try done. lia. }
      by rewrite andb_true_r.
    + assert ((n =? TCPNumber) || (n =? UDPNumber) || (n =? ICMPNumber) = false) as ->.
      { unfold TCPNumber, UDPNumber, ICMPNumber in *.
        destruct (Z.eqb_spec n 6), (Z.eqb_spec n 17), (Z.eqb_spec n 1); try done;
          exfalso; apply Hrow; subst n; rewrite ?e; simpl; auto. }
      rewrite andb_false_r. split; [| done]. apply bool_decide_eq_false_2. simpl. lia.
Qed.

Lemma hasSlot_shape (pp pp' : portPair) (s : member) (f : forwardedPort.t) :
  sameShape pp pp' → hasSlot (select s pp') f = hasSlot (select s pp) f.
Proof.
  intros Hs. destruct (Hs s) as (_ & _ & _ & _ & _ & _ & _ & _ & Hr).
  unfold hasSlot. by rewrite Hr.
Qed.

(** The outcome of the set-up on a linked pair. *)
Lemma initPair_outcome `{Environment} (now : Z) (i : nat) (pp : portPair) :
  linked i pp →
  match (initPair now pp).2 with
  | None => ∀ f, f ∈ ForwardPorts (PublicPort pp) → slotAllocated f = true
  | Some p =>
      ∃ f m, f ∈ ForwardPorts (PublicPort pp) ∧ slotAllocated f = false
             ∧ p = IndexOutOfRange (Z.to_nat (forwardedPort.Port f)) m
             ∧ (m ≤ Z.to_nat (forwardedPort.Port f))%nat
  end.
Proof.
  intros Hlink. unfold initPair. cbv zeta.
  set (pp0 := allocatePair pp).
  assert (linked i pp0) as Hl0 by by apply allocatePair_linked.
  pose proof (installRules_private now i (ForwardPorts (PrivatePort pp0)) pp0 Hl0) as Hpriv.
  pose proof (installRules_shape now inPrivatePort (ForwardPorts (PrivatePort pp0)) pp0) as Hshape.
  destruct (installRules now inPrivatePort (ForwardPorts (PrivatePort pp0)) pp0) as [pp1 r1].
  cbn [fst snd] in *. subst r1.
  assert (ForwardPorts (PublicPort pp1) = ForwardPorts (PublicPort pp)) as ->.
  { destruct (Hshape inPublicPort) as (Hfs & _). simpl in Hfs. rewrite Hfs.
    by destruct (allocatePair_rules pp inPublicPort) as (? & _). }
  assert (∀ f, lacksSlot inPublicPort f pp1 = negb (slotAllocated f)) as Hlack.
  { intros f. unfold lacksSlot.
    destruct (sameShape_linked i pp0 pp1 Hshape Hl0 inPublicPort) as [_ Ht].
    rewrite Ht. cbn [sideType andb Z.eqb iPUBLIC].
    rewrite (hasSlot_shape pp0 pp1 inPublicPort f Hshape). cbn [select]. unfold pp0.
    by destruct (slotRow_allocatePair pp f) as [-> _]. }
  pose proof (installRules_crash now inPublicPort (ForwardPorts (PublicPort pp)) pp1) as Hcrash.
  destruct (installRules now inPublicPort (ForwardPorts (PublicPort pp)) pp1) as [pp2 [p|]];
    cbn [snd] in *.
  - destruct Hcrash as (f & Hf & Hl & ->). rewrite Hlack in Hl.
    exists f, (length (slotRow (PublicPort pp1) f)). split; [done|].
    split; [by destruct (slotAllocated f)|]. split; [done|].
    assert (hasSlot (PublicPort pp1) f = false) as Hno.
    { change (PublicPort pp1) with (select inPublicPort pp1).
      rewrite (hasSlot_shape pp0 pp1 inPublicPort f Hshape). cbn [select]. unfold pp0.
      destruct (slotRow_allocatePair pp f) as [-> _]. by destruct (slotAllocated f). }
    unfold hasSlot in Hno. apply bool_decide_eq_false in Hno. lia.
  - intros f Hf. specialize (Hcrash f Hf). rewrite Hlack in Hcrash.
    by destruct (slotAllocated f).
Qed.

(** X13: the set-up of the tables of a linked pair in InitFlows (the
    allocations of lines 612-614 and the installation of the static entries
    of lines 616-617) returns normally if and only if every rule of the
    public interface has a slot in the port maps just allocated: its protocol
    number is that of TCP or UDP, or of the ICMP of its family, and its port
    is below [portEnd]. Otherwise it panics with an index out of range, the
    index being the port of such a rule. Rules of the private interface
    never make it panic. *)
Theorem InitFlows_tables_returns_iff `{Environment} (w : World) (i : nat) (pp : portPair) :
  PortPairs (Natconfig w) !! i = Some pp →
  linked i pp →
  protocolsInRange pp →
  let run := InitFlows_tables i w in
  (run.2 = Done tt ↔ ∀ f, f ∈ ForwardPorts (PublicPort pp) → slotAllocated f = true)
  ∧ (run.2 = Done tt
     ∨ ∃ f m, f ∈ ForwardPorts (PublicPort pp) ∧ slotAllocated f = false
              ∧ run.2 = Panic (IndexOutOfRange (Z.to_nat (forwardedPort.Port f)) m)
              ∧ (m ≤ Z.to_nat (forwardedPort.Port f))%nat).
Proof.
  intros Hi Hlink Hids run. destruct (world_focus w i pp Hi) as (pre & post & <- & Hw).
  assert (run = let '(pp', r) := initPair (clock w) pp in
                (focus (Natconfig w) (clock w) pre post pp' (NeedKNI w) (NeedDHCP w),
                 crashed r)) as Hrun.
  { unfold run. rewrite Hw at 1. by rewrite (InitFlows_tables_run _ _ _ _ pp). }
  clearbody run. subst run.
  pose proof (initPair_outcome (clock w) (length pre) pp Hlink) as Hout.
  destruct (initPair (clock w) pp) as [pp' [p|]]; cbn [fst snd crashed] in *.
  - destruct Hout as (f & m & Hf & Hno & -> & Hm). split.
    + split; [done|]. intros Hall. specialize (Hall f Hf). by rewrite Hall in Hno.
    + right. by exists f, m.
  - split; [| by left]. by split.
Qed.

(** ** The entries the set-up installs *)

Lemma tableLookup_storeEntry (protocol' protocol : Z) (k v key : endpoint) (p : ipPort) :
  (Z.to_nat protocol' < length (translationTable p))%nat →
  tableLookup (storeEntry protocol' k v p) protocol key
  = if decide (Z.to_nat protocol' = Z.to_nat protocol ∧ k = key) then Some v
    else tableLookup p protocol key.
Proof.
  intros Hlt. unfold tableLookup, storeEntry. cbn [translationTable with_translationTable].
  rewrite list_lookup_alter.
  destruct (decide (Z.to_nat protocol' = Z.to_nat protocol)) as [Heq|Hne].
  - rewrite <- Heq. destruct (lookup_lt_is_Some_2 _ _ Hlt) as [t ->]. cbn.
    rewrite lookup_insert. destruct (decide (k = key)) as [->|Hk].
    + by rewrite decide_True.
    + by rewrite decide_False by tauto.
  - by rewrite decide_False by tauto.
Qed.

Lemma installRule_tables (now : Z) (s : member) (f : forwardedPort.t) (pp : portPair) :
  translationTable (select s (installRule now s f pp))
  = translationTable
      (storeEntry (protocolId.id (forwardedPort.Protocol f))
                  (forwardKey (select s pp) f) (forwardValue f) (select s pp)).
Proof.
  unfold installRule, storeRule. cbv zeta.
  assert (∀ p, translationTable (markStatic now f p) = translationTable p) as Hmark.
  { intros p. unfold markStatic. by destruct (protocolId.ipv6 _). }
  destruct (Type_ (select s pp) =? iPUBLIC), (destinationNonZero f);
    rewrite ?select_update, ?Hmark, ?select_other_update, ?select_update; done.
Qed.

Lemma tableLookup_installRule (now : Z) (s : member) (f : forwardedPort.t) (pp : portPair)
    (protocol : Z) (key : endpoint) :
  (Z.to_nat (protocolId.id (forwardedPort.Protocol f))
   < length (translationTable (select s pp)))%nat →
  tableLookup (select s (installRule now s f pp)) protocol key
  = if decide (Z.to_nat (protocolId.id (forwardedPort.Protocol f)) = Z.to_nat protocol
               ∧ forwardKey (select s pp) f = key)
    then Some (forwardValue f)
    else tableLookup (select s pp) protocol key.
Proof.
  intros Hlt. rewrite <- (tableLookup_storeEntry _ _ _ _ _ _ Hlt).
  unfold tableLookup. by rewrite installRule_tables.
Qed.

Lemma forwardKey_eq (p : ipPort) (f f' : forwardedPort.t) :
  forwardKey p f' = forwardKey p f
  ↔ protocolId.ipv6 (forwardedPort.Protocol f') = protocolId.ipv6 (forwardedPort.Protocol f)
    ∧ forwardedPort.Port f' = forwardedPort.Port f.
Proof.
  unfold forwardKey.
  destruct (protocolId.ipv6 (forwardedPort.Protocol f')),
           (protocolId.ipv6 (forwardedPort.Protocol f)); split;
    try (intros [= ?]; done); try (intros [? ?]; done); intros [_ ->]; done.
Qed.

Lemma sameSlot_key (p : ipPort) (f f' : forwardedPort.t) :
  0 ≤ protocolId.id (forwardedPort.Protocol f) →
  0 ≤ protocolId.id (forwardedPort.Protocol f') →
  (Z.to_nat (protocolId.id (forwardedPort.Protocol f'))
   = Z.to_nat (protocolId.id (forwardedPort.Protocol f))
   ∧ forwardKey p f' = forwardKey p f) ↔ sameSlot f f'.
Proof.
  intros H0 H0'. unfold sameSlot. rewrite forwardKey_eq. split.
  - intros (Hid & Hv6 & Hport). split; [lia | done].
  - intros (-> & Hv6 & Hport). done.
Qed.

(** The rules [fs] leave an entry alone that none of them competes for. *)
Lemma installRules_other_entry (now : Z) (s : member) (fs : list forwardedPort.t)
    (pp : portPair) (g : forwardedPort.t) :
  tablesReady pp →
  (∀ f, f ∈ fs → 0 ≤ protocolId.id (forwardedPort.Protocol f) < 256) →
  0 ≤ protocolId.id (forwardedPort.Protocol g) →
  (installRules now s fs pp).2 = None →
  (∀ f, f ∈ fs → ¬ sameSlot g f) →
  tableLookup (select s (installRules now s fs pp).1)
              (protocolId.id (forwardedPort.Protocol g)) (forwardKey (select s pp) g)
  = tableLookup (select s pp) (protocolId.id (forwardedPort.Protocol g))
                (forwardKey (select s pp) g).
Proof.
  revert pp. induction fs as [|f fs IH]; intros pp Hready Hids Hg; cbn [installRules]; [done|].
  destruct (lacksSlot s f pp); [done|]. intros Hnone Hno.
  pose proof (installRule_shape now s f pp) as Hshape.
  rewrite <- (sameShape_forwardKey pp (installRule now s f pp) s g Hshape).
  rewrite IH; [| by apply (sameShape_ready pp) | intros; apply Hids; by right | done | done
              | intros; apply Hno; by right ].
  rewrite (sameShape_forwardKey pp (installRule now s f pp) s g Hshape).
  rewrite tableLookup_installRule.
  - rewrite decide_False; [done|]. rewrite sameSlot_key; [apply Hno; left | done |].
    apply Hids. left.
  - destruct Hready as [Ht _]. rewrite Ht. specialize (Hids f ltac:(left)). lia.
Qed.

(** A rule none of the later rules competes with has its forward mapping in
    the table. *)
Lemma installRules_entry (now : Z) (s : member) (fs : list forwardedPort.t)
    (pp : portPair) (k : nat) (g : forwardedPort.t) :
  tablesReady pp →
  (∀ f, f ∈ fs → 0 ≤ protocolId.id (forwardedPort.Protocol f) < 256) →
  (installRules now s fs pp).2 = None →
  fs !! k = Some g →
  (∀ k' f, (k < k')%nat → fs !! k' = Some f → ¬ sameSlot g f) →
  tableLookup (select s (installRules now s fs pp).1)
              (protocolId.id (forwardedPort.Protocol g)) (forwardKey (select s pp) g)
  = Some (forwardValue g).
Proof.
  revert pp k. induction fs as [|f fs IH]; intros pp k Hready Hids; cbn [installRules];
    [by rewrite lookup_nil|].
  destruct (lacksSlot s f pp); [done|]. intros Hnone Hk Hlater.
  pose proof (installRule_shape now s f pp) as Hshape.
  assert (tablesReady (installRule now s f pp)) as Hready' by by apply (sameShape_ready pp).
  rewrite <- (sameShape_forwardKey pp (installRule now s f pp) s g Hshape).
  destruct k as [|k]; simpl in Hk.
  - injection Hk as ->.
    rewrite installRules_other_entry; [| done | intros; apply Hids; by right
                                       | apply Hids; left | done |].
    + rewrite (sameShape_forwardKey pp (installRule now s g pp) s g Hshape).
      rewrite tableLookup_installRule; [by rewrite decide_True|].
      destruct Hready as [Ht _]. rewrite Ht. specialize (Hids g ltac:(left)). lia.
    + intros f Hf. apply list_elem_of_lookup in Hf as [k' Hk'].
      apply (Hlater (S k')); [lia | done].
  - apply (IH _ k); [done | intros; apply Hids; by right | done | done |].
    intros k' f' Hlt Hk'. apply (Hlater (S k')); [lia | done].
Qed.

Lemma sameSlot_sym (f f' : forwardedPort.t) : sameSlot f f' → sameSlot f' f.
Proof. unfold sameSlot. intros (-> & -> & ->). done. Qed.

Lemma sameSlot_trans (f f' f'' : forwardedPort.t) :
  sameSlot f f' → sameSlot f' f'' → sameSlot f f''.
Proof. unfold sameSlot. intros (<- & <- & <-) (<- & <- & <-). done. Qed.

(** The last rule of a list that competes with the rule at index [k]. *)
Lemma last_sameSlot (fs : list forwardedPort.t) (k : nat) (g : forwardedPort.t) :
  fs !! k = Some g →
  ∃ k' g', (k ≤ k')%nat ∧ fs !! k' = Some g' ∧ sameSlot g g'
           ∧ ∀ k'' f, (k' < k'')%nat → fs !! k'' = Some f → ¬ sameSlot g f.
Proof.
  revert k g. induction fs as [|f fs IH]; intros k g Hk; [by rewrite lookup_nil in Hk|].
  destruct (decide (Exists (sameSlot g) fs)) as [Hex|Hno].
  - apply Exists_exists in Hex as (g1 & Hg1 & Hsame).
    apply list_elem_of_lookup in Hg1 as [k1 Hk1].
    destruct (IH k1 g1 Hk1) as (k' & g' & Hle & Hk' & Hs' & Hlast).
    exists (S k'), g'. split.
    { destruct (decide (k ≤ S k')%nat) as [|Hgt]; [done|]. exfalso.
      destruct k as [|kk]; [lia|]. simpl in Hk.
      apply (Hlast kk g); [lia | done | by apply sameSlot_sym]. }
    split; [done|].
    split; [by apply (sameSlot_trans g g1)|].
    intros [|k''] f' Hlt Hf'; [lia|]. simpl in Hf'.
    intros Hgf. apply (Hlast k'' f'); [lia | done |].
    apply (sameSlot_trans g1 g); [by apply sameSlot_sym | done].
  - destruct k as [|k]; simpl in Hk.
    + injection Hk as ->. exists 0%nat, g. split; [lia|]. split; [done|].
      split; [done|]. intros [|k''] f' Hlt Hf'; [lia|]. simpl in Hf'.
      intros Hgf. apply Hno. apply Exists_exists. exists f'.
      split; [by apply list_elem_of_lookup_2 in Hf' | done].
    + exfalso. apply Hno. apply Exists_exists. exists g.
      split; [by apply list_elem_of_lookup_2 in Hk | done].
Qed.

Lemma initPair_phases `{Environment} (now : Z) (i : nat) (pp pp' : portPair) :
  linked i pp →
  initPair now pp = (pp', None) →
  ∃ pp1,
    installRules now inPrivatePort (ForwardPorts (PrivatePort (allocatePair pp)))
                 (allocatePair pp) = (pp1, None)
    ∧ installRules now inPublicPort (ForwardPorts (PublicPort pp)) pp1 = (pp', None)
    ∧ sameShape (allocatePair pp) pp1.
Proof.
  intros Hlink. unfold initPair. cbv zeta.
  pose proof (installRules_shape now inPrivatePort
                (ForwardPorts (PrivatePort (allocatePair pp))) (allocatePair pp)) as Hshape.
  destruct (installRules now inPrivatePort _ (allocatePair pp)) as [pp1 [p|]]; [done|].
  cbn [fst] in Hshape. intros Hpub. exists pp1. split; [done|]. split; [| done].
  destruct (Hshape inPublicPort) as (Hfs & _). cbn [select] in Hfs. rewrite Hfs in Hpub.
  destruct (allocatePair_rules pp inPublicPort) as (Hfs0 & _). cbn [select] in Hfs0.
  by rewrite <- Hfs0.
Qed.

Lemma initPair_entries `{Environment} (now : Z) (i : nat) (pp pp' : portPair)
    (k : nat) (g : forwardedPort.t) :
  linked i pp →
  protocolsInRange pp →
  initPair now pp = (pp', None) →
  ForwardPorts (PublicPort pp) !! k = Some g →
  (∀ k' f, (k < k')%nat → ForwardPorts (PublicPort pp) !! k' = Some f → ¬ sameSlot g f) →
  tableLookup (PublicPort pp') (protocolId.id (forwardedPort.Protocol g))
              (forwardKey (PublicPort pp) g)
  = Some (forwardValue g).
Proof.
  intros Hlink Hids Hinit Hk Hlater.
  destruct (initPair_phases now i pp pp' Hlink Hinit) as (pp1 & _ & Hpub & Hshape).
  assert (forwardKey (PublicPort pp) g = forwardKey (select inPublicPort pp1) g) as ->.
  { rewrite (sameShape_forwardKey (allocatePair pp) pp1 inPublicPort g Hshape).
    destruct (allocatePair_rules pp inPublicPort) as (_ & H4 & H6). cbn [select] in *.
    unfold forwardKey. by rewrite H4, H6. }
  pose proof (installRules_entry now inPublicPort (ForwardPorts (PublicPort pp)) pp1 k g) as He.
  rewrite Hpub in He. cbn [fst snd select] in He. apply He; try done.
  - apply (sameShape_ready (allocatePair pp)); [done | apply allocatePair_ready].
  - intros f Hf. by apply (Hids inPublicPort).
Qed.

(** X14: of the rules of the public interface that name the same protocol,
    address family and port, the last one wins: after the set-up of the
    tables has returned, the table of the public interface for a rule's
    protocol maps the rule's key (the interface's subnet address and the
    forwarded port) to the destination of the last rule that competes for this
    key, which is the rule itself when no later rule does. *)
Theorem InitFlows_tables_last_rule_wins `{Environment} (w : World) (i : nat) (pp : portPair) :
  PortPairs (Natconfig w) !! i = Some pp →
  linked i pp →
  protocolsInRange pp →
  let run := InitFlows_tables i w in
  run.2 = Done tt →
  ∃ pp',
    PortPairs (Natconfig run.1) !! i = Some pp'
    ∧ ∀ k f, ForwardPorts (PublicPort pp) !! k = Some f →
        ∃ k' f', (k ≤ k')%nat
          ∧ ForwardPorts (PublicPort pp) !! k' = Some f'
          ∧ sameSlot f f'
          ∧ (∀ k'' f'', (k' < k'')%nat → ForwardPorts (PublicPort pp) !! k'' = Some f'' →
               ¬ sameSlot f f'')
          ∧ tableLookup (PublicPort pp') (protocolId.id (forwardedPort.Protocol f))
                        (forwardKey (PublicPort pp) f)
            = Some (forwardValue f').
Proof.
  intros Hi Hlink Hids run. destruct (world_focus w i pp Hi) as (pre & post & <- & Hw).
  assert (run = let '(pp', r) := initPair (clock w) pp in
                (focus (Natconfig w) (clock w) pre post pp' (NeedKNI w) (NeedDHCP w),
                 crashed r)) as Hrun.
  { unfold run. rewrite Hw at 1. by rewrite (InitFlows_tables_run _ _ _ _ pp). }
  clearbody run. subst run.
  destruct (initPair (clock w) pp) as [pp' [p|]] eqn:Hinit; cbn [fst snd crashed]; [done|].
  intros _. exists pp'. split; [by apply list_lookup_middle|].
  intros k f Hk. destruct (last_sameSlot _ k f Hk) as (k' & f' & Hle & Hk' & Hsame & Hlast).
  exists k', f'. repeat (split; [done|]).
  destruct Hsame as (Hid & Hv6 & Hport).
  assert (forwardKey (PublicPort pp) f = forwardKey (PublicPort pp) f') as ->.
  { symmetry. by apply forwardKey_eq. }
  rewrite <- Hid.
  apply (initPair_entries (clock w) (length pre) pp pp' k' f'); try done.
  intros k'' f'' Hlt Hk'' Hs. apply (Hlast k'' f'' Hlt Hk'').
  by apply (sameSlot_trans f f').
Qed.

(** ** The slots the set-up marks *)

Lemma slotRow_markStatic_eq (now : Z) (f g : forwardedPort.t) (p : ipPort) :
  slotRow (markStatic now f p) g
  = if decide (protocolId.ipv6 (forwardedPort.Protocol f)
               = protocolId.ipv6 (forwardedPort.Protocol g)
               ∧ Z.to_nat (protocolId.id (forwardedPort.Protocol f))
                 = Z.to_nat (protocolId.id (forwardedPort.Protocol g)))
    then <[Z.to_nat (forwardedPort.Port f) := staticEntry now]> (slotRow p g)
    else slotRow p g.
Proof.
  unfold slotRow, markStatic.
  destruct (protocolId.ipv6 (forwardedPort.Protocol f)) eqn:Hf,
           (protocolId.ipv6 (forwardedPort.Protocol g)) eqn:Hg;
    cbn [portmap portmap6 with_portmap with_portmap6].
  - rewrite list_lookup_alter. repeat case_decide; try tauto.
    match goal with Heq : Z.to_nat _ = Z.to_nat _ |- _ => rewrite Heq end.
    by destruct (portmap6 p !! _).
  - by rewrite decide_False by (intros [? _]; done).
  - by rewrite decide_False by (intros [? _]; done).
  - rewrite list_lookup_alter. repeat case_decide; try tauto.
    match goal with Heq : Z.to_nat _ = Z.to_nat _ |- _ => rewrite Heq end.
    by destruct (portmap p !! _).
Qed.

Lemma storeRule_portmaps (s s' : member) (f : forwardedPort.t) (pp : portPair) :
  portmap (select s' (storeRule s f pp)) = portmap (select s' pp)
  ∧ portmap6 (select s' (storeRule s f pp)) = portmap6 (select s' pp).
Proof.
  unfold storeRule. cbv zeta. destruct (destinationNonZero f), s, s'; done.
Qed.

Lemma slotRow_portmaps (p p' : ipPort) (g : forwardedPort.t) :
  portmap p' = portmap p → portmap6 p' = portmap6 p → slotRow p' g = slotRow p g.
Proof. intros H4 H6. unfold slotRow. by rewrite H4, H6. Qed.

Lemma markStatic_portmaps (now : Z) (f : forwardedPort.t) (p p' : ipPort) :
  portmap p' = portmap p → portmap6 p' = portmap6 p →
  portmap (markStatic now f p') = portmap (markStatic now f p)
  ∧ portmap6 (markStatic now f p') = portmap6 (markStatic now f p).
Proof.
  intros H4 H6. unfold markStatic.
  destruct (protocolId.ipv6 _); cbn; by rewrite ?H4, ?H6.
Qed.

Lemma slotRow_installRule (now : Z) (s : member) (f g : forwardedPort.t) (pp : portPair) :
  slotRow (select s (installRule now s f pp)) g
  = if Type_ (select s pp) =? iPUBLIC
    then slotRow (markStatic now f (select s pp)) g
    else slotRow (select s pp) g.
Proof.
  unfold installRule. cbv zeta.
  destruct (storeRule_portmaps s s f pp) as [H4 H6].
  destruct (Type_ (select s pp) =? iPUBLIC).
  - rewrite select_update.
    destruct (markStatic_portmaps now f (select s pp) (select s (storeRule s f pp)) H4 H6).
    by apply slotRow_portmaps.
  - by apply slotRow_portmaps.
Qed.

Lemma installRule_other_portmaps (now : Z) (f : forwardedPort.t) (pp : portPair) :
  Type_ (PrivatePort pp) ≠ iPUBLIC →
  portmap (PublicPort (installRule now inPrivatePort f pp)) = portmap (PublicPort pp)
  ∧ portmap6 (PublicPort (installRule now inPrivatePort f pp)) = portmap6 (PublicPort pp).
Proof.
  intros Ht. unfold installRule. cbv zeta. cbn [select].
  destruct (Z.eqb_spec (Type_ (PrivatePort pp)) iPUBLIC); [done|].
  apply (storeRule_portmaps inPrivatePort inPublicPort).
Qed.

Lemma installRules_private_portmaps (now : Z) (i : nat) (fs : list forwardedPort.t)
    (pp : portPair) :
  linked i pp →
  portmap (PublicPort (installRules now inPrivatePort fs pp).1) = portmap (PublicPort pp)
  ∧ portmap6 (PublicPort (installRules now inPrivatePort fs pp).1) = portmap6 (PublicPort pp).
Proof.
  revert pp. induction fs as [|f fs IH]; intros pp Hl; cbn [installRules]; [done|].
  rewrite (lacksSlot_private i) by done.
  destruct (IH (installRule now inPrivatePort f pp)) as [H4 H6].
  { by apply (sameShape_linked _ pp); [apply installRule_shape|]. }
  destruct (installRule_other_portmaps now f pp) as [H4' H6'].
  { destruct (Hl inPrivatePort) as [_ Ht]. cbn [select] in Ht. by rewrite Ht. }
  by rewrite H4, H6.
Qed.

Lemma sameSlot_nat (f g : forwardedPort.t) :
  0 ≤ protocolId.id (forwardedPort.Protocol f) →
  0 ≤ protocolId.id (forwardedPort.Protocol g) →
  0 ≤ forwardedPort.Port f → 0 ≤ forwardedPort.Port g →
  (protocolId.ipv6 (forwardedPort.Protocol f) = protocolId.ipv6 (forwardedPort.Protocol g)
   ∧ Z.to_nat (protocolId.id (forwardedPort.Protocol f))
     = Z.to_nat (protocolId.id (forwardedPort.Protocol g)))
  ∧ Z.to_nat (forwardedPort.Port f) = Z.to_nat (forwardedPort.Port g)
  ↔ sameSlot g f.
Proof.
  intros ? ? ? ?. unfold sameSlot. split.
  - intros [[? ?] ?]. repeat split; [lia | done | lia].
  - intros (-> & -> & ->). done.
Qed.

(** The slot of [g] after the rules [fs] of a public interface are installed. *)
Lemma installRules_slot (now : Z) (fs : list forwardedPort.t) (pp : portPair)
    (g : forwardedPort.t) :
  Type_ (PublicPort pp) = iPUBLIC →
  (∀ f, f ∈ fs → 0 ≤ protocolId.id (forwardedPort.Protocol f) ∧ 0 ≤ forwardedPort.Port f) →
  0 ≤ protocolId.id (forwardedPort.Protocol g) → 0 ≤ forwardedPort.Port g →
  (installRules now inPublicPort fs pp).2 = None →
  slotRow (PublicPort (installRules now inPublicPort fs pp).1) g
    !! Z.to_nat (forwardedPort.Port g)
  = if decide (Exists (sameSlot g) fs) then Some (staticEntry now)
    else slotRow (PublicPort pp) g !! Z.to_nat (forwardedPort.Port g).
Proof.
  revert pp. induction fs as [|f fs IH]; intros pp Hpub Hrange Hg0 Hg1; cbn [installRules].
  { intros _. rewrite decide_False; [done|]. by intros ?%Exists_nil. }
  destruct (lacksSlot inPublicPort f pp) eqn:Hlack; [done|]. intros Hnone.
  pose proof (installRule_shape now inPublicPort f pp) as Hshape.
  rewrite IH; [| | intros; apply Hrange; by right | done | done | done].
  2:{ destruct (Hshape inPublicPort) as (_ & _ & Ht & _). simpl in Ht. by rewrite Ht. }
  change (PublicPort (installRule now inPublicPort f pp))
    with (select inPublicPort (installRule now inPublicPort f pp)).
  rewrite slotRow_installRule. cbn [select]. rewrite Hpub. cbn [Z.eqb iPUBLIC].
  rewrite slotRow_markStatic_eq.
  destruct (Hrange f ltac:(left)) as [Hf0 Hf1].
  unfold lacksSlot in Hlack. cbn [select] in Hlack. rewrite Hpub in Hlack.
  cbn [Z.eqb iPUBLIC andb] in Hlack. apply negb_false_iff, bool_decide_eq_true in Hlack.
  destruct (decide (sameSlot g f)) as [Hsame|Hdiff].
  - rewrite (decide_True (P := Exists _ (f :: fs))) by (by left).
    apply sameSlot_nat in Hsame as [[Hv6 Hid] Hport]; try done.
    rewrite (decide_True (P := _ ∧ _)) by done.
    assert (slotRow (PublicPort pp) g = slotRow (PublicPort pp) f) as Hrow.
    { unfold slotRow. by rewrite Hv6, Hid. }
    rewrite Hrow, <- Hport, list_lookup_insert_eq by done.
    by destruct (decide (Exists (sameSlot g) fs)).
  - assert ((if decide (protocolId.ipv6 (forwardedPort.Protocol f)
                        = protocolId.ipv6 (forwardedPort.Protocol g)
                        ∧ Z.to_nat (protocolId.id (forwardedPort.Protocol f))
                          = Z.to_nat (protocolId.id (forwardedPort.Protocol g)))
             then <[Z.to_nat (forwardedPort.Port f) := staticEntry now]> (slotRow (PublicPort pp) g)
             else slotRow (PublicPort pp) g) !! Z.to_nat (forwardedPort.Port g)
            = slotRow (PublicPort pp) g !! Z.to_nat (forwardedPort.Port g)) as ->.
    { destruct (decide (_ ∧ _)) as [Hrow|Hrow]; [| done].
      apply list_lookup_insert_ne. intros Hport.
      apply Hdiff. by apply sameSlot_nat. }
    destruct (decide (Exists (sameSlot g) fs)) as [Hex|Hno].
    + by rewrite decide_True by (by right).
    + rewrite decide_False; [done|]. by intros [?|?]%Exists_cons.
Qed.

(** X15: after the set-up of the tables has returned, the static slots of
    the public interface's port maps are exactly the slots its rules name: a
    slot that the allocation provides is marked static, with FIN count and
    termination direction zero, when some rule of the public interface has
    its protocol, address family and port, and holds the zero entry
    otherwise. *)
Theorem InitFlows_tables_static_slots `{Environment} (w : World) (i : nat) (pp : portPair) :
  PortPairs (Natconfig w) !! i = Some pp →
  linked i pp →
  protocolsInRange pp →
  portsInRange pp →
  let run := InitFlows_tables i w in
  run.2 = Done tt →
  ∃ pp',
    PortPairs (Natconfig run.1) !! i = Some pp'
    ∧ ∀ g, slotAllocated g = true → 0 ≤ forwardedPort.Port g →
        ∃ entry,
          slotRow (PublicPort pp') g !! Z.to_nat (forwardedPort.Port g) = Some entry
          ∧ if decide (Exists (sameSlot g) (ForwardPorts (PublicPort pp)))
            then static entry = true ∧ finCount entry = 0
                 ∧ terminationDirection entry = 0
            else entry = zeroPortMapEntry.
Proof.
  intros Hi Hlink Hids Hports run. destruct (world_focus w i pp Hi) as (pre & post & <- & Hw).
  assert (run = let '(pp', r) := initPair (clock w) pp in
                (focus (Natconfig w) (clock w) pre post pp' (NeedKNI w) (NeedDHCP w),
                 crashed r)) as Hrun.
  { unfold run. rewrite Hw at 1. by rewrite (InitFlows_tables_run _ _ _ _ pp). }
  clearbody run. subst run.
  destruct (initPair (clock w) pp) as [pp' [p|]] eqn:Hinit; cbn [fst snd crashed]; [done|].
  intros _. exists pp'. split; [by apply list_lookup_middle|].
  intros g Hg Hport.
  destruct (initPair_phases (clock w) (length pre) pp pp' Hlink Hinit)
    as (pp1 & Hpriv & Hpub & Hshape).
  assert (0 ≤ protocolId.id (forwardedPort.Protocol g)) as Hgid.
  { unfold slotAllocated in Hg. apply andb_true_iff in Hg as [_ Hg].
    unfold TCPNumber, UDPNumber, ICMPNumber, ICMPv6Number in Hg.
    destruct (protocolId.ipv6 _);
      repeat (apply orb_true_iff in Hg as [Hg|Hg]); apply Z.eqb_eq in Hg; lia. }
  pose proof (installRules_slot (clock w) (ForwardPorts (PublicPort pp)) pp1 g) as Hslot.
  rewrite Hpub in Hslot. cbn [fst snd] in Hslot. rewrite Hslot; try done.
  - destruct (decide (Exists _ _)); [by eexists|].
    exists zeroPortMapEntry. split; [| done].
    pose proof (installRules_private_portmaps (clock w) (length pre)
                  (ForwardPorts (PrivatePort (allocatePair pp))) (allocatePair pp)) as Hmaps.
    rewrite Hpriv in Hmaps. cbn [fst] in Hmaps.
    destruct Hmaps as [H4 H6]; [by apply allocatePair_linked|].
    rewrite (slotRow_portmaps _ _ g H4 H6).
    destruct (slotRow_allocatePair pp g) as [Hhas Hrow]. rewrite (Hrow Hg).
    apply lookup_replicate_2.
    unfold slotAllocated in Hg. apply andb_true_iff in Hg as [Hlt _].
    by apply bool_decide_eq_true in Hlt.
  - destruct (sameShape_linked (length pre) (allocatePair pp) pp1 Hshape
                (allocatePair_linked _ _ Hlink) inPublicPort) as [_ Ht].
    exact Ht.
  - intros f Hf. split; [apply (Hids inPublicPort f Hf) | by apply Hports].
Qed.

(** ** Protocols and subnets at their edges *)

(** X16: every protocol name the parser accepts has its port maps: the
    parser yields TCP or UDP in one of the two address families and nothing
    else, on any other string it returns the error naming the string and
    leaves the receiver alone; and for a rule with a parsed protocol the
    allocation provides a slot exactly when the rule's port is below
    [portEnd]. The set-up of the tables can therefore panic on a rule with a
    parsed protocol only through its port. *)
Theorem protocolId_UnmarshalJSON_allocated `{GoLib} `{Environment} (out : protocolId.t)
    (b s : string) :
  json_Unmarshal b = Done s →
  let run := protocolId_UnmarshalJSON out b in
  (run.2 = Done tt
   ↔ s = "TCP"%string ∨ s = "UDP"%string ∨ s = "TCP6"%string ∨ s = "UDP6"%string)
  ∧ (run.2 ≠ Done tt → run = (out, Fail (ErrBadProtocolName s)))
  ∧ (run.2 = Done tt →
     (protocolId.id run.1 = TCPNumber ∨ protocolId.id run.1 = UDPNumber)
     ∧ (protocolId.ipv6 run.1 = true ↔ s = "TCP6"%string ∨ s = "UDP6"%string)
     ∧ ∀ f, forwardedPort.Protocol f = run.1 →
         0 ≤ protocolId.id (forwardedPort.Protocol f) < 256
         ∧ slotAllocated f = bool_decide (Z.to_nat (forwardedPort.Port f) < portEnd)%nat).
Proof.
  intros Hjson run. unfold run, protocolId_UnmarshalJSON. rewrite Hjson.
  unfold protocolIdLookup.
  destruct (String.eqb_spec s "TCP") as [->|Htcp].
  { cbn. split; [by split; auto|]. split; [done|]. intros _.
    split; [by left|]. split; [split; [done | by intros [|]]|].
    intros f Hf. unfold slotAllocated. rewrite Hf. cbn. split; [done|]. by rewrite andb_true_r. }
  destruct (String.eqb_spec s "UDP") as [->|Hudp].
  { cbn. split; [by split; auto|]. split; [done|]. intros _.
    split; [by right|]. split; [split; [done | by intros [|]]|].
    intros f Hf. unfold slotAllocated. rewrite Hf. cbn. split; [done|]. by rewrite andb_true_r. }
  destruct (String.eqb_spec s "TCP6") as [->|Htcp6].
  { cbn. split; [by split; auto|]. split; [done|]. intros _.
    split; [by left|]. split; [split; auto|].
    intros f Hf. unfold slotAllocated. rewrite Hf. cbn. split; [done|]. by rewrite andb_true_r. }
  destruct (String.eqb_spec s "UDP6") as [->|Hudp6].
  { cbn. split; [by split; auto|]. split; [done|]. intros _.
    split; [by right|]. split; [split; auto|].
    intros f Hf. unfold slotAllocated. rewrite Hf. cbn. split; [done|]. by rewrite andb_true_r. }
  cbn. split; [| split; [done|done]].
  split; [done|]. by intros [|[|[|]]].
Qed.

Lemma land_ones_32 (a : Z) : 0 ≤ a < 2 ^ 32 → Z.land a 0xffffffff = a.
Proof.
  intros Ha. change 0xffffffff with (Z.ones 32). rewrite Z.land_ones by lia.
  apply Z.mod_small. lia.
Qed.

Lemma land_ones_8 (a : Z) : 0 ≤ a < 256 → Z.land a 0xff = a.
Proof.
  intros Ha. change 0xff with (Z.ones 8). rewrite Z.land_ones by lia.
  apply Z.mod_small. lia.
Qed.

Lemma andMask_zero (s : ipv6Subnet.t) (a : IPv6Address) :
  ipv6Subnet.Mask s = zeroIPv6Addr → ipv6Subnet.andMask s a = zeroIPv6Addr.
Proof.
  intros Hm. unfold ipv6Subnet.andMask. rewrite Hm. apply vec_eq. intros i.
  rewrite vlookup_zip_with. unfold zeroIPv6Addr. rewrite !vlookup_replicate.
  apply Z.land_0_r.
Qed.

Lemma andMask_allOnes (s : ipv6Subnet.t) (a : IPv6Address) :
  ipv6Subnet.Mask s = ipv6Subnet.allOnes → (∀ i, 0 ≤ a !!! i < 256) →
  ipv6Subnet.andMask s a = a.
Proof.
  intros Hm Ha. unfold ipv6Subnet.andMask. rewrite Hm. apply vec_eq. intros i.
  rewrite vlookup_zip_with. unfold ipv6Subnet.allOnes. rewrite vlookup_replicate.
  by apply land_ones_8.
Qed.

(** X17: the two extremes of a subnet. A subnet read from the token
    ["dhcp"] has the zero mask and contains every address, so no destination
    is ever outside it; a subnet with the all-ones mask, as the parsers give a
    plain address, contains among the values of the address type its own
    address and no other. *)
Theorem subnet_extremes `{GoLib} :
  (∀ (b : string) (out4 : ipv4Subnet.t) (out6 : ipv6Subnet.t)
     (a4 : IPv4Address) (a6 : IPv6Address),
     json_Unmarshal b = Done "dhcp"%string →
     ipv4Subnet.checkAddrWithingSubnet (ipv4Subnet.UnmarshalJSON out4 b).1 a4 = true
     ∧ ipv6Subnet.checkAddrWithingSubnet (ipv6Subnet.UnmarshalJSON out6 b).1 a6 = true)
  ∧ (∀ (s : ipv4Subnet.t) (a : IPv4Address),
       ipv4Subnet.Mask s = 0xffffffff →
       0 ≤ ipv4Subnet.Addr s < 2 ^ 32 → 0 ≤ a < 2 ^ 32 →
       ipv4Subnet.checkAddrWithingSubnet s a = true ↔ a = ipv4Subnet.Addr s)
  ∧ (∀ (s : ipv6Subnet.t) (a : IPv6Address),
       ipv6Subnet.Mask s = ipv6Subnet.allOnes →
       (∀ i, 0 ≤ ipv6Subnet.Addr s !!! i < 256) → (∀ i, 0 ≤ a !!! i < 256) →
       ipv6Subnet.checkAddrWithingSubnet s a = true ↔ a = ipv6Subnet.Addr s).
Proof.
  split; [| split].
  - intros b out4 out6 a4 a6 Hjson.
    unfold ipv4Subnet.UnmarshalJSON, ipv6Subnet.UnmarshalJSON. rewrite Hjson. cbn [fst String.eqb].
    split.
    + unfold ipv4Subnet.checkAddrWithingSubnet. cbn. rewrite Z.land_0_r. done.
    + unfold ipv6Subnet.checkAddrWithingSubnet. apply bool_decide_eq_true.
      by rewrite !andMask_zero.
  - intros s a Hm Hs Ha. unfold ipv4Subnet.checkAddrWithingSubnet. rewrite Hm.
    rewrite !land_ones_32 by done. apply Z.eqb_eq.
  - intros s a Hm Hs Ha. unfold ipv6Subnet.checkAddrWithingSubnet.
    rewrite bool_decide_eq_true, !andMask_allOnes by done. done.
Qed.

(** ** The hardware check *)




(** ** Loading, then setting up *)

Lemma InitFlows_loop `{Environment} (cfg : Config) (clk : Z) (todo pre : list portPair)
    (kni dhcp : bool) :
  (∀ j pp, todo !! j = Some pp → linked (length pre + j) pp ∧ protocolsInRange pp) →
  forRangeFrom (length pre) (length todo) InitFlows_tables
    (mkWorld (with_PortPairs (pre ++ todo) cfg) kni dhcp clk)
  = let '(todo', r) := initPairs clk todo in
    (mkWorld (with_PortPairs (pre ++ todo') cfg) kni dhcp clk, crashed r).
Proof.
  revert pre. induction todo as [|pp todo IH]; intros pre Hall; [done|].
  cbn [forRangeFrom length initPairs]. rewrite M_bind_run.
  change (mkWorld (with_PortPairs (pre ++ pp :: todo) cfg) kni dhcp clk)
    with (focus cfg clk pre todo pp kni dhcp).
  destruct (Hall 0%nat pp eq_refl) as [Hl Hr]. rewrite Nat.add_0_r in Hl.
  rewrite InitFlows_tables_run by done.
  destruct (initPair clk pp) as [pp' [p|]]; [done|].
  cbn [crashed]. cbv beta iota. unfold focus.
  specialize (IH (pre ++ [pp'])).
  rewrite length_app, Nat.add_1_r, <- app_assoc in IH. cbn [app] in IH. rewrite IH.
  - destruct (initPairs clk todo) as [todo' r]. by rewrite <- app_assoc.
  - intros j pp1 Hj. specialize (Hall (S j) pp1 Hj).
    by replace (length pre + S j)%nat with (S (length pre) + j)%nat in Hall by lia.
Qed.

Lemma InitFlows_state_run `{Environment} (w : World) :
  (∀ j pp, PortPairs (Natconfig w) !! j = Some pp → linked j pp ∧ protocolsInRange pp) →
  InitFlows_state w
  = let '(pps', r) := initPairs (clock w) (PortPairs (Natconfig w)) in
    (mkWorld (with_PortPairs pps' (Natconfig w)) (NeedKNI w) (NeedDHCP w) (clock w),
     crashed r).
Proof.
  intros Hall. unfold InitFlows_state, forRange. rewrite M_bind_run, gets_run. cbv beta iota.
  pose proof (InitFlows_loop (Natconfig w) (clock w) (PortPairs (Natconfig w)) []
                (NeedKNI w) (NeedDHCP w) Hall) as Hloop.
  cbn [length app] in Hloop. rewrite <- Hloop. f_equal.
  destruct w as [[] ? ? ?]. done.
Qed.

Lemma initPairs_outcome `{Environment} (now : Z) (i : nat) (pps : list portPair) :
  (∀ j pp, pps !! j = Some pp → linked (i + j) pp) →
  match (initPairs now pps).2 with
  | None => ∀ j pp f, pps !! j = Some pp → f ∈ ForwardPorts (PublicPort pp)
                      → slotAllocated f = true
  | Some p =>
      ∃ j pp f m, pps !! j = Some pp ∧ f ∈ ForwardPorts (PublicPort pp)
                  ∧ slotAllocated f = false
                  ∧ p = IndexOutOfRange (Z.to_nat (forwardedPort.Port f)) m
                  ∧ (m ≤ Z.to_nat (forwardedPort.Port f))%nat
  end.
Proof.
  revert i. induction pps as [|pp pps IH]; intros i Hall; cbn [initPairs].
  { by intros j pp f Hj. }
  assert (linked i pp) as Hl.
  { specialize (Hall 0%nat pp eq_refl). by rewrite Nat.add_0_r in Hall. }
  pose proof (initPair_outcome now i pp Hl) as Hout.
  destruct (initPair now pp) as [pp' [p|]]; cbn [snd] in *.
  { destruct Hout as (f & m & Hf & Hno & -> & Hm). by exists 0%nat, pp, f, m. }
  specialize (IH (S i)).
  destruct (initPairs now pps) as [pps' [p|]]; cbn [snd] in *.
  - destruct IH as (j & pp1 & f & m & Hj & Hrest).
    { intros j pp1 Hj. specialize (Hall (S j) pp1 Hj).
      by replace (i + S j)%nat with (S i + j)%nat in Hall by lia. }
    by exists (S j), pp1, f, m.
  - intros [|j] pp1 f Hj Hf.
    + injection Hj as <-. by apply Hout.
    + apply (IH) with j pp1; [| done | done].
      intros j' pp2 Hj'. specialize (Hall (S j') pp2 Hj').
      by replace (i + S j')%nat with (S i + j')%nat in Hall by lia.
Qed.

Lemma acceptedPair_linked (i : nat) (pp : portPair) : linked i (acceptedPair i pp).
Proof.
  intros s. unfold acceptedPair.
  destruct s; cbn [select PrivatePort PublicPort];
    unfold acceptedPort, linkPair; cbn [PrivatePort PublicPort];
    by destruct (negb _).
Qed.

Lemma slotAllocated_accepted `{Environment} (f : forwardedPort.t) :
  slotAllocated (ruleAccepted f) = slotAllocated f
  ∧ forwardedPort.Protocol (ruleAccepted f) = forwardedPort.Protocol f.
Proof.
  unfold ruleAccepted.
  destruct (isAddrZero f); [done|].
  by destruct (hostPort.Port (forwardedPort.Destination f) =? 0).
Qed.

Lemma acceptedPair_rules (i : nat) (pp : portPair) (s : member) :
  ForwardPorts (select s (acceptedPair i pp)) = map ruleAccepted (ForwardPorts (select s pp)).
Proof.
  unfold acceptedPair.
  destruct s; cbn [select PrivatePort PublicPort];
    unfold acceptedPort, linkPair; cbn [PrivatePort PublicPort];
    by destruct (negb _).
Qed.

(** X19: a configuration that [ReadConfig] accepts can still stop the
    set-up of the tables. After a successful load, the table set-up that
    InitFlows performs pair after pair returns normally if and only if every
    rule of every public interface of the file has a slot in the port maps: a
    protocol that is TCP, UDP or the ICMP of its family, and a port below
    [portEnd]. Otherwise it panics with an index out of range at the port of
    such a rule; it never returns an error. *)
Theorem InitFlows_after_ReadConfig `{Environment} (fileName file : string)
    (decoded : Config) (setKniIP_ bringUp_ : bool) (w : World) :
  os_Open fileName = Done file →
  json_Decode file = Done decoded →
  configInRange decoded →
  (ReadConfig fileName setKniIP_ bringUp_ w).2 = Done tt →
  let run := InitFlows_state (ReadConfig fileName setKniIP_ bringUp_ w).1 in
  (run.2 = Done tt
   ↔ ∀ i pp f, PortPairs decoded !! i = Some pp → f ∈ ForwardPorts (PublicPort pp)
               → slotAllocated f = true)
  ∧ (run.2 = Done tt
     ∨ ∃ i pp f m, PortPairs decoded !! i = Some pp ∧ f ∈ ForwardPorts (PublicPort pp)
                   ∧ slotAllocated f = false
                   ∧ run.2 = Panic (IndexOutOfRange (Z.to_nat (forwardedPort.Port f)) m)
                   ∧ (m ≤ Z.to_nat (forwardedPort.Port f))%nat).
Proof.
  intros Hopen Hdec Hrange Hok run.
  pose proof (ReadConfig_accepted fileName file decoded setKniIP_ bringUp_ w Hopen Hdec Hok)
    as Hw.
  set (pps := imap acceptedPair (PortPairs decoded)) in *.
  assert (∀ j pp', pps !! j = Some pp' →
            ∃ pp, PortPairs decoded !! j = Some pp ∧ pp' = acceptedPair j pp) as Hpps.
  { intros j pp' Hj. unfold pps in Hj. rewrite list_lookup_imap in Hj.
    destruct (PortPairs decoded !! j) as [pp|]; [| done].
    injection Hj as <-. by exists pp. }
  assert (∀ j pp', pps !! j = Some pp' → linked j pp' ∧ protocolsInRange pp') as Hall.
  { intros j pp' Hj. destruct (Hpps j pp' Hj) as (pp & Hpp & ->). split.
    - apply acceptedPair_linked.
    - intros s f Hf. rewrite acceptedPair_rules in Hf.
      apply list_elem_of_fmap in Hf as (g & -> & Hg).
      destruct (slotAllocated_accepted g) as [_ ->]. by apply (Hrange j pp Hpp s). }
  assert (run = let '(pps', r) := initPairs (clock w) pps in
                (mkWorld (with_PortPairs pps' (Natconfig (ReadConfig fileName setKniIP_ bringUp_ w).1))
                         (NeedKNI (ReadConfig fileName setKniIP_ bringUp_ w).1)
                         (NeedDHCP (ReadConfig fileName setKniIP_ bringUp_ w).1) (clock w),
                 crashed r)) as Hrun.
  { unfold run. rewrite InitFlows_state_run; rewrite Hw; cbn [Natconfig PortPairs clock]; done. }
  clearbody run. subst run.
  pose proof (initPairs_outcome (clock w) 0 pps (λ j pp' Hj, proj1 (Hall j pp' Hj))) as Hout.
  destruct (initPairs (clock w) pps) as [pps' [p|]]; cbn [fst snd crashed] in *.
  - destruct Hout as (j & pp' & f' & m & Hj & Hf & Hno & -> & Hm).
    destruct (Hpps j pp' Hj) as (pp & Hpp & ->).
    change (PublicPort (acceptedPair j pp)) with (select inPublicPort (acceptedPair j pp)) in Hf.
    rewrite acceptedPair_rules in Hf. apply list_elem_of_fmap in Hf as (f & -> & Hf).
    destruct (slotAllocated_accepted f) as [Hslot _]. rewrite Hslot in Hno.
    assert (forwardedPort.Port (ruleAccepted f) = forwardedPort.Port f) as Hport.
    { unfold ruleAccepted. destruct (isAddrZero f); [done|].
      by destruct (hostPort.Port (forwardedPort.Destination f) =? 0). }
    rewrite Hport in *. split.
    + split; [done|]. intros Hyes. specialize (Hyes j pp f Hpp Hf). by rewrite Hyes in Hno.
    + right. by exists j, pp, f, m.
  - split; [| by left]. split; [| done]. intros _ i pp f Hpp Hf.
    destruct (slotAllocated_accepted f) as [<- _].
    apply (Hout i (acceptedPair i pp) (ruleAccepted f)).
    + unfold pps. by rewrite list_lookup_imap, Hpp.
    + change (PublicPort (acceptedPair i pp)) with (select inPublicPort (acceptedPair i pp)).
      rewrite acceptedPair_rules. by apply list_elem_of_fmap_2.
Qed.

(** ** The further properties on sample inputs *)

Lemma UnmarshalJSON_never_panics_witness :
  (hostPort_UnmarshalJSON (H := sampleLib) (H0 := sampleText) zeroHostPort
     (jsonString "192.168.1.7:8080")).2 ≠ Panic (IndexOutOfRange 3 0).
Proof.
  refine (proj1 (UnmarshalJSON_never_panics (H := sampleLib) (H0 := sampleText) _ _ _ _
                   (jsonString "192.168.1.7:8080") (IndexOutOfRange 3 0)) zeroHostPort).
  - intros b p. simpl. unfold unquote. destruct b; [discriminate|].
    destruct (_ && _); discriminate.
  - intros s p. simpl. repeat (destruct (String.eqb s _); [discriminate|]). discriminate.
  - intros s p. simpl. repeat (destruct (String.eqb s _); [discriminate|]). discriminate.
  - intros s ip ipnet l. simpl.
    repeat (destruct (String.eqb s _);
            [intros [= <- <-]; intros [= <-]; simpl; lia|]).
    discriminate.
Defined.

Lemma ReadConfig_success_state_witness :
  let run := ReadConfig (H := configFile (mkConfig "" [defaultedPair] false false))
                        "nat.json" false false initialWorld in
  Natconfig run.1 = acceptedConfig ∧ clock run.1 = 0.
Proof.
  exact (ReadConfig_success_state (H := configFile (mkConfig "" [defaultedPair] false false))
           "nat.json" "" (mkConfig "" [defaultedPair] false false) false false initialWorld
           eq_refl eq_refl eq_refl).
Defined.

Lemma ReadConfig_success_flags_witness :
  let run := ReadConfig (H := configFile (kniConfig "kni0")) "nat.json" false false
                        initialWorld in
  NeedKNI run.1 = true ∧ NeedDHCP run.1 = false.
Proof.
  exact (ReadConfig_success_flags (H := configFile (kniConfig "kni0"))
           "nat.json" "" (kniConfig "kni0") false false initialWorld
           eq_refl eq_refl eq_refl).
Defined.

Lemma ReadConfig_idempotent_witness :
  let run := ReadConfig (H := twoFiles) "nat.json" false false initialWorld in
  ReadConfig (H := twoFiles) "accepted.json" false false run.1 = (run.1, Done tt).
Proof.
  refine (ReadConfig_idempotent (H := twoFiles) "nat.json" "nat.json"
            (mkConfig "" [defaultedPair] false false) false false initialWorld
            "accepted.json" "accepted.json" false false
            eq_refl eq_refl eq_refl eq_refl eq_refl _ _); discriminate.
Defined.

Lemma checks_on_competingPair :
  linked 0 (linkPair 0 competingPair) ∧ protocolsInRange (linkPair 0 competingPair)
  ∧ portsInRange (linkPair 0 competingPair).
Proof.
  split; [| split].
  - by intros [].
  - intros [] f Hf; simpl in Hf.
    + by apply elem_of_nil in Hf.
    + apply elem_of_cons in Hf as [-> | Hf]; [by vm_compute|].
      apply list_elem_of_singleton in Hf as ->. by vm_compute.
  - intros f Hf. simpl in Hf.
    apply elem_of_cons in Hf as [-> | Hf]; [by vm_compute|].
    apply list_elem_of_singleton in Hf as ->. by vm_compute.
Qed.

Lemma InitFlows_tables_returns_iff_witness :
  (InitFlows_tables (H := configFile forwardingConfig) 0 (linkedWorld competingPair)).2
  = Done tt.
Proof.
  refine (proj2 (proj1 (InitFlows_tables_returns_iff (H := configFile forwardingConfig)
                          (linkedWorld competingPair) 0 (linkPair 0 competingPair) eq_refl
                          (proj1 checks_on_competingPair)
                          (proj1 (proj2 checks_on_competingPair)))) _).
  intros f Hf. simpl in Hf.
  apply elem_of_cons in Hf as [-> | Hf]; [reflexivity|].
  apply list_elem_of_singleton in Hf as ->. reflexivity.
Defined.

Lemma InitFlows_tables_last_rule_wins_witness :
  let run := InitFlows_tables (H := configFile forwardingConfig) 0
               (linkedWorld competingPair) in
  ∃ pp', PortPairs (Natconfig run.1) !! 0%nat = Some pp'
         ∧ tableLookup (PublicPort pp') TCPNumber (V4 (Tuple.mk 0x0A000001 8080))
           = Some (V4 (Tuple.mk 0xC0A80109 81)).
Proof.
  destruct (InitFlows_tables_last_rule_wins (H := configFile forwardingConfig)
              (linkedWorld competingPair) 0 (linkPair 0 competingPair) eq_refl
              (proj1 checks_on_competingPair) (proj1 (proj2 checks_on_competingPair))
              eq_refl)
    as (pp' & Hpp & Hlast).
  exists pp'. split; [exact Hpp|].
  destruct (Hlast 0%nat (rule4 8080 0xC0A80107 80 tcp) eq_refl)
    as (k' & f' & _ & Hk' & _ & Hno & Hlookup).
  destruct k' as [|[|k']].
  - exfalso. apply (Hno 1%nat (rule4 8080 0xC0A80109 81 tcp)); [lia | reflexivity |].
    exact (conj eq_refl (conj eq_refl eq_refl)).
  - injection Hk' as <-. exact Hlookup.
  - discriminate.
Defined.

Lemma InitFlows_tables_static_slots_witness :
  let run := InitFlows_tables (H := configFile forwardingConfig) 0
               (linkedWorld competingPair) in
  ∃ pp', PortPairs (Natconfig run.1) !! 0%nat = Some pp'
         ∧ (∃ entry, slotRow (PublicPort pp') (rule4 8080 0 0 tcp) !! Z.to_nat 8080
                     = Some entry ∧ static entry = true)
         ∧ slotRow (PublicPort pp') (rule4 8081 0 0 tcp) !! Z.to_nat 8081
           = Some zeroPortMapEntry.
Proof.
  destruct (InitFlows_tables_static_slots (H := configFile forwardingConfig)
              (linkedWorld competingPair) 0 (linkPair 0 competingPair) eq_refl
              (proj1 checks_on_competingPair) (proj1 (proj2 checks_on_competingPair))
              (proj2 (proj2 checks_on_competingPair)) eq_refl)
    as (pp' & Hpp & Hslots).
  exists pp'. split; [exact Hpp|]. split.
  - destruct (Hslots (rule4 8080 0 0 tcp) eq_refl ltac:(simpl; lia)) as (entry & He & Hif).
    exists entry. split; [exact He|].
    rewrite decide_True in Hif; [exact (proj1 Hif)|].
    apply Exists_cons_hd. exact (conj eq_refl (conj eq_refl eq_refl)).
  - destruct (Hslots (rule4 8081 0 0 tcp) eq_refl ltac:(simpl; lia)) as (entry & He & Hif).
    rewrite decide_False in Hif.
    + rewrite Hif in He. exact He.
    + intros Hex. apply Exists_cons in Hex as [(_ & _ & Hp) | Hex]; [discriminate Hp|].
      apply Exists_cons in Hex as [(_ & _ & Hp) | Hex]; [discriminate Hp|].
      by apply Exists_nil in Hex.
Defined.

Lemma protocolId_UnmarshalJSON_allocated_witness :
  let run := protocolId_UnmarshalJSON (H := sampleLib) (protocolId.mk 0 false)
               (jsonString "TCP6") in
  run.2 = Done tt
  ∧ slotAllocated (H := configFile forwardingConfig)
      (forwardedPort.mk 9000 zeroHostPort run.1) = false.
Proof.
  destruct (protocolId_UnmarshalJSON_allocated (H := sampleLib)
              (H0 := configFile forwardingConfig) (protocolId.mk 0 false)
              (jsonString "TCP6") "TCP6" eq_refl)
    as (Hiff & _ & Hslot).
  assert ((protocolId_UnmarshalJSON (H := sampleLib) (protocolId.mk 0 false)
             (jsonString "TCP6")).2 = Done tt) as Hdone.
  { apply Hiff. right. right. left. reflexivity. }
  split; [exact Hdone|].
  destruct (Hslot Hdone) as (_ & _ & Hf).
  destruct (Hf (forwardedPort.mk 9000 zeroHostPort
                  (protocolId_UnmarshalJSON (H := sampleLib) (protocolId.mk 0 false)
                     (jsonString "TCP6")).1) eq_refl) as [_ ->].
  reflexivity.
Defined.

Lemma InitFlows_after_ReadConfig_witness :
  let load := ReadConfig (H := configFile highPortConfig) "nat.json" false false
                         initialWorld in
  load.2 = Done tt
  ∧ ∃ m, (InitFlows_state (H := configFile highPortConfig) load.1).2
         = Panic (IndexOutOfRange (Z.to_nat 9000) m).
Proof.
  split; [reflexivity|].
  destruct (InitFlows_after_ReadConfig (H := configFile highPortConfig)
              "nat.json" "" highPortConfig false false initialWorld eq_refl eq_refl)
    as [Hiff Hcases].
  - intros [|i] pp Hpp; [| discriminate]. injection Hpp as <-.
    intros [] f Hf; simpl in Hf.
    + by apply elem_of_nil in Hf.
    + apply list_elem_of_singleton in Hf as ->. by vm_compute.
  - reflexivity.
  - destruct Hcases as [Hdone | (i & pp & f & m & Hpp & Hf & _ & Hrun & _)].
    + pose proof (proj1 Hiff Hdone 0%nat _ (rule4 9000 0xC0A80107 80 tcp) eq_refl
                    ltac:(apply list_elem_of_singleton; reflexivity)) as Hslot.
      vm_compute in Hslot. discriminate.
    + destruct i as [|i]; [| discriminate]. injection Hpp as <-.
      simpl in Hf. apply list_elem_of_singleton in Hf as ->.
      exists m. exact Hrun.
Defined.
